(** * Static analysis engine: complexity and risk-pattern analyzers

    A shallow embedding of [CyclomaticComplexityAnalyzer.py] and
    [CodeSafetyAnalyzer.py], followed by the properties of the two
    analyzers.

    Conventions of the embedding:
    - Python [int] is [Z]; [len] is [Z.of_nat (length _)].
    - Python [float] results ([average_function_complexity], [percentage])
      are given as the exact rational ([Q]) that the float approximates;
      the literal [0.0] is [0].
    - a visitor object is a record that every [visit_*] method takes and
      returns; an assignment [self.f = v] is a record update.
    - [ast.parse] is the external front end: it is an argument of
      [analyze_code], and its result is either a tree or a raised
      exception.
    - the interpreter's recursion limit: a [NodeVisitor] visits a tree by
      recursion and raises [RecursionError] on a tree that is too deep for
      the interpreter. Whether the traversal of a tree fits is, like the
      front end, an argument of [analyze_code]; [visit] and [analyze_tree]
      give what a traversal that fits computes.
    - a [dict] whose iteration order is observable is an association list
      in insertion order.
    - code that can raise ([/], [l[0]], [max], [d[k]]) returns a [result],
      and [analyze_code] maps the exception to its error dict as the
      [except] clauses do.

    Not modelled: the rounding of floats (a statement about a [Q] is about
    the value before rounding), [OverflowError] in a division whose
    quotient is beyond the range of a float, the logger, and text outside
    ASCII in [str.lower]. *)

From Stdlib Require Import ZArith QArith Bool Ascii String List Lia.
From Stdlib Require Import DecimalString.
From Stdlib Require Import Permutation Sorted.
Import ListNotations.
Open Scope string_scope.
Open Scope list_scope.
Open Scope Z_scope.

(** ** Python built-ins used by both files *)

Module Py.

(** Exceptions, as far as the [except] clauses of the analyzers tell them
    apart: [SyntaxError] (with its subclasses) and any other [Exception]. *)
Inductive exn := SyntaxError | OtherException.

Inductive result (A : Type) := Ok (a : A) | Raise (e : exn).
Arguments Ok {A} a.
Arguments Raise {A} e.

Definition bind {A B : Type} (m : result A) (k : A -> result B) : result B :=
  match m with
  | Ok a => k a
  | Raise e => Raise e
  end.

Notation "x <- m ;; k" := (bind m (fun x => k))
  (at level 61, m at next level, right associativity).

(** The recursive traversal of a tree by a [NodeVisitor]: it takes two or
    three interpreter frames for each level of the tree, and raises
    [RecursionError], an [Exception], when the tree is too deep for the
    frames that the recursion limit leaves. [fits] tells whether the tree
    at hand is within that limit. *)
Definition within_recursion_limit (fits : bool) : result unit :=
  if fits then Ok tt else Raise OtherException.

(** [len(l)] *)
Definition len {A : Type} (l : list A) : Z := Z.of_nat (List.length l).

(** Truth value of a [str]: the empty string is false. *)
Definition truthy_str (s : string) : bool :=
  match s with EmptyString => false | String _ _ => true end.

(** Truth value of an attribute that holds [None] or a [str]. *)
Definition truthy (o : option string) : bool :=
  match o with None => false | Some s => truthy_str s end.

(** [sorted(l, key=...)]: Python's sort is stable, so its result is the one
    of stable insertion: [leb a b] is [key(a) <= key(b)], and an element is
    put before the first element to its right that is not smaller. *)
Section Sorted.
Context {A : Type} (leb : A -> A -> bool).

Fixpoint insert (x : A) (l : list A) : list A :=
  match l with
  | [] => [x]
  | y :: l' => if leb x y then x :: y :: l' else y :: insert x l'
  end.

Fixpoint sorted (l : list A) : list A :=
  match l with
  | [] => []
  | x :: l' => insert x (sorted l')
  end.
End Sorted.

(** [int / int]: true division, [ZeroDivisionError] on a zero divisor. The
    result is the exact quotient: Python returns the float nearest to it
    (and raises [OverflowError] when that is beyond the range of floats),
    so the value of the program can differ from this one in the last
    digit. *)
Definition truediv (a b : Z) : result Q :=
  if b =? 0 then Raise OtherException else Ok (Qmake a 1 / Qmake b 1)%Q.

(** [str.lower()] on ASCII text. *)
Definition lower_ascii (c : ascii) : ascii :=
  let n := nat_of_ascii c in
  if (Nat.leb 65 n && Nat.leb n 90)%bool then ascii_of_nat (n + 32) else c.

Fixpoint lower (s : string) : string :=
  match s with
  | EmptyString => EmptyString
  | String c s' => String (lower_ascii c) (lower s')
  end.

(** [sub in s] for strings. *)
Fixpoint contains (sub s : string) : bool :=
  if prefix sub s then true
  else match s with
       | EmptyString => false
       | String _ s' => contains sub s'
       end.

(** [any(p(x) for x in l)] *)
Definition any {A : Type} (p : A -> bool) (l : list A) : bool := existsb p l.

(** [str(n)] for an [int]. *)
Definition str_of_int (n : Z) : string :=
  DecimalString.NilZero.string_of_int (Z.to_int n).

(** [sum(l)] and [max(l)]; Python's [max] raises [ValueError] on an empty
    sequence. *)
Definition sum (l : list Z) : Z := fold_left Z.add l 0.

Definition max (l : list Z) : result Z :=
  match l with
  | [] => Raise OtherException
  | x :: l' => Ok (fold_left Z.max l' x)
  end.

(** [len(set(l))] for a list of strings. *)
Definition len_set (l : list string) : Z := len (nodup string_dec l).

(** [l[0]] and [l[-1]]: [IndexError] on an empty list. *)
Definition first {A : Type} (l : list A) : result A :=
  match l with
  | [] => Raise OtherException
  | x :: _ => Ok x
  end.

Definition final {A : Type} (l : list A) : result A :=
  match l with
  | [] => Raise OtherException
  | x :: l' => Ok (last l' x)
  end.

(** A [dict] with [str] keys, in insertion order: [d.get(k, default)] and
    [d[k] = v]. *)
Fixpoint dict_get {V : Type} (d : list (string * V)) (k : string)
    (default : V) : V :=
  match d with
  | [] => default
  | (k', v) :: d' => if String.eqb k' k then v else dict_get d' k default
  end.

Fixpoint dict_set {V : Type} (d : list (string * V)) (k : string) (v : V)
    : list (string * V) :=
  match d with
  | [] => [(k, v)]
  | (k', v') :: d' =>
    if String.eqb k' k then (k', v) :: d' else (k', v') :: dict_set d' k v
  end.

(** A comprehension whose element expression can raise. *)
Fixpoint mapM {A B : Type} (f : A -> result B) (l : list A)
    : result (list B) :=
  match l with
  | [] => Ok []
  | x :: l' => y <- f x ;; ys <- mapM f l' ;; Ok (y :: ys)
  end.

(** A [for] loop whose body can raise. *)
Fixpoint foldM {A S : Type} (f : S -> A -> result S) (l : list A) (s : S)
    : result S :=
  match l with
  | [] => Ok s
  | x :: l' => s' <- f s x ;; foldM f l' s'
  end.

End Py.

Import Py.

(** ** CyclomaticComplexityAnalyzer.py *)

Module Complexity.

(** A decision point is the dict [{'type': ..., 'line': ...}]. *)
Record DecisionPoint := mkPoint { p_type : string; p_line : Z }.

(** [@dataclass ComplexityMetric] *)
Record ComplexityMetric := mkMetric {
  m_name : string;
  m_complexity : Z;
  m_line_number : Z;
  m_type : string;
  m_nested_depth : Z;
  m_decision_points : list DecisionPoint
}.

(** The syntax tree as [ComplexityVisitor] reads it: the class of a node
    (which selects the [visit_*] method), the attributes the method reads
    ([name], [lineno], [op]), and the child nodes in the order of
    [ast.iter_child_nodes], which is the order [generic_visit] follows.
    Every class without a [visit_*] method of its own is [Other]; that
    includes [Module], [AsyncFunctionDef] and [Lambda]. *)
Inductive boolop := And | Or.

Inductive kind :=
| FunctionDef (name : string) (lineno : Z)
| ClassDef (name : string)
| If (lineno : Z)
| While (lineno : Z)
| For (lineno : Z)
| ExceptHandler (lineno : Z)
| Return (lineno : Z)
| BoolOp (op : boolop) (lineno : Z)
| Other.

Unset Elimination Schemes.
Inductive node := Node (k : kind) (children : list node).
Set Elimination Schemes.

(** [class ComplexityVisitor] *)
Record ComplexityVisitor := mkVisitor {
  metrics : list ComplexityMetric;
  total_complexity : Z;
  current_function : option string;
  current_class : option string;
  nested_depth : Z;
  all_decision_points : list DecisionPoint;
  current_decision_points : list DecisionPoint
}.

(** [ComplexityVisitor.__init__] *)
Definition init : ComplexityVisitor :=
  {| metrics := [];
     total_complexity := 1;
     current_function := None;
     current_class := None;
     nested_depth := 0;
     all_decision_points := [];
     current_decision_points := [] |}.

Definition set_metrics v (self : ComplexityVisitor) :=
  mkVisitor v (total_complexity self) (current_function self)
    (current_class self) (nested_depth self) (all_decision_points self)
    (current_decision_points self).
Definition set_total_complexity v (self : ComplexityVisitor) :=
  mkVisitor (metrics self) v (current_function self)
    (current_class self) (nested_depth self) (all_decision_points self)
    (current_decision_points self).
Definition set_current_function v (self : ComplexityVisitor) :=
  mkVisitor (metrics self) (total_complexity self) v
    (current_class self) (nested_depth self) (all_decision_points self)
    (current_decision_points self).
Definition set_current_class v (self : ComplexityVisitor) :=
  mkVisitor (metrics self) (total_complexity self) (current_function self)
    v (nested_depth self) (all_decision_points self)
    (current_decision_points self).
Definition set_nested_depth v (self : ComplexityVisitor) :=
  mkVisitor (metrics self) (total_complexity self) (current_function self)
    (current_class self) v (all_decision_points self)
    (current_decision_points self).
Definition set_all_decision_points v (self : ComplexityVisitor) :=
  mkVisitor (metrics self) (total_complexity self) (current_function self)
    (current_class self) (nested_depth self) v
    (current_decision_points self).
Definition set_current_decision_points v (self : ComplexityVisitor) :=
  mkVisitor (metrics self) (total_complexity self) (current_function self)
    (current_class self) (nested_depth self) (all_decision_points self)
    v.

(** [_add_decision_point]: the same dict is appended to both lists, and
    the running total grows by one. *)
Definition _add_decision_point (lineno : Z) (decision_type : string)
    (self : ComplexityVisitor) : ComplexityVisitor :=
  let point := {| p_type := decision_type; p_line := lineno |} in
  let self := set_current_decision_points
                (current_decision_points self ++ [point]) self in
  let self := set_all_decision_points
                (all_decision_points self ++ [point]) self in
  set_total_complexity (total_complexity self + 1) self.

(** [isinstance(node.op, (ast.And, ast.Or))] *)
Definition is_And_or_Or (op : boolop) : bool :=
  match op with And => true | Or => true end.

(** [NodeVisitor.visit]: dispatch on the class of the node. Each case is the
    body of the [visit_*] method; [generic_visit] visits the children in
    order. *)
Fixpoint visit (n : node) (self : ComplexityVisitor) : ComplexityVisitor :=
  match n with
  | Node k children =>
    let generic_visit :=
      fun self => fold_left (fun self c => visit c self) children self in
    match k with
    | ClassDef name =>
      let previous_class := current_class self in
      let self := set_current_class (Some name) self in
      let self := set_nested_depth (nested_depth self + 1) self in
      let self := generic_visit self in
      let self := set_nested_depth (nested_depth self - 1) self in
      set_current_class previous_class self
    | FunctionDef name lineno =>
      let previous_function := current_function self in
      let previous_points := current_decision_points self in
      let self := set_current_function (Some name) self in
      let self := set_current_decision_points [] self in
      let start_complexity := total_complexity self in
      let self := set_nested_depth (nested_depth self + 1) self in
      let self := generic_visit self in
      let function_complexity :=
        total_complexity self - start_complexity + 1 in
      let self := set_metrics
        (metrics self ++
           [{| m_name := name;
               m_complexity := function_complexity;
               m_line_number := lineno;
               m_type := "function";
               m_nested_depth := nested_depth self;
               m_decision_points := current_decision_points self |}])
        self in
      let self := set_nested_depth (nested_depth self - 1) self in
      let self := set_current_function previous_function self in
      set_current_decision_points previous_points self
    | If lineno => generic_visit (_add_decision_point lineno "if" self)
    | While lineno => generic_visit (_add_decision_point lineno "loop" self)
    | For lineno => generic_visit (_add_decision_point lineno "loop" self)
    | ExceptHandler lineno =>
      generic_visit (_add_decision_point lineno "except" self)
    | Return lineno =>
      let self :=
        if truthy (current_function self)
        then _add_decision_point lineno "return" self
        else self in
      generic_visit self
    | BoolOp op lineno =>
      let self :=
        if is_And_or_Or op
        then _add_decision_point lineno "boolean_op" self
        else self in
      generic_visit self
    | Other => generic_visit self
    end
  end.

(** [generic_visit] of a node with the given children. *)
Definition generic_visit (children : list node) (self : ComplexityVisitor)
    : ComplexityVisitor :=
  fold_left (fun self c => visit c self) children self.

(** [class CyclomaticComplexityAnalyzer]: the two thresholds set by
    [__init__] (the logger has no part in the results). *)
Record CyclomaticComplexityAnalyzer := mkAnalyzer {
  threshold_warning : Z;
  threshold_critical : Z
}.

(** [CyclomaticComplexityAnalyzer()] with the default thresholds. *)
Definition default_analyzer : CyclomaticComplexityAnalyzer :=
  {| threshold_warning := 10; threshold_critical := 15 |}.

(** The dicts of the report. *)
Record Metrics := mkMetrics {
  overall_complexity : Z;
  average_function_complexity : Q;
  max_complexity : Z;
  total_decision_points : Z;
  unique_decision_types : Z
}.

Record Hotspot := mkHotspot {
  h_name : string;
  h_complexity : Z;
  h_line_number : Z;
  h_type : string;
  h_severity : string;
  h_nested_depth : Z;
  h_decision_points : list DecisionPoint
}.

Record Recommendation := mkRecommendation {
  r_type : string;
  r_message : string;
  r_suggestion : string;
  r_location : option string     (* the key is absent when [None] *)
}.

Record FormattedPoint := mkFormattedPoint {
  f_type : string;
  f_line : Z;
  f_description : string
}.

Record Detail := mkDetail {
  d_name : string;
  d_type : string;
  d_complexity : Z;
  d_line_number : Z;
  d_nested_depth : Z;
  d_severity : string;
  d_decision_points : list FormattedPoint
}.

Record Distribution := mkDistribution { count : Z; percentage : Q }.

Record Cluster := mkCluster {
  start_line : Z;
  end_line : Z;
  size : Z;
  types : list string
}.

Record Summary := mkSummary {
  total_points : Z;
  distributions : list (string * Distribution);
  clusters : list Cluster
}.

Record Analysis := mkAnalysis {
  a_metrics : Metrics;
  a_hotspots : list Hotspot;
  a_recommendations : list Recommendation;
  a_details : list Detail;
  a_decision_point_summary : Summary
}.

(** What [analyze_code] returns: the analysis, or the dict
    [{'error': message}]. *)
Inductive Output :=
| Report (analysis : Analysis)
| Error (error : string).

(** [_calculate_average] *)
Definition _calculate_average (values : list Z) : result Q :=
  match values with
  | [] => Ok 0%Q
  | _ :: _ => truediv (sum values) (len values)
  end.

(** [_determine_severity] *)
Definition _determine_severity (self : CyclomaticComplexityAnalyzer)
    (complexity : Z) : string :=
  if complexity >=? threshold_critical self then "critical"
  else if complexity >=? threshold_warning self then "warning"
  else "normal".

(** The sort key of [_identify_hotspots], [(-complexity, line_number)], and
    the order of tuples on it. *)
Definition hotspot_key (x : Hotspot) : Z * Z :=
  (- h_complexity x, h_line_number x).

Definition tuple_leb (a b : Z * Z) : bool :=
  (fst a <? fst b) || ((fst a =? fst b) && (snd a <=? snd b)).

Definition hotspot_leb (x y : Hotspot) : bool :=
  tuple_leb (hotspot_key x) (hotspot_key y).

(** [_identify_hotspots] *)
Definition _identify_hotspots (self : CyclomaticComplexityAnalyzer)
    (metrics : list ComplexityMetric) : list Hotspot :=
  let hotspots :=
    fold_left
      (fun hotspots metric =>
         let severity := _determine_severity self (m_complexity metric) in
         if negb (String.eqb severity "normal")
         then hotspots ++
                [{| h_name := m_name metric;
                    h_complexity := m_complexity metric;
                    h_line_number := m_line_number metric;
                    h_type := m_type metric;
                    h_severity := severity;
                    h_nested_depth := m_nested_depth metric;
                    h_decision_points := m_decision_points metric |}]
         else hotspots)
      metrics [] in
  sorted hotspot_leb hotspots.

(** [_generate_hotspot_recommendation] *)
Definition _generate_hotspot_recommendation (hotspot : Hotspot)
    : result Recommendation :=
  let base_message :=
    ("High complexity in " ++ h_type hotspot ++ " '" ++ h_name hotspot
       ++ "'")%string in
  let decision_types := map p_type (h_decision_points hotspot) in
  suggestion <-
    (if len_set decision_types =? 1 then
       d_type <- first decision_types ;;
       Ok (if String.eqb d_type "if"
           then "Consider using strategy pattern or lookup tables"
           else if String.eqb d_type "loop"
           then "Consider breaking loop body into smaller functions"
           else "Consider breaking down into smaller functions")
     else
       Ok ("Break down the code into smaller, focused functions "
             ++ "handling specific cases")%string) ;;
  Ok {| r_type := "critical";
        r_message := base_message;
        r_suggestion := suggestion;
        r_location :=
          Some ("Line " ++ str_of_int (h_line_number hotspot))%string |}.

(** [_generate_recommendations] *)
Definition _generate_recommendations (self : CyclomaticComplexityAnalyzer)
    (metrics : Metrics) (hotspots : list Hotspot)
    : result (list Recommendation) :=
  let recommendations := [] in
  let recommendations :=
    if overall_complexity metrics >? threshold_critical self * 2
    then recommendations ++
           [{| r_type := "critical";
               r_message := "Overall code complexity is very high";
               r_suggestion :=
                 "Consider breaking down the code into smaller modules";
               r_location := None |}]
    else recommendations in
  let recommendations :=
    if negb (Qle_bool (average_function_complexity metrics)
               (inject_Z (threshold_warning self)))
    then recommendations ++
           [{| r_type := "warning";
               r_message := "Average function complexity is high";
               r_suggestion :=
                 "Review functions for potential simplification";
               r_location := None |}]
    else recommendations in
  foldM
    (fun recommendations hotspot =>
       if String.eqb (h_severity hotspot) "critical"
       then r <- _generate_hotspot_recommendation hotspot ;;
            Ok (recommendations ++ [r])
       else Ok recommendations)
    hotspots recommendations.

(** [_get_decision_description] *)
Definition _get_decision_description (decision : DecisionPoint) : string :=
  let type_descriptions :=
    [("if", "Conditional branch");
     ("loop", "Loop construct");
     ("except", "Exception handler");
     ("boolean_op", "Boolean operation");
     ("return", "Early return statement")] in
  dict_get type_descriptions (p_type decision) "Unknown decision point".

(** [_format_decision_points] *)
Definition _format_decision_points (decision_points : list DecisionPoint)
    : list FormattedPoint :=
  map (fun d => {| f_type := p_type d;
                   f_line := p_line d;
                   f_description := _get_decision_description d |})
      decision_points.

(** [_generate_detailed_report] *)
Definition _generate_detailed_report (self : CyclomaticComplexityAnalyzer)
    (metrics : list ComplexityMetric) : list Detail :=
  map (fun m =>
         {| d_name := m_name m;
            d_type := m_type m;
            d_complexity := m_complexity m;
            d_line_number := m_line_number m;
            d_nested_depth := m_nested_depth m;
            d_severity := _determine_severity self (m_complexity m);
            d_decision_points :=
              _format_decision_points (m_decision_points m) |})
      metrics.

(** The dict appended to [clusters] for the run [current_cluster]. *)
Definition cluster_dict (current_cluster : list DecisionPoint)
    : result Cluster :=
  p0 <- first current_cluster ;;
  p1 <- final current_cluster ;;
  Ok {| start_line := p_line p0;
        end_line := p_line p1;
        size := len current_cluster;
        types := map p_type current_cluster |}.

Definition window_size : Z := 5.
Definition min_cluster_size : Z := 3.

(** The test of the loop of [_find_decision_clusters]:
    [not current_cluster or (point['line'] - current_cluster[-1]['line']
    <= window_size)]. *)
Definition extends_cluster (current_cluster : list DecisionPoint)
    (point : DecisionPoint) : bool :=
  match current_cluster with
  | [] => true
  | x :: l => p_line point - p_line (last l x) <=? window_size
  end.

(** [if len(current_cluster) >= min_cluster_size: clusters.append(...)] *)
Definition close_cluster (clusters : list Cluster)
    (current_cluster : list DecisionPoint) : result (list Cluster) :=
  if len current_cluster >=? min_cluster_size
  then c <- cluster_dict current_cluster ;; Ok (clusters ++ [c])
  else Ok clusters.

(** One iteration of the loop, on the pair [(clusters, current_cluster)]. *)
Definition cluster_step (st : list Cluster * list DecisionPoint)
    (point : DecisionPoint) : result (list Cluster * list DecisionPoint) :=
  let '(clusters, current_cluster) := st in
  if extends_cluster current_cluster point
  then Ok (clusters, current_cluster ++ [point])
  else clusters <- close_cluster clusters current_cluster ;;
       Ok (clusters, [point]).

(** [_find_decision_clusters] *)
Definition _find_decision_clusters (decision_points : list DecisionPoint)
    : result (list Cluster) :=
  let sorted_points :=
    sorted (fun x y => p_line x <=? p_line y) decision_points in
  st <- foldM cluster_step sorted_points ([], []) ;;
  let '(clusters, current_cluster) := st in
  close_cluster clusters current_cluster.

(** [_summarize_decision_points] *)
Definition _summarize_decision_points (decision_points : list DecisionPoint)
    : result Summary :=
  let type_counts :=
    fold_left
      (fun type_counts point =>
         dict_set type_counts (p_type point)
           (dict_get type_counts (p_type point) 0 + 1))
      decision_points [] in
  let total := len decision_points in
  distributions <-
    mapM (fun tc : string * Z =>
            let (t, c) := tc in
            q <- truediv c total ;;
            Ok (t, {| count := c; percentage := (q * inject_Z 100)%Q |}))
         type_counts ;;
  clusters <- _find_decision_clusters decision_points ;;
  Ok {| total_points := total;
        distributions := distributions;
        clusters := clusters |}.

(** The [try] block of [analyze_code], after the tree is parsed, when the
    traversal stays within the recursion limit. *)
Definition analyze_tree (self : CyclomaticComplexityAnalyzer) (tree : node)
    : result Analysis :=
  let visitor := visit tree init in
  average <-
    _calculate_average
      (map m_complexity
         (filter (fun m => String.eqb (m_type m) "function")
            (metrics visitor))) ;;
  maximum <-
    (match metrics visitor with
     | [] => Ok 0
     | _ :: _ => max (map m_complexity (metrics visitor))
     end) ;;
  let metrics :=
    {| overall_complexity := total_complexity visitor;
       average_function_complexity := average;
       max_complexity := maximum;
       total_decision_points := len (all_decision_points visitor);
       unique_decision_types :=
         len_set (map p_type (all_decision_points visitor)) |} in
  let hotspots := _identify_hotspots self (Complexity.metrics visitor) in
  recommendations <- _generate_recommendations self metrics hotspots ;;
  let details :=
    _generate_detailed_report self (Complexity.metrics visitor) in
  summary <- _summarize_decision_points (all_decision_points visitor) ;;
  Ok {| a_metrics := metrics;
        a_hotspots := hotspots;
        a_recommendations := recommendations;
        a_details := details;
        a_decision_point_summary := summary |}.

(** [analyze_code]: [parse] is [ast.parse], and [fits tree] tells whether
    [visitor.visit(tree)] stays within the interpreter's recursion limit;
    the [RecursionError] of a traversal that does not is caught by
    [except Exception]. *)
Definition analyze_code (parse : string -> result node)
    (fits : node -> bool) (self : CyclomaticComplexityAnalyzer)
    (code : string) : Output :=
  match (tree <- parse code ;;
         traversed <- within_recursion_limit (fits tree) ;;
         analyze_tree self tree) with
  | Ok analysis => Report analysis
  | Raise SyntaxError => Error "Invalid Python syntax"
  | Raise OtherException => Error "Analysis failed"
  end.

End Complexity.

(** ** CodeSafetyAnalyzer.py *)

Module Safety.

(** [@dataclass CodePattern] *)
Record CodePattern := mkPattern {
  name : string;
  description : string;
  risk_level : string;
  remediation : string;
  category : string
}.

(** The value of an [ast.Constant]. *)
Inductive constant :=
| VStr (s : string)
| VInt (n : Z)
| VBool (b : bool)
| VNone
| VOther.                     (* bytes, float, complex, Ellipsis *)

Inductive operator := Add | OtherOperator.

(** Classes that no method of [CodeVisitor] treats specially, as far as
    [_calculate_metrics] and the file's [ComplexityVisitor] tell them
    apart. *)
Inductive kind :=
| FunctionDef | ClassDef | If | While | For | And | Or | Other.

(** The syntax tree as [CodeVisitor] reads it. The child nodes are in the
    order of [ast.iter_child_nodes]. The operator of a [BinOp] and the
    context of a [Name] are child nodes too, but no visitor of this file
    does anything on them and they are left out; the operator of a
    [BoolOp] is kept, as the first child of the [Generic] node. From
    [ast.parse] every literal is an [ast.Constant] (Python 3.8 and
    later). *)
Unset Elimination Schemes.
Inductive node :=
| Assign (lineno : Z) (targets : list node) (value : node)
| Call (lineno : Z) (func : node) (args : list node)
| BinOp (lineno : Z) (left : node) (op : operator) (right : node)
| ExceptHandler (lineno : Z) (type : option node) (body : list node)
| Name (id : string)
| Attribute (value : node) (attr : string)
| Constant (value : constant)
| Generic (k : kind) (children : list node).
Set Elimination Schemes.

(** [class CodeVisitor] *)
Record CodeVisitor := mkCodeVisitor {
  has_hardcoded_credentials : bool;
  has_unsafe_deserialization : bool;
  has_sql_concatenation : bool;
  has_unsafe_file_ops : bool;
  has_debug_info : bool;
  has_broad_exception_handling : bool;
  credential_locations : list Z;
  deserialization_locations : list Z;
  sql_locations : list Z;
  file_op_locations : list Z;
  debug_locations : list Z;
  exception_locations : list Z
}.

(** [CodeVisitor.__init__] *)
Definition init : CodeVisitor :=
  {| has_hardcoded_credentials := false;
     has_unsafe_deserialization := false;
     has_sql_concatenation := false;
     has_unsafe_file_ops := false;
     has_debug_info := false;
     has_broad_exception_handling := false;
     credential_locations := [];
     deserialization_locations := [];
     sql_locations := [];
     file_op_locations := [];
     debug_locations := [];
     exception_locations := [] |}.

(** The five pairs of assignments that the methods make:
    [self.has_x = True; self.x_locations.append(lineno)]. *)
Definition flag_credentials (lineno : Z) (self : CodeVisitor) :=
  mkCodeVisitor true (has_unsafe_deserialization self)
    (has_sql_concatenation self) (has_unsafe_file_ops self)
    (has_debug_info self) (has_broad_exception_handling self)
    (credential_locations self ++ [lineno])
    (deserialization_locations self) (sql_locations self)
    (file_op_locations self) (debug_locations self)
    (exception_locations self).

Definition flag_deserialization (lineno : Z) (self : CodeVisitor) :=
  mkCodeVisitor (has_hardcoded_credentials self) true
    (has_sql_concatenation self) (has_unsafe_file_ops self)
    (has_debug_info self) (has_broad_exception_handling self)
    (credential_locations self)
    (deserialization_locations self ++ [lineno]) (sql_locations self)
    (file_op_locations self) (debug_locations self)
    (exception_locations self).

Definition flag_sql (lineno : Z) (self : CodeVisitor) :=
  mkCodeVisitor (has_hardcoded_credentials self)
    (has_unsafe_deserialization self) true (has_unsafe_file_ops self)
    (has_debug_info self) (has_broad_exception_handling self)
    (credential_locations self) (deserialization_locations self)
    (sql_locations self ++ [lineno])
    (file_op_locations self) (debug_locations self)
    (exception_locations self).

Definition flag_debug (lineno : Z) (self : CodeVisitor) :=
  mkCodeVisitor (has_hardcoded_credentials self)
    (has_unsafe_deserialization self) (has_sql_concatenation self)
    (has_unsafe_file_ops self) true (has_broad_exception_handling self)
    (credential_locations self) (deserialization_locations self)
    (sql_locations self) (file_op_locations self)
    (debug_locations self ++ [lineno])
    (exception_locations self).

Definition flag_exception (lineno : Z) (self : CodeVisitor) :=
  mkCodeVisitor (has_hardcoded_credentials self)
    (has_unsafe_deserialization self) (has_sql_concatenation self)
    (has_unsafe_file_ops self) (has_debug_info self) true
    (credential_locations self) (deserialization_locations self)
    (sql_locations self) (file_op_locations self) (debug_locations self)
    (exception_locations self ++ [lineno]).

(** [isinstance(n, ast.Str)]: from Python 3.8 to 3.13 [ast.Str] is the
    deprecated alias whose instance check holds of a [Constant] with a
    [str] value. *)
Definition isinstance_Str (n : node) : bool :=
  match n with
  | Constant (VStr _) => true
  | _ => false
  end.

Definition isinstance_Constant (n : node) : bool :=
  match n with
  | Constant _ => true
  | _ => false
  end.

(** [x in l] for a list of strings. *)
Definition in_list (x : string) (l : list string) : bool :=
  existsb (String.eqb x) l.

(** [get_string_value], local to [_is_sql_string]. *)
Definition get_string_value (n : node) : string :=
  match n with
  | Constant (VStr s) => s
  | _ => ""
  end.

(** [_is_sql_string]; the keywords are a set, of which [any] only needs
    the members. *)
Definition _is_sql_string (n : node) : bool :=
  let sql_keywords :=
    ["select"; "insert"; "update"; "delete"; "where"; "from"] in
  match n with
  | BinOp _ left_ _ right_ =>
    let left_str := get_string_value left_ in
    let right_str := get_string_value right_ in
    let combined := lower (left_str ++ " " ++ right_str)%string in
    any (fun keyword => contains keyword combined) sql_keywords
  | _ => false
  end.

(** The loop over the targets in [visit_Assign]. *)
Definition check_targets (lineno : Z) (targets : list node) (value : node)
    (self : CodeVisitor) : CodeVisitor :=
  fold_left
    (fun self target =>
       match target with
       | Name id =>
         let name := lower id in
         if any (fun cred => contains cred name)
              ["password"; "secret"; "key"; "token"]
         then if isinstance_Str value || isinstance_Constant value
              then flag_credentials lineno self
              else self
         else self
       | _ => self
       end)
    targets self.

(** The checks of [visit_Call] on the callee. *)
Definition check_callee (lineno : Z) (func : node) (self : CodeVisitor)
    : CodeVisitor :=
  match func with
  | Name func_name =>
    let self :=
      if in_list func_name ["pickle.loads"; "yaml.load"]
      then flag_deserialization lineno self
      else self in
    if in_list func_name ["print"; "logging.debug"]
    then flag_debug lineno self
    else self
  | _ => self
  end.

(** The check of [visit_BinOp]. *)
Definition check_binop (n : node) (self : CodeVisitor) : CodeVisitor :=
  match n with
  | BinOp lineno left_ Add right_ =>
    if any isinstance_Str [left_; right_]
    then if _is_sql_string n then flag_sql lineno self else self
    else self
  | _ => self
  end.

(** The check of [visit_ExceptHandler]. *)
Definition check_handler (lineno : Z) (type : option node)
    (self : CodeVisitor) : CodeVisitor :=
  match type with
  | None => flag_exception lineno self
  | Some (Name id) =>
    if String.eqb id "Exception" then flag_exception lineno self else self
  | Some _ => self
  end.

(** [CodeVisitor.visit]: after its check every method calls
    [generic_visit], which visits the children in order. *)
Fixpoint visit (n : node) (self : CodeVisitor) : CodeVisitor :=
  let visit_all :=
    fun children self => fold_left (fun self c => visit c self) children self
  in
  match n with
  | Assign lineno targets value =>
    let self := check_targets lineno targets value self in
    visit value (visit_all targets self)
  | Call lineno func args =>
    let self := check_callee lineno func self in
    visit_all args (visit func self)
  | BinOp lineno left_ op right_ =>
    let self := check_binop n self in
    visit right_ (visit left_ self)
  | ExceptHandler lineno type body =>
    let self := check_handler lineno type self in
    let self := match type with
                | Some t => visit t self
                | None => self
                end in
    visit_all body self
  | Name _ => self
  | Attribute value _ => visit value self
  | Constant _ => self
  | Generic _ children => visit_all children self
  end.

(** [class ComplexityVisitor] of this file: one counter. *)
Fixpoint complexity_visit (n : node) (complexity : Z) : Z :=
  let visit_all :=
    fun children complexity =>
      fold_left (fun complexity c => complexity_visit c complexity)
        children complexity
  in
  match n with
  | Assign _ targets value =>
    complexity_visit value (visit_all targets complexity)
  | Call _ func args => visit_all args (complexity_visit func complexity)
  | BinOp _ left_ _ right_ =>
    complexity_visit right_ (complexity_visit left_ complexity)
  | ExceptHandler _ type body =>
    let complexity := match type with
                      | Some t => complexity_visit t complexity
                      | None => complexity
                      end in
    visit_all body complexity
  | Name _ => complexity
  | Attribute value _ => complexity_visit value complexity
  | Constant _ => complexity
  | Generic k children =>
    let complexity :=
      match k with
      | If | While | For | And | Or => complexity + 1
      | _ => complexity
      end in
    visit_all children complexity
  end.

(** [ast.walk(tree)]: every node of the tree, once. [ast.walk] yields
    them breadth first; its two uses in [_calculate_metrics] only count the
    nodes of a class, and here they are in the order of the visit. *)
Fixpoint walk (n : node) : list node :=
  n ::
  match n with
  | Assign _ targets value => flat_map walk targets ++ walk value
  | Call _ func args => walk func ++ flat_map walk args
  | BinOp _ left_ _ right_ => walk left_ ++ walk right_
  | ExceptHandler _ type body =>
    match type with Some t => walk t | None => [] end
    ++ flat_map walk body
  | Name _ => []
  | Attribute value _ => walk value
  | Constant _ => []
  | Generic _ children => flat_map walk children
  end.

Definition isinstance_FunctionDef (n : node) : bool :=
  match n with
  | Generic FunctionDef _ => true
  | _ => false
  end.

Definition isinstance_ClassDef (n : node) : bool :=
  match n with
  | Generic ClassDef _ => true
  | _ => false
  end.

Record Metrics := mkMetrics {
  cyclomatic_complexity : Z;
  number_of_functions : Z;
  number_of_classes : Z;
  lines_of_code : Z;
  comment_ratio : Q
}.

Record Finding := mkFinding {
  pattern : CodePattern;
  locations : list Z
}.

Record Recommendation := mkRecommendation {
  title : string;
  r_description : string;
  r_remediation : string;
  priority : string
}.

Record Results := mkResults {
  findings : list Finding;
  metrics : Metrics;
  recommendations : list Recommendation
}.

Inductive Output :=
| Report (results : Results)
| Error (error : string).

(** [_initialize_patterns] *)
Definition patterns : list (string * CodePattern) :=
  [("hardcoded_credentials",
    {| name := "Hardcoded Credentials";
       description := "Credentials or secrets directly embedded in code";
       risk_level := "high";
       remediation :=
         "Use environment variables or secure secret management";
       category := "security" |});
   ("unsafe_deserialization",
    {| name := "Unsafe Deserialization";
       description := "Direct deserialization of untrusted data";
       risk_level := "high";
       remediation := "Implement proper input validation and sanitization";
       category := "security" |});
   ("sql_concatenation",
    {| name := "SQL String Concatenation";
       description := "Direct string concatenation in SQL queries";
       risk_level := "high";
       remediation := "Use parameterized queries or ORM";
       category := "security" |});
   ("file_path_manipulation",
    {| name := "Unsafe File Path Handling";
       description := "Insufficient validation of file paths";
       risk_level := "medium";
       remediation := "Use path sanitization and access control";
       category := "security" |});
   ("debug_info",
    {| name := "Debug Information";
       description := "Debug/trace information in production code";
       risk_level := "low";
       remediation := "Remove or disable debug code in production";
       category := "best_practice" |});
   ("error_suppression",
    {| name := "Broad Error Suppression";
       description := "Catching all exceptions without proper handling";
       risk_level := "medium";
       remediation := "Catch specific exceptions and handle appropriately";
       category := "reliability" |})].

(** [self.patterns[key]]: [KeyError] on a missing key. *)
Fixpoint getitem (d : list (string * CodePattern)) (key : string)
    : result CodePattern :=
  match d with
  | [] => Raise OtherException
  | (k, v) :: d' => if String.eqb k key then Ok v else getitem d' key
  end.

(** [_calculate_metrics] *)
Definition _calculate_metrics (tree : node) : Metrics :=
  {| cyclomatic_complexity := complexity_visit tree 1;
     number_of_functions :=
       len (filter isinstance_FunctionDef (walk tree));
     number_of_classes := len (filter isinstance_ClassDef (walk tree));
     lines_of_code := 0;
     comment_ratio := 0%Q |}.

(** One block of [_analyze_patterns]:
    [if flag: results['findings'].append({...})]. *)
Definition add_finding (flag : bool) (key : string) (locs : list Z)
    (findings : list Finding) : result (list Finding) :=
  if flag
  then p <- getitem patterns key ;;
       Ok (findings ++ [{| pattern := p; locations := locs |}])
  else Ok findings.

(** [_analyze_patterns], on the list [results['findings']]. *)
Definition _analyze_patterns (visitor : CodeVisitor)
    (findings : list Finding) : result (list Finding) :=
  findings <- add_finding (has_hardcoded_credentials visitor)
                "hardcoded_credentials" (credential_locations visitor)
                findings ;;
  findings <- add_finding (has_unsafe_deserialization visitor)
                "unsafe_deserialization" (deserialization_locations visitor)
                findings ;;
  findings <- add_finding (has_sql_concatenation visitor)
                "sql_concatenation" (sql_locations visitor) findings ;;
  findings <- add_finding (has_unsafe_file_ops visitor)
                "file_path_manipulation" (file_op_locations visitor)
                findings ;;
  findings <- add_finding (has_debug_info visitor)
                "debug_info" (debug_locations visitor) findings ;;
  add_finding (has_broad_exception_handling visitor)
    "error_suppression" (exception_locations visitor) findings.

(** [_generate_recommendations], on the list
    [results['recommendations']]. *)
Definition _generate_recommendations (findings : list Finding)
    (metrics : Metrics) (recommendations : list Recommendation)
    : list Recommendation :=
  let recommendations :=
    fold_left
      (fun recommendations finding =>
         let pattern := pattern finding in
         recommendations ++
           [{| title := ("Address " ++ name pattern)%string;
               r_description := description pattern;
               r_remediation := remediation pattern;
               priority := risk_level pattern |}])
      findings recommendations in
  if cyclomatic_complexity metrics >? 10
  then recommendations ++
         [{| title := "Reduce Code Complexity";
             r_description := "High cyclomatic complexity detected";
             r_remediation := "Consider breaking down complex functions";
             priority := "medium" |}]
  else recommendations.

(** The [try] block of [analyze_code], after the tree is parsed, when the
    traversals stay within the recursion limit. *)
Definition analyze_tree (tree : node) : result Results :=
  let metrics := _calculate_metrics tree in
  let visitor := visit tree init in
  findings <- _analyze_patterns visitor [] ;;
  let recommendations := _generate_recommendations findings metrics [] in
  Ok {| findings := findings;
        metrics := metrics;
        recommendations := recommendations |}.

(** [analyze_code]: [parse] is [ast.parse], and [fits tree] tells whether
    the two traversals of the tree, [ComplexityVisitor] in
    [_calculate_metrics] and [CodeVisitor], stay within the interpreter's
    recursion limit; the [RecursionError] of one that does not is caught by
    [except Exception]. *)
Definition analyze_code (parse : string -> result node)
    (fits : node -> bool) (code : string) : Output :=
  match (tree <- parse code ;;
         traversed <- within_recursion_limit (fits tree) ;;
         analyze_tree tree) with
  | Ok results => Report results
  | Raise SyntaxError => Error "Invalid Python syntax"
  | Raise OtherException => Error "Analysis failed"
  end.

End Safety.

(** ** What a traversal records, read off the tree

    These functions are not part of the program: they say, by recursion on
    the tree, what [ComplexityVisitor.visit] appends to each of its lists.
    [in_function] is the truth value of [self.current_function] at the
    node. *)

Module Traversal.
Import Complexity.

(** The decision point that the [visit_*] method of a node of class [k]
    records for the node itself. *)
Definition node_points (in_function : bool) (k : kind)
    : list DecisionPoint :=
  match k with
  | If lineno => [mkPoint "if" lineno]
  | While lineno => [mkPoint "loop" lineno]
  | For lineno => [mkPoint "loop" lineno]
  | ExceptHandler lineno => [mkPoint "except" lineno]
  | Return lineno =>
    if in_function then [mkPoint "return" lineno] else []
  | BoolOp _ lineno => [mkPoint "boolean_op" lineno]
  | FunctionDef _ _ => []
  | ClassDef _ => []
  | Other => []
  end.

(** The truth value of [self.current_function] while the children of a
    node of class [k] are visited. *)
Definition inside (in_function : bool) (k : kind) : bool :=
  match k with
  | FunctionDef name _ => truthy_str name
  | _ => in_function
  end.

(** All the decision points of a subtree, in the order of the visit. *)
Fixpoint points (in_function : bool) (n : node) : list DecisionPoint :=
  match n with
  | Node k children =>
    node_points in_function k
      ++ flat_map (points (inside in_function k)) children
  end.

(** The decision points of a subtree that are not inside a function
    definition of the subtree: the ones recorded against the context that
    is current at its root. *)
Fixpoint own_points (in_function : bool) (n : node) : list DecisionPoint :=
  match n with
  | Node (FunctionDef _ _) _ => []
  | Node k children =>
    node_points in_function k ++ flat_map (own_points in_function) children
  end.

(** The metrics of the function definitions of a subtree, innermost
    first, for a root at nesting depth [depth]. *)
Fixpoint function_metrics (depth : Z) (in_function : bool) (n : node)
    : list ComplexityMetric :=
  match n with
  | Node (FunctionDef name lineno) children =>
    flat_map (function_metrics (depth + 1) (truthy_str name)) children
      ++ [{| m_name := name;
             m_complexity :=
               len (flat_map (points (truthy_str name)) children) + 1;
             m_line_number := lineno;
             m_type := "function";
             m_nested_depth := depth + 1;
             m_decision_points :=
               flat_map (own_points (truthy_str name)) children |}]
  | Node (ClassDef _) children =>
    flat_map (function_metrics (depth + 1) in_function) children
  | Node _ children =>
    flat_map (function_metrics depth in_function) children
  end.

(** A subtree with a function definition in it. *)
Fixpoint has_function_def (n : node) : bool :=
  match n with
  | Node (FunctionDef _ _) _ => true
  | Node _ children => existsb has_function_def children
  end.

(** A unit without conditionals, loops, exception handlers, boolean
    operators, and without return statements inside function
    definitions. [in_def] tells whether the node is inside a function
    definition. *)
Definition plain_kind (in_def : bool) (k : kind) : bool :=
  match k with
  | If _ | While _ | For _ | ExceptHandler _ | BoolOp _ _ => false
  | Return _ => negb in_def
  | FunctionDef _ _ | ClassDef _ | Other => true
  end.

Fixpoint plain (in_def : bool) (n : node) : bool :=
  match n with
  | Node k children =>
    plain_kind in_def k
    && forallb (plain (match k with
                       | FunctionDef _ _ => true
                       | _ => in_def
                       end)) children
  end.

(** The visitor after it has appended [ms] to its metrics and recorded the
    decision points [ps], of which [own] against the current context. *)
Definition advance (self : ComplexityVisitor) (ms : list ComplexityMetric)
    (ps own : list DecisionPoint) : ComplexityVisitor :=
  {| metrics := metrics self ++ ms;
     total_complexity := total_complexity self + len ps;
     current_function := current_function self;
     current_class := current_class self;
     nested_depth := nested_depth self;
     all_decision_points := all_decision_points self ++ ps;
     current_decision_points := current_decision_points self ++ own |}.

(** [if self.current_function] *)
Definition in_function (self : ComplexityVisitor) : bool :=
  truthy (current_function self).

(** The early-return decision points of a list. *)
Definition early_returns (ps : list DecisionPoint) : list DecisionPoint :=
  filter (fun p => String.eqb (p_type p) "return") ps.

(** The number of return statements of a subtree that are inside a
    function context. *)
Fixpoint returns_in_functions (in_function : bool) (n : node) : nat :=
  match n with
  | Node k children =>
    (match k with
     | Return _ => if in_function then 1 else 0
     | _ => 0
     end
     + list_sum (map (returns_in_functions (inside in_function k)) children))
    %nat
  end.

(** The number of return statements of a subtree whose innermost function
    context is the one of its root. *)
Fixpoint own_returns (in_function : bool) (n : node) : nat :=
  match n with
  | Node (FunctionDef _ _) _ => 0%nat
  | Node k children =>
    (match k with
     | Return _ => if in_function then 1 else 0
     | _ => 0
     end
     + list_sum (map (own_returns in_function) children))%nat
  end.

(** [def f(): def g(): if x: pass], on lines 1 to 4: the children of a
    [FunctionDef] are its [arguments] and its body, the ones of an [If] its
    test (a [Name], with its context) and its body. *)
Definition nested_functions : node :=
  Node Other
    [Node (FunctionDef "f" 1)
       [Node Other [];
        Node (FunctionDef "g" 2)
          [Node Other [];
           Node (If 3) [Node Other [Node Other []]; Node Other []]]]].

(** Induction on a tree, with the property on all children. *)
Section NodeInduction.
Variable P : node -> Prop.
Hypothesis step : forall k children, Forall P children -> P (Node k children).

Fixpoint node_ind (n : node) : P n :=
  match n with
  | Node k children =>
    step k children
      ((fix all (l : list node) : Forall P l :=
          match l with
          | [] => Forall_nil P
          | c :: l' => Forall_cons c (node_ind c) (all l')
          end) children)
  end.
End NodeInduction.

(** The class of the example of the source file, on lines 1 to 7:
    [class DataProcessor: def clean_data(self, items): cleaned = [];
    for item in items: if item and (item.get('valid') or
    item.get('force')): cleaned.append(item); return cleaned].
    Expressions without a decision point are leaves. *)
Definition data_processor : node :=
  Node Other
    [Node (ClassDef "DataProcessor")
       [Node (FunctionDef "clean_data" 2)
          [Node Other [Node Other []; Node Other []];
           Node Other [Node Other []; Node Other []];
           Node (For 4)
             [Node Other [];
              Node Other [];
              Node (If 5)
                [Node (BoolOp And 5)
                   [Node Other [];
                    Node Other [];
                    Node (BoolOp Or 5)
                      [Node Other []; Node Other []; Node Other []]];
                 Node Other [Node Other []]]];
           Node (Return 7) [Node Other []]]]].

(** [x = 1], and [if x: pass], on line 1. *)
Definition assignment_only : node :=
  Node Other [Node Other [Node Other [Node Other []]; Node Other []]].

Definition module_level_if : node :=
  Node Other [Node (If 1) [Node Other [Node Other []]; Node Other []]].

(** [async def f(): return 1] and [def f(): return 1], on lines 1 and 2.
    The visitor has no method for [ast.AsyncFunctionDef], so the first
    definition is a node of class [Other]; the children of both are the
    [arguments] and the [Return], above its value. *)
Definition async_return : node :=
  Node Other
    [Node Other [Node Other []; Node (Return 2) [Node Other []]]].

Definition def_return : node :=
  Node Other
    [Node (FunctionDef "f" 1)
       [Node Other []; Node (Return 2) [Node Other []]]].

(** The number of levels of a tree, and an interpreter whose recursion
    limit leaves room for the traversal of [limit] levels. *)
Fixpoint levels (n : node) : nat :=
  match n with
  | Node _ children => S (list_max (map levels children))
  end.

Definition room_for (limit : nat) (tree : node) : bool :=
  Nat.leb (levels tree) limit.

(** The unit [x.a.a...a] with [n] attributes: a module with one expression
    statement; an [Attribute] is above its value and its context, and the
    [Name] above its context. *)
Definition attribute_chain (n : nat) : node :=
  Node Other
    [Node Other
       [Nat.iter n (fun value => Node Other [value; Node Other []])
          (Node Other [Node Other []])]].

End Traversal.

(** ** What the report holds, read off the metrics and the points *)

Module Reports.
Import Complexity.

(** The dict that [_identify_hotspots] builds for a metric. *)
Definition hotspot_of (self : CyclomaticComplexityAnalyzer)
    (metric : ComplexityMetric) : Hotspot :=
  {| h_name := m_name metric;
     h_complexity := m_complexity metric;
     h_line_number := m_line_number metric;
     h_type := m_type metric;
     h_severity := _determine_severity self (m_complexity metric);
     h_nested_depth := m_nested_depth metric;
     h_decision_points := m_decision_points metric |}.

(** [severity != 'normal'] *)
Definition is_hotspot (self : CyclomaticComplexityAnalyzer)
    (metric : ComplexityMetric) : bool :=
  negb (String.eqb (_determine_severity self (m_complexity metric))
          "normal").

(** The order of the hotspots: higher complexity first, and the smaller
    line first at equal complexity. *)
Definition precedes (a b : Hotspot) : Prop :=
  h_complexity b < h_complexity a
  \/ (h_complexity a = h_complexity b /\ h_line_number a <= h_line_number b).

(** A run of decision points: its first point and the ones after it. *)
Definition run : Type := DecisionPoint * list DecisionPoint.

Definition run_points (r : run) : list DecisionPoint := fst r :: snd r.
Definition run_start (r : run) : Z := p_line (fst r).
Definition run_end (r : run) : Z := p_line (last (snd r) (fst r)).

(** The runs of a list of points sorted by line, the current run being
    [(x, l)]: the next point goes on with the run when it is at most
    [window_size] lines after the last point of the run, and starts a new
    run otherwise. *)
Fixpoint runs_from (x : DecisionPoint) (l rest : list DecisionPoint)
    : list run :=
  match rest with
  | [] => [(x, l)]
  | p :: rest' =>
    if p_line p - p_line (last l x) <=? window_size
    then runs_from x (l ++ [p]) rest'
    else (x, l) :: runs_from p [] rest'
  end.

Definition runs (sorted_points : list DecisionPoint) : list run :=
  match sorted_points with
  | [] => []
  | p :: rest => runs_from p [] rest
  end.

(** The cluster of a run. *)
Definition cluster_of (r : run) : Cluster :=
  {| start_line := run_start r;
     end_line := run_end r;
     size := len (run_points r);
     types := map p_type (run_points r) |}.

Definition large (r : run) : bool :=
  len (run_points r) >=? min_cluster_size.

(** Each point of a list is at most [window_size] lines after the one
    before it, and not before it. *)
Fixpoint within_window (ps : list DecisionPoint) : Prop :=
  match ps with
  | x :: (y :: _) as ps' =>
    0 <= p_line y - p_line x <= window_size /\ within_window ps'
  | _ => True
  end.

(** Each run starts more than [window_size] lines after the end of the run
    before it. *)
Fixpoint separated (rs : list run) : Prop :=
  match rs with
  | r1 :: (r2 :: _) as rs' =>
    window_size < run_start r2 - run_end r1 /\ separated rs'
  | _ => True
  end.

(** The order of the sorted points. *)
Definition le_line (a b : DecisionPoint) : Prop := p_line a <= p_line b.

End Reports.

(** ** What the pattern visitor flags, read off the tree *)

Module Detection.
Import Safety.

(** The lines that the [visit_*] method of a node appends, for the node
    itself, to each of the location lists. *)
Definition credential_target (value target : node) : bool :=
  match target with
  | Name id =>
    any (fun cred => contains cred (lower id))
      ["password"; "secret"; "key"; "token"]
    && (isinstance_Str value || isinstance_Constant value)
  | _ => false
  end.

Definition credential_hits (n : node) : list Z :=
  match n with
  | Assign lineno targets value =>
    map (fun _ => lineno) (filter (credential_target value) targets)
  | _ => []
  end.

Definition deserialization_hits (n : node) : list Z :=
  match n with
  | Call lineno (Name func_name) _ =>
    if in_list func_name ["pickle.loads"; "yaml.load"] then [lineno] else []
  | _ => []
  end.

Definition debug_hits (n : node) : list Z :=
  match n with
  | Call lineno (Name func_name) _ =>
    if in_list func_name ["print"; "logging.debug"] then [lineno] else []
  | _ => []
  end.

Definition sql_hits (n : node) : list Z :=
  match n with
  | BinOp lineno left_ Add right_ =>
    if any isinstance_Str [left_; right_] && _is_sql_string n
    then [lineno] else []
  | _ => []
  end.

Definition exception_hits (n : node) : list Z :=
  match n with
  | ExceptHandler lineno None _ => [lineno]
  | ExceptHandler lineno (Some (Name id)) _ =>
    if String.eqb id "Exception" then [lineno] else []
  | _ => []
  end.

(** The hits of a subtree, in the order of the visit. *)
Fixpoint collect (hits : node -> list Z) (n : node) : list Z :=
  hits n ++
  match n with
  | Assign _ targets value =>
    flat_map (collect hits) targets ++ collect hits value
  | Call _ func args => collect hits func ++ flat_map (collect hits) args
  | BinOp _ left_ _ right_ => collect hits left_ ++ collect hits right_
  | ExceptHandler _ type body =>
    match type with Some t => collect hits t | None => [] end
    ++ flat_map (collect hits) body
  | Name _ => []
  | Attribute value _ => collect hits value
  | Constant _ => []
  | Generic _ children => flat_map (collect hits) children
  end.

Definition nonempty (l : list Z) : bool :=
  match l with [] => false | _ :: _ => true end.

(** The visitor after the given lines are appended to its five lists that
    a method appends to, with the flag of each list that grows set. *)
Definition extend (self : CodeVisitor)
    (credentials deserializations sqls debugs exceptions : list Z)
    : CodeVisitor :=
  {| has_hardcoded_credentials :=
       has_hardcoded_credentials self || nonempty credentials;
     has_unsafe_deserialization :=
       has_unsafe_deserialization self || nonempty deserializations;
     has_sql_concatenation := has_sql_concatenation self || nonempty sqls;
     has_unsafe_file_ops := has_unsafe_file_ops self;
     has_debug_info := has_debug_info self || nonempty debugs;
     has_broad_exception_handling :=
       has_broad_exception_handling self || nonempty exceptions;
     credential_locations := credential_locations self ++ credentials;
     deserialization_locations :=
       deserialization_locations self ++ deserializations;
     sql_locations := sql_locations self ++ sqls;
     file_op_locations := file_op_locations self;
     debug_locations := debug_locations self ++ debugs;
     exception_locations := exception_locations self ++ exceptions |}.

(** The finding of a pattern of the catalog. *)
Definition finding_of (p : CodePattern) (f : Finding) : bool :=
  String.eqb (name (pattern f)) (name p).

Definition hardcoded_credentials : CodePattern :=
  {| name := "Hardcoded Credentials";
     description := "Credentials or secrets directly embedded in code";
     risk_level := "high";
     remediation := "Use environment variables or secure secret management";
     category := "security" |}.

Definition unsafe_deserialization : CodePattern :=
  {| name := "Unsafe Deserialization";
     description := "Direct deserialization of untrusted data";
     risk_level := "high";
     remediation := "Implement proper input validation and sanitization";
     category := "security" |}.

Definition file_path_manipulation : CodePattern :=
  {| name := "Unsafe File Path Handling";
     description := "Insufficient validation of file paths";
     risk_level := "medium";
     remediation := "Use path sanitization and access control";
     category := "security" |}.

(** A call that opens a path built by [+] from a name: [open(x + ...)] or
    [open(... + x)]. *)
Definition is_Name (n : node) : bool :=
  match n with Name _ => true | _ => false end.

Definition opens_concatenated_path (n : node) : bool :=
  match n with
  | Call _ (Name "open") (BinOp _ left_ Add right_ :: _) =>
    is_Name left_ || is_Name right_
  | _ => false
  end.

(** Some node of the subtree passes the test. *)
Fixpoint occurs (test : node -> bool) (n : node) : bool :=
  test n ||
  match n with
  | Assign _ targets value =>
    existsb (occurs test) targets || occurs test value
  | Call _ func args => occurs test func || existsb (occurs test) args
  | BinOp _ left_ _ right_ => occurs test left_ || occurs test right_
  | ExceptHandler _ type body =>
    match type with Some t => occurs test t | None => false end
    || existsb (occurs test) body
  | Name _ => false
  | Attribute value _ => occurs test value
  | Constant _ => false
  | Generic _ children => existsb (occurs test) children
  end.

(** An identifier has no dot in it. *)
Definition dotted_name (n : node) : bool :=
  match n with
  | Name id => contains "." id
  | _ => false
  end.

Definition sql_concatenation : CodePattern :=
  {| name := "SQL String Concatenation";
     description := "Direct string concatenation in SQL queries";
     risk_level := "high";
     remediation := "Use parameterized queries or ORM";
     category := "security" |}.

Definition debug_info : CodePattern :=
  {| name := "Debug Information";
     description := "Debug/trace information in production code";
     risk_level := "low";
     remediation := "Remove or disable debug code in production";
     category := "best_practice" |}.

Definition error_suppression : CodePattern :=
  {| name := "Broad Error Suppression";
     description := "Catching all exceptions without proper handling";
     risk_level := "medium";
     remediation := "Catch specific exceptions and handle appropriately";
     category := "reliability" |}.

(** The finding of a pattern, if its flag is set. *)
Definition found (flag : bool) (p : CodePattern) (locs : list Z)
    : list Finding :=
  if flag then [{| pattern := p; locations := locs |}] else [].

(** The findings of a visitor, in the order of [_analyze_patterns]. *)
Definition findings_of (visitor : CodeVisitor) : list Finding :=
  found (has_hardcoded_credentials visitor) hardcoded_credentials
    (credential_locations visitor)
  ++ found (has_unsafe_deserialization visitor) unsafe_deserialization
       (deserialization_locations visitor)
  ++ found (has_sql_concatenation visitor) sql_concatenation
       (sql_locations visitor)
  ++ found (has_unsafe_file_ops visitor) file_path_manipulation
       (file_op_locations visitor)
  ++ found (has_debug_info visitor) debug_info (debug_locations visitor)
  ++ found (has_broad_exception_handling visitor) error_suppression
       (exception_locations visitor).

(** Induction on a tree, with the property on all children. *)
Section NodeInduction.
Variable P : node -> Prop.
Hypothesis P_Assign : forall lineno targets value,
  Forall P targets -> P value -> P (Assign lineno targets value).
Hypothesis P_Call : forall lineno func args,
  P func -> Forall P args -> P (Call lineno func args).
Hypothesis P_BinOp : forall lineno left_ op right_,
  P left_ -> P right_ -> P (BinOp lineno left_ op right_).
Hypothesis P_ExceptHandler : forall lineno type body,
  (forall t, type = Some t -> P t) -> Forall P body ->
  P (ExceptHandler lineno type body).
Hypothesis P_Name : forall id, P (Name id).
Hypothesis P_Attribute : forall value attr,
  P value -> P (Attribute value attr).
Hypothesis P_Constant : forall value, P (Constant value).
Hypothesis P_Generic : forall k children,
  Forall P children -> P (Generic k children).

Fixpoint node_ind (n : node) : P n :=
  let all :=
    fix all (l : list node) : Forall P l :=
      match l with
      | [] => Forall_nil P
      | c :: l' => Forall_cons c (node_ind c) (all l')
      end in
  match n with
  | Assign lineno targets value =>
    P_Assign lineno targets value (all targets) (node_ind value)
  | Call lineno func args =>
    P_Call lineno func args (node_ind func) (all args)
  | BinOp lineno left_ op right_ =>
    P_BinOp lineno left_ op right_ (node_ind left_) (node_ind right_)
  | ExceptHandler lineno type body =>
    P_ExceptHandler lineno type body
      (match type with
       | Some t => fun t' E =>
           eq_ind t P (node_ind t) t' (f_equal (fun o => match o with
                                                         | Some x => x
                                                         | None => t
                                                         end) E)
       | None => fun t' E =>
           False_ind _ (eq_ind None (fun o => match o with
                                              | None => True
                                              | Some _ => False
                                              end) I (Some t') E)
       end)
      (all body)
  | Name id => P_Name id
  | Attribute value attr => P_Attribute value attr (node_ind value)
  | Constant value => P_Constant value
  | Generic k children => P_Generic k children (all children)
  end.
End NodeInduction.

(** The effect of visiting a subtree, for a visitor that follows [hits]. *)
Definition follows (n : node) : Prop :=
  forall self,
    visit n self
    = extend self (collect credential_hits n)
        (collect deserialization_hits n) (collect sql_hits n)
        (collect debug_hits n) (collect exception_hits n).

(** [token = None] and [api_key = 42] on line 1: a module with one
    assignment. *)
Definition none_token : node :=
  Generic Other [Assign 1 [Name "token"] (Constant VNone)].

Definition numeric_credential : node :=
  Generic Other [Assign 1 [Name "api_key"] (Constant (VInt 42))].

(** [api_key = "1234secret"] on line 1. *)
Definition string_credential : node :=
  Generic Other [Assign 1 [Name "api_key"] (Constant (VStr "1234secret"))].

(** [pickle.loads(data)] on line 1: a module with one expression
    statement, a call whose callee is the attribute [loads] of the name
    [pickle]. *)
Definition pickle_call : node :=
  Generic Other
    [Generic Other
       [Call 1 (Attribute (Name "pickle") "loads") [Name "data"]]].

(** [yaml.load(text)] on line 1. *)
Definition yaml_call : node :=
  Generic Other
    [Generic Other
       [Call 1 (Attribute (Name "yaml") "load") [Name "text"]]].

(** [with open(user_input + ".txt", "r") as f: data = f.read()] on lines 1
    and 2, from the example of the source file: a [With] node, whose
    children are its item (the call and the name [f]) and its body. *)
Definition open_concatenated : node :=
  Generic Other
    [Generic Other
       [Generic Other
          [Call 1 (Name "open")
             [BinOp 1 (Name "user_input") Add (Constant (VStr ".txt"));
              Constant (VStr "r")];
           Name "f"];
        Assign 2 [Name "data"]
          (Call 2 (Attribute (Name "f") "read") [])]].

(** The number of levels of a tree, and an interpreter whose recursion
    limit leaves room for the traversal of [limit] levels. *)
Fixpoint levels (n : node) : nat :=
  S (match n with
     | Assign _ targets value =>
       Nat.max (list_max (map levels targets)) (levels value)
     | Call _ func args =>
       Nat.max (levels func) (list_max (map levels args))
     | BinOp _ left_ _ right_ => Nat.max (levels left_) (levels right_)
     | ExceptHandler _ type body =>
       Nat.max (match type with Some t => levels t | None => 0%nat end)
         (list_max (map levels body))
     | Name _ => 0%nat
     | Attribute value _ => levels value
     | Constant _ => 0%nat
     | Generic _ children => list_max (map levels children)
     end).

Definition room_for (limit : nat) (tree : node) : bool :=
  Nat.leb (levels tree) limit.

(** The unit [x.a.a...a] with [n] attributes: a module with one expression
    statement. *)
Definition attribute_chain (n : nat) : node :=
  Generic Other
    [Generic Other [Nat.iter n (fun value => Attribute value "a") (Name "x")]].

End Detection.

(** ** Further readings of the tree and of the report *)

Module Census.
Import Complexity.

(** The names of the function definitions of a subtree, the ones nested in
    a definition before the definition itself. *)
Fixpoint def_names (n : node) : list string :=
  match n with
  | Node k children =>
    flat_map def_names children
      ++ match k with
         | FunctionDef name _ => [name]
         | _ => []
         end
  end.

(** The five values of the ['type'] key of a decision point. *)
Definition known_types : list string :=
  ["if"; "loop"; "except"; "boolean_op"; "return"].

(** The five descriptions of [_get_decision_description], apart from the
    default. *)
Definition known_descriptions : list string :=
  ["Conditional branch"; "Loop construct"; "Exception handler";
   "Boolean operation"; "Early return statement"].

(** The number of points of a type. *)
Definition count_type (t : string) (ps : list DecisionPoint) : Z :=
  len (filter (fun p => String.eqb (p_type p) t) ps).

(** The dict of [_generate_detailed_report] for a metric. *)
Definition detail_of (self : CyclomaticComplexityAnalyzer)
    (m : ComplexityMetric) : Detail :=
  {| d_name := m_name m;
     d_type := m_type m;
     d_complexity := m_complexity m;
     d_line_number := m_line_number m;
     d_nested_depth := m_nested_depth m;
     d_severity := _determine_severity self (m_complexity m);
     d_decision_points := _format_decision_points (m_decision_points m) |}.

(** The loop of [_summarize_decision_points] that counts the types. *)
Definition count_types (decision_points : list DecisionPoint)
    (type_counts : list (string * Z)) : list (string * Z) :=
  fold_left
    (fun type_counts point =>
       dict_set type_counts (p_type point)
         (dict_get type_counts (p_type point) 0 + 1))
    decision_points type_counts.

(** The three suggestions of [_generate_hotspot_recommendation] for a
    single type, and the one for mixed types. *)
Definition single_type_suggestion (d_type : string) : string :=
  if String.eqb d_type "if"
  then "Consider using strategy pattern or lookup tables"
  else if String.eqb d_type "loop"
  then "Consider breaking loop body into smaller functions"
  else "Consider breaking down into smaller functions".

Definition mixed_suggestion : string :=
  ("Break down the code into smaller, focused functions "
     ++ "handling specific cases")%string.

(** The two recommendations of [_generate_recommendations] that are not
    about one hotspot. *)
Definition overall_recommendation : Recommendation :=
  {| r_type := "critical";
     r_message := "Overall code complexity is very high";
     r_suggestion := "Consider breaking down the code into smaller modules";
     r_location := None |}.

Definition average_recommendation : Recommendation :=
  {| r_type := "warning";
     r_message := "Average function complexity is high";
     r_suggestion := "Review functions for potential simplification";
     r_location := None |}.

(** [hotspot['severity'] == 'critical'] *)
Definition is_critical (h : Hotspot) : bool :=
  String.eqb (h_severity h) "critical".

(** The sum of a list of integers. *)
Definition Zsum (l : list Z) : Z := fold_right Z.add 0 l.

(** The counts of a [distributions] dict. *)
Definition counts (ds : list (string * Distribution)) : list Z :=
  map (fun td => count (snd td)) ds.

End Census.

(** ** Further readings of the tree of the pattern visitor *)

Module Survey.
Import Safety Detection.

(** The nodes on which the [ComplexityVisitor] of [CodeSafetyAnalyzer.py]
    adds one. *)
Definition counted (n : node) : bool :=
  match n with
  | Generic If _ | Generic While _ | Generic For _
  | Generic And _ | Generic Or _ => true
  | _ => false
  end.


(** The recommendation that [_generate_recommendations] appends for a
    finding, and the one on the complexity. *)
Definition recommendation_of (f : Finding) : Recommendation :=
  {| title := ("Address " ++ name (pattern f))%string;
     r_description := description (pattern f);
     r_remediation := remediation (pattern f);
     priority := risk_level (pattern f) |}.

Definition complexity_recommendation : Recommendation :=
  {| title := "Reduce Code Complexity";
     r_description := "High cyclomatic complexity detected";
     r_remediation := "Consider breaking down complex functions";
     priority := "medium" |}.

(** The keywords of [_is_sql_string]. *)
Definition sql_keywords : list string :=
  ["select"; "insert"; "update"; "delete"; "where"; "from"].

(** A string literal that, in lower case, contains a keyword. *)
Definition sql_literal (n : node) : bool :=
  match n with
  | Constant (VStr s) =>
    any (fun keyword => contains keyword (lower s)) sql_keywords
  | _ => false
  end.

(** The test of [visit_Assign] on the name of a target. *)
Definition credential_name (id : string) : bool :=
  any (fun cred => contains cred (lower id))
    ["password"; "secret"; "key"; "token"].

(** [key = token = "x"] on line 3: an assignment with two targets. *)
Definition chained_credentials : node :=
  Assign 3 [Name "key"; Name "token"] (Constant (VStr "x")).

End Survey.

(** ** Properties of the built-ins *)

Module PyFacts.

Section SortedFacts.
Context {A : Type} (leb : A -> A -> bool).
Hypothesis leb_total : forall a b, leb a b = true \/ leb b a = true.
Hypothesis leb_trans :
  forall a b c, leb a b = true -> leb b c = true -> leb a c = true.

Let le (a b : A) : Prop := leb a b = true.

Lemma insert_perm (x : A) (l : list A) :
  Permutation (insert leb x l) (x :: l).
Proof.
  induction l as [|y l IH]; simpl; [reflexivity|].
  destruct (leb x y); [reflexivity|].
  rewrite IH. apply perm_swap.
Qed.

Lemma sorted_perm (l : list A) : Permutation (sorted leb l) l.
Proof.
  induction l as [|x l IH]; simpl; [reflexivity|].
  rewrite insert_perm. now constructor.
Qed.

Lemma insert_sorted (x : A) (l : list A) :
  StronglySorted le l -> StronglySorted le (insert leb x l).
Proof.
  induction 1 as [|y l Hl IH Hy]; simpl.
  - constructor; constructor.
  - destruct (leb x y) eqn:E.
    + constructor; [now constructor|].
      constructor; [exact E|].
      eapply Forall_impl; [|exact Hy]. intros z Hz.
      exact (leb_trans _ _ _ E Hz).
    + constructor; [exact IH|].
      assert (Hyx : le y x).
      { destruct (leb_total x y) as [H|H]; [congruence|exact H]. }
      apply (Permutation_Forall (Permutation_sym (insert_perm x l))).
      constructor; assumption.
Qed.

Lemma sorted_sorted (l : list A) : StronglySorted le (sorted leb l).
Proof.
  induction l as [|x l IH]; simpl; [constructor|].
  now apply insert_sorted.
Qed.
End SortedFacts.

Lemma StronglySorted_impl {A : Type} (R R' : A -> A -> Prop) (l : list A) :
  (forall a b, R a b -> R' a b) -> StronglySorted R l -> StronglySorted R' l.
Proof.
  intros H. induction 1 as [|x l _ IH Hx]; constructor; [exact IH|].
  eapply Forall_impl; [|exact Hx]. intros b. apply H.
Qed.

(** A loop that appends [f x] for the [x] that pass a test. *)
Lemma fold_left_append {A B : Type} (test : A -> bool) (f : A -> B)
    (l : list A) (acc : list B) :
  fold_left (fun acc x => if test x then acc ++ [f x] else acc) l acc
  = acc ++ map f (filter test l).
Proof.
  revert acc. induction l as [|x l IH]; intros acc; simpl.
  - now rewrite app_nil_r.
  - rewrite IH. destruct (test x); [|reflexivity].
    simpl. now rewrite <- app_assoc.
Qed.

End PyFacts.

(** ** Properties of the complexity visitor *)

Module ComplexityFacts.
Import Complexity Traversal.

Lemma len_app {A : Type} (l1 l2 : list A) : len (l1 ++ l2) = len l1 + len l2.
Proof. unfold len. rewrite length_app. lia. Qed.

Lemma len_nonneg {A : Type} (l : list A) : 0 <= len l.
Proof. unfold len. lia. Qed.

Lemma advance_nil self : advance self [] [] [] = self.
Proof.
  destruct self. unfold advance, len. simpl.
  rewrite !app_nil_r. f_equal. lia.
Qed.

Lemma advance_advance self ms ps own ms' ps' own' :
  advance (advance self ms ps own) ms' ps' own'
  = advance self (ms ++ ms') (ps ++ ps') (own ++ own').
Proof.
  unfold advance. simpl. rewrite len_app, !app_assoc. f_equal. lia.
Qed.

Ltac setters :=
  cbv beta iota zeta delta
    [set_metrics set_total_complexity set_current_function
     set_current_class set_nested_depth set_all_decision_points
     set_current_decision_points
     metrics total_complexity current_function current_class nested_depth
     all_decision_points current_decision_points].

Lemma add_decision_point_advance lineno decision_type self :
  _add_decision_point lineno decision_type self
  = advance self [] [mkPoint decision_type lineno]
      [mkPoint decision_type lineno].
Proof.
  destruct self. unfold _add_decision_point, advance. setters.
  rewrite app_nil_r. change (len [mkPoint decision_type lineno]) with 1.
  reflexivity.
Qed.

(** [generic_visit] follows the children, given that each child does. *)
Lemma generic_visit_advance children :
  Forall (fun c => forall self,
            visit c self
            = advance self
                (function_metrics (nested_depth self) (in_function self) c)
                (points (in_function self) c)
                (own_points (in_function self) c)) children ->
  forall self,
    generic_visit children self
    = advance self
        (flat_map (function_metrics (nested_depth self) (in_function self))
           children)
        (flat_map (points (in_function self)) children)
        (flat_map (own_points (in_function self)) children).
Proof.
  induction 1 as [|c children Hc _ IH]; intros self.
  - simpl. now rewrite advance_nil.
  - unfold generic_visit in *. simpl. rewrite Hc, IH, advance_advance.
    reflexivity.
Qed.

(** The equations of [visit], one for each [visit_*] method. *)
Lemma visit_FunctionDef name lineno children self :
  visit (Node (FunctionDef name lineno) children) self
  = let previous_function := current_function self in
    let previous_points := current_decision_points self in
    let start_complexity := total_complexity self in
    let self :=
      generic_visit children
        (set_nested_depth (nested_depth self + 1)
           (set_current_decision_points []
              (set_current_function (Some name) self))) in
    let self :=
      set_metrics
        (metrics self ++
           [{| m_name := name;
               m_complexity := total_complexity self - start_complexity + 1;
               m_line_number := lineno;
               m_type := "function";
               m_nested_depth := nested_depth self;
               m_decision_points := current_decision_points self |}])
        self in
    set_current_decision_points previous_points
      (set_current_function previous_function
         (set_nested_depth (nested_depth self - 1) self)).
Proof. reflexivity. Qed.

Lemma visit_ClassDef name children self :
  visit (Node (ClassDef name) children) self
  = let self' :=
      generic_visit children
        (set_nested_depth (nested_depth self + 1)
           (set_current_class (Some name) self)) in
    set_current_class (current_class self)
      (set_nested_depth (nested_depth self' - 1) self').
Proof. reflexivity. Qed.

Lemma visit_counted k lineno decision_type children self :
  (k = If lineno /\ decision_type = "if")
  \/ (k = While lineno /\ decision_type = "loop")
  \/ (k = For lineno /\ decision_type = "loop")
  \/ (k = ExceptHandler lineno /\ decision_type = "except")
  \/ (exists op, k = BoolOp op lineno /\ decision_type = "boolean_op") ->
  visit (Node k children) self
  = generic_visit children (_add_decision_point lineno decision_type self).
Proof.
  intros [[-> ->]|[[-> ->]|[[-> ->]|[[-> ->]|[op [-> ->]]]]]];
    try reflexivity.
  destruct op; reflexivity.
Qed.

Lemma visit_Return lineno children self :
  visit (Node (Return lineno) children) self
  = generic_visit children
      (if in_function self
       then _add_decision_point lineno "return" self
       else self).
Proof. reflexivity. Qed.

Lemma visit_Other children self :
  visit (Node Other children) self = generic_visit children self.
Proof. reflexivity. Qed.

(** The whole effect of visiting a subtree. *)
Lemma visit_advance n : forall self,
  visit n self
  = advance self
      (function_metrics (nested_depth self) (in_function self) n)
      (points (in_function self) n)
      (own_points (in_function self) n).
Proof.
  induction n as [k children IH] using node_ind. intros self.
  pose proof (generic_visit_advance children IH) as G.
  assert (counted : forall lineno decision_type,
            generic_visit children
              (_add_decision_point lineno decision_type self)
            = advance self
                (flat_map
                   (function_metrics (nested_depth self) (in_function self))
                   children)
                (mkPoint decision_type lineno
                   :: flat_map (points (in_function self)) children)
                (mkPoint decision_type lineno
                   :: flat_map (own_points (in_function self)) children)).
  { intros. now rewrite add_decision_point_advance, G, advance_advance. }
  destruct k.
  - (* FunctionDef *)
    destruct self. rewrite visit_FunctionDef. setters. rewrite G.
    unfold advance, in_function. setters.
    rewrite app_nil_r, <- app_assoc.
    match goal with
    | |- context [?t + ?n - ?t + 1] =>
      replace (t + n - t + 1) with (n + 1) by lia
    end.
    f_equal. lia.
  - (* ClassDef *)
    destruct self. rewrite visit_ClassDef. setters. rewrite G.
    unfold advance, in_function. setters.
    f_equal. lia.
  - rewrite (visit_counted _ lineno "if") by tauto. apply counted.
  - rewrite (visit_counted _ lineno "loop") by tauto. apply counted.
  - rewrite (visit_counted _ lineno "loop") by tauto. apply counted.
  - rewrite (visit_counted _ lineno "except") by tauto. apply counted.
  - (* Return *)
    rewrite visit_Return. cbn [points own_points function_metrics inside
      node_points].
    destruct (in_function self) eqn:E.
    + apply counted.
    + cbn [app]. rewrite G, E. reflexivity.
  - rewrite (visit_counted _ lineno "boolean_op") by eauto 7. apply counted.
  - rewrite visit_Other. apply G.
Qed.

Lemma generic_visit_flat_map children self :
  generic_visit children self
  = advance self
      (flat_map (function_metrics (nested_depth self) (in_function self))
         children)
      (flat_map (points (in_function self)) children)
      (flat_map (own_points (in_function self)) children).
Proof.
  apply generic_visit_advance, Forall_forall. intros c _. apply visit_advance.
Qed.

Lemma flat_map_nil {A B : Type} (f : A -> list B) (l : list A) :
  (forall x, In x l -> f x = []) -> flat_map f l = [].
Proof.
  induction l as [|x l IH]; intros H; [reflexivity|].
  simpl. rewrite (H x (or_introl eq_refl)), IH; [reflexivity|].
  intros y Hy. apply H. now right.
Qed.

(** A plain subtree records no decision point. *)
Lemma plain_points n : forall in_def in_fn,
  (in_fn = true -> in_def = true) ->
  plain in_def n = true -> points in_fn n = [].
Proof.
  induction n as [k children IH] using node_ind. intros in_def in_fn Himp H.
  simpl in H. apply andb_true_iff in H as [Hk Hc].
  rewrite forallb_forall in Hc. rewrite Forall_forall in IH.
  assert (Hchildren : forall b b',
            (b' = true -> b = true) ->
            (forall c, In c children -> plain b c = true) ->
            flat_map (points b') children = []).
  { intros b b' Hb Hall. apply flat_map_nil.
    intros c Hin. now apply (IH c Hin b b'), Hall. }
  destruct k; simpl in Hk |- *; try discriminate.
  - eapply Hchildren; [|exact Hc]. reflexivity.
  - eapply Hchildren; [|exact Hc]. exact Himp.
  - destruct in_fn.
    + rewrite (Himp eq_refl) in Hk. discriminate.
    + eapply Hchildren; [|exact Hc]. exact Himp.
  - eapply Hchildren; [|exact Hc]. exact Himp.
Qed.

(** Without a nested function definition, every decision point of a
    subtree is recorded against the context of its root. *)
Lemma own_points_all n : forall b,
  has_function_def n = false -> own_points b n = points b n.
Proof.
  induction n as [k children IH] using node_ind. intros b H.
  rewrite Forall_forall in IH.
  assert (Hc : existsb has_function_def children = false ->
               flat_map (own_points b) children
               = flat_map (points b) children).
  { clear H. intros H. induction children as [|c l IHl]; [reflexivity|].
    simpl in H |- *. apply orb_false_iff in H as [H1 H2].
    rewrite (IH c (or_introl eq_refl) b H1). f_equal.
    apply IHl; [|exact H2]. intros x Hx. apply IH. now right. }
  destruct k; simpl in H |- *; try discriminate; now rewrite (Hc H).
Qed.

Lemma flat_map_own_points_all children b :
  existsb has_function_def children = false ->
  flat_map (own_points b) children = flat_map (points b) children.
Proof.
  induction children as [|c l IH]; [reflexivity|].
  simpl. intros H. apply orb_false_iff in H as [H1 H2].
  now rewrite own_points_all, IH.
Qed.

(** The decision points against a context are among all the ones of the
    subtree. *)
Lemma own_points_le n : forall b, len (own_points b n) <= len (points b n).
Proof.
  induction n as [k children IH] using node_ind. intros b.
  rewrite Forall_forall in IH.
  assert (Hc : len (flat_map (own_points b) children)
               <= len (flat_map (points b) children)).
  { induction children as [|c l IHl]; [simpl; lia|].
    simpl. rewrite !len_app.
    pose proof (IH c (or_introl eq_refl) b) as H0.
    assert (len (flat_map (own_points b) l) <= len (flat_map (points b) l)).
    { apply IHl. intros x Hx. apply IH. now right. }
    lia. }
  destruct k; simpl; rewrite ?len_app; unfold len in *; simpl; lia.
Qed.

(** Visiting any subtree from any state adds as much to the running total
    as it appends decision points. *)
Lemma visit_increment n self :
  total_complexity (visit n self) - total_complexity self
  = len (all_decision_points (visit n self)) - len (all_decision_points self).
Proof. rewrite visit_advance. simpl. rewrite len_app. lia. Qed.

(** C2: for every tree, [total_complexity] (the report's
    [overall_complexity]) is one more than the number of decision points
    recorded during the traversal; and for a unit without conditionals,
    loops, exception handlers, boolean operators and returns inside
    functions it is 1. *)
Theorem overall_complexity_counts_points (tree : node) :
  let visitor := visit tree init in
  total_complexity visitor = 1 + len (all_decision_points visitor)
  /\ (plain false tree = true -> total_complexity visitor = 1).
Proof.
  intros visitor. subst visitor. rewrite visit_advance.
  change (in_function init) with false.
  pose proof (plain_points tree false false (fun E => E)) as Hplain.
  destruct (points false tree) as [|p ps] eqn:E; simpl.
  - split; reflexivity.
  - split; [reflexivity|]. intros H. discriminate (Hplain H).
Qed.

(** A unit with a class, a method without a return, and an assignment. *)
Lemma overall_complexity_counts_points_witness :
  let tree := Node Other [Node (ClassDef "A")
                            [Node (FunctionDef "m" 2) [Node Other []]];
                          Node Other []] in
  plain false tree = true /\ total_complexity (visit tree init) = 1.
Proof.
  split; [reflexivity|].
  apply (overall_complexity_counts_points
           (Node Other [Node (ClassDef "A")
                          [Node (FunctionDef "m" 2) [Node Other []]];
                        Node Other []])).
  reflexivity.
Defined.

(** C1 (as the code has it): the metric that [visit_FunctionDef] appends
    when the traversal leaves a function definition comes after the
    metrics of the definitions nested in it, and has
    [complexity = 1 + number of decision points of the whole subtree],
    while [decision_points] holds the ones recorded against this function
    as the innermost context. So [complexity = 1 + len(decision_points)]
    when no function definition is nested in the function, and an empty
    function has complexity 1 and no decision point. *)
Theorem function_metric_complexity (name : string) (lineno : Z)
    (children : list node) (self : ComplexityVisitor) :
  exists nested m,
    metrics (visit (Node (FunctionDef name lineno) children) self)
    = metrics self ++ nested ++ [m]
    /\ nested = flat_map (function_metrics (nested_depth self + 1)
                            (truthy_str name)) children
    /\ m_name m = name
    /\ m_line_number m = lineno
    /\ m_type m = "function"
    /\ m_decision_points m
       = flat_map (own_points (truthy_str name)) children
    /\ m_complexity m
       = 1 + len (flat_map (points (truthy_str name)) children)
    /\ 1 + len (m_decision_points m) <= m_complexity m
    /\ (existsb has_function_def children = false ->
        m_complexity m = 1 + len (m_decision_points m))
    /\ (children = [] -> m_complexity m = 1 /\ m_decision_points m = []).
Proof.
  rewrite visit_advance.
  set (b := truthy_str name).
  exists (flat_map (function_metrics (nested_depth self + 1) b) children).
  exists {| m_name := name;
            m_complexity := len (flat_map (points b) children) + 1;
            m_line_number := lineno;
            m_type := "function";
            m_nested_depth := nested_depth self + 1;
            m_decision_points := flat_map (own_points b) children |}.
  cbn [m_name m_complexity m_line_number m_type m_decision_points].
  assert (Hle : len (flat_map (own_points b) children)
                <= len (flat_map (points b) children))
    by exact (own_points_le (Node Other children) b).
  split; [reflexivity|].
  repeat split; try lia.
  - intros H. rewrite (flat_map_own_points_all _ _ H). lia.
  - subst children. reflexivity.
  - subst children. reflexivity.
Qed.

(** The method of [data_processor]: a loop, a conditional, two boolean
    operators and a return. *)
Example clean_data_metric :
  metrics (visit data_processor init)
  = [{| m_name := "clean_data";
        m_complexity := 6;
        m_line_number := 2;
        m_type := "function";
        m_nested_depth := 2;
        m_decision_points :=
          [mkPoint "loop" 4; mkPoint "if" 5; mkPoint "boolean_op" 5;
           mkPoint "boolean_op" 5; mkPoint "return" 7] |}]
  /\ total_complexity (visit data_processor init) = 6
  /\ nested_depth (visit data_processor init) = 0
  /\ current_function (visit data_processor init) = None.
Proof. vm_compute. repeat split. Qed.

(** Over a whole unit: every metric has at least the complexity that its
    own decision points give. *)
Lemma function_metrics_bound n : forall depth b,
  Forall (fun m => 1 + len (m_decision_points m) <= m_complexity m)
    (function_metrics depth b n).
Proof.
  induction n as [k children IH] using node_ind. intros depth b.
  assert (Hc : forall d b',
            Forall (fun m => 1 + len (m_decision_points m) <= m_complexity m)
              (flat_map (function_metrics d b') children)).
  { intros d b'. apply Forall_flat_map.
    eapply Forall_impl; [|exact IH]. intros c Hc. apply Hc. }
  destruct k; cbn [function_metrics]; try apply Hc.
  apply Forall_app. split; [apply Hc|].
  constructor; [|constructor]. cbn [m_decision_points m_complexity].
  pose proof (own_points_le (Node Other children) (truthy_str name)) as H.
  cbn [own_points points node_points inside app] in H. lia.
Qed.

Lemma metrics_bound (tree : node) :
  Forall (fun m => 1 + len (m_decision_points m) <= m_complexity m)
    (metrics (visit tree init)).
Proof.
  rewrite visit_advance. cbn [advance metrics init app].
  apply function_metrics_bound.
Qed.

(** The metric of a function is the last one after its visit. *)
Lemma function_metrics_last name lineno children self :
  exists nested m,
    metrics (visit (Node (FunctionDef name lineno) children) self)
    = metrics self ++ nested ++ [m]
    /\ m_decision_points m
       = flat_map (own_points (truthy_str name)) children.
Proof.
  rewrite visit_advance. cbn [advance metrics function_metrics].
  eexists. eexists. split; reflexivity.
Qed.

(** C1: a function with a loop, a conditional in it and a return, and no
    nested definition; and an empty function. *)
Lemma function_metric_complexity_witness :
  let body := [Node Other [];
               Node (For 2) [Node (If 3) [Node Other []]];
               Node (Return 4) [Node Other []]] in
  existsb has_function_def body = false
  /\ (exists nested m,
        metrics (visit (Node (FunctionDef "f" 1) body) init)
        = metrics init ++ nested ++ [m]
        /\ m_complexity m = 1 + len (m_decision_points m)
        /\ m_complexity m = 4)
  /\ (exists nested m,
        metrics (visit (Node (FunctionDef "g" 1) []) init)
        = metrics init ++ nested ++ [m]
        /\ m_complexity m = 1
        /\ m_decision_points m = []).
Proof.
  split; [reflexivity|]. split.
  - destruct (function_metric_complexity "f" 1
                [Node Other [];
                 Node (For 2) [Node (If 3) [Node Other []]];
                 Node (Return 4) [Node Other []]] init)
      as (nested & m & Hm & _ & _ & _ & _ & _ & Hc & _ & Heq & _).
    exists nested, m. split; [exact Hm|]. split.
    + apply Heq. reflexivity.
    + rewrite Hc. vm_compute. reflexivity.
  - destruct (function_metric_complexity "g" 1 [] init)
      as (nested & m & Hm & _ & _ & _ & _ & _ & _ & _ & _ & Hempty).
    exists nested, m. split; [exact Hm|]. apply Hempty. reflexivity.
Defined.

(** C1 as stated fails: in [nested_functions] the metric of [f] has
    complexity 2 and no decision point of its own, the conditional being
    recorded against [g]. *)
Lemma nested_function_complexity_counterexample :
  exists m,
    In m (metrics (visit nested_functions init))
    /\ m_name m = "f"
    /\ m_complexity m = 2
    /\ m_decision_points m = []
    /\ m_complexity m <> 1 + len (m_decision_points m).
Proof.
  vm_compute. eexists. split.
  - right. left. reflexivity.
  - repeat split. discriminate.
Qed.

Lemma early_returns_flat_map {A : Type} (f g : A -> list DecisionPoint)
    (h : A -> nat) (l : list A) :
  Forall (fun x => List.length (early_returns (f x)) = h x) l ->
  List.length (early_returns (flat_map f l)) = list_sum (map h l).
Proof.
  induction 1 as [|x l Hx _ IH]; [reflexivity|].
  simpl. unfold early_returns in *. now rewrite filter_app, length_app, Hx, IH.
Qed.

(** The early-return points of a subtree are as many as its return
    statements inside a function context. *)
Lemma early_returns_points n : forall b,
  List.length (early_returns (points b n)) = returns_in_functions b n.
Proof.
  induction n as [k children IH] using node_ind. intros b.
  cbn [points returns_in_functions].
  unfold early_returns at 1. rewrite filter_app, length_app.
  fold (early_returns (flat_map (points (inside b k)) children)).
  rewrite (early_returns_flat_map _ (points (inside b k))
             (returns_in_functions (inside b k))).
  - f_equal. destruct k; try reflexivity. destruct b; reflexivity.
  - eapply Forall_impl; [|exact IH]. intros c Hc. apply Hc.
Qed.

(** The early-return points recorded against a context are as many as the
    return statements that have it as innermost context. *)
Lemma early_returns_own_points n : forall b,
  List.length (early_returns (own_points b n)) = own_returns b n.
Proof.
  induction n as [k children IH] using node_ind. intros b.
  assert (H : List.length
                (early_returns (flat_map (own_points b) children))
              = list_sum (map (own_returns b) children)).
  { apply (early_returns_flat_map _ (own_points b)).
    eapply Forall_impl; [|exact IH]. intros c Hc. apply Hc. }
  destruct k; cbn [own_points own_returns]; try reflexivity;
    unfold early_returns at 1; rewrite filter_app, length_app;
    fold (early_returns (flat_map (own_points b) children)); rewrite H;
    f_equal.
  destruct b; reflexivity.
Qed.

(** C9 (as the code has it): the function context is [current_function],
    which only [visit_FunctionDef], the method for a [def] statement, sets.
    A return statement met while [current_function] is [None] records
    nothing for itself (the traversal goes on into its children from the
    same state); one met inside the function [f] appends exactly one
    ['return'] point, with its line, to the current list and to the list of
    all points, and adds one to the running total, before its children
    are visited. Over a whole unit the early-return points are as many as
    the return statements inside a [def], and the metric of a [def] holds
    one for each return statement that has this [def] as innermost
    [def]. *)
Theorem return_statements_counted :
  (forall lineno children self,
     current_function self = None ->
     visit (Node (Return lineno) children) self
     = generic_visit children self)
  /\ (forall lineno children self f,
        current_function self = Some f -> f <> "" ->
        exists recorded,
          visit (Node (Return lineno) children) self
          = generic_visit children recorded
          /\ current_decision_points recorded
             = current_decision_points self ++ [mkPoint "return" lineno]
          /\ all_decision_points recorded
             = all_decision_points self ++ [mkPoint "return" lineno]
          /\ total_complexity recorded = total_complexity self + 1
          /\ metrics recorded = metrics self
          /\ current_function recorded = Some f)
  /\ (forall tree,
        List.length (early_returns (all_decision_points (visit tree init)))
        = returns_in_functions false tree)
  /\ (forall name lineno children self,
        name <> "" ->
        exists earlier m,
          metrics (visit (Node (FunctionDef name lineno) children) self)
          = earlier ++ [m]
          /\ List.length (early_returns (m_decision_points m))
             = list_sum (map (own_returns true) children)).
Proof.
  repeat apply conj.
  - intros lineno children self H. rewrite visit_Return.
    unfold in_function. rewrite H. reflexivity.
  - intros lineno children self f H Hf. rewrite visit_Return.
    unfold in_function. rewrite H.
    destruct f as [|c f]; [congruence|]. cbn [truthy truthy_str].
    eexists. split; [reflexivity|].
    destruct self. cbn in H. subst. repeat split.
  - intros tree. rewrite visit_advance.
    cbn [advance all_decision_points init app].
    apply early_returns_points.
  - intros name lineno children self Hname.
    destruct (function_metrics_last name lineno children self)
      as (nested & m & Hm & Hp).
    exists (metrics self ++ nested), m. split.
    + rewrite Hm. now rewrite app_assoc.
    + rewrite Hp.
      destruct name as [|c name]; [congruence|]. cbn [truthy_str].
      apply (early_returns_flat_map _ (own_points true)).
      apply Forall_forall. intros x _. apply early_returns_own_points.
Qed.

(** C9: a return at module level, one met in the function [f], and the
    metric of [def f(): return]. *)
Lemma return_statements_counted_witness :
  visit (Node (Return 1) []) init = init
  /\ (exists recorded,
        visit (Node (Return 2) [])
          (set_current_function (Some "f") init)
        = generic_visit [] recorded
        /\ all_decision_points recorded = [mkPoint "return" 2]
        /\ total_complexity recorded = 2)
  /\ (exists earlier m,
        metrics (visit (Node (FunctionDef "f" 1)
                          [Node Other []; Node (Return 2) []]) init)
        = earlier ++ [m]
        /\ List.length (early_returns (m_decision_points m)) = 1%nat).
Proof.
  destruct return_statements_counted as (Hout & Hin & _ & Hfun).
  assert (Hf : "f" <> "") by discriminate.
  split; [|split].
  - apply (Hout 1 [] init). reflexivity.
  - destruct (Hin 2 [] (set_current_function (Some "f") init) "f"
                eq_refl Hf)
      as (recorded & Hv & _ & Ha & Ht & _).
    exists recorded. repeat split; assumption.
  - destruct (Hfun "f" 1 [Node Other []; Node (Return 2) []] init Hf)
      as (earlier & m & Hm & Hr).
    exists earlier, m. split; assumption.
Defined.

(** C9 as stated fails: in [async def f(): return 1] the return statement
    is inside a function, and the traversal records no decision point for
    it, leaves the total at 1 and emits no metric; in [def f(): return 1]
    the point is recorded, against [f]. *)
Lemma async_return_counterexample :
  all_decision_points (visit async_return init) = []
  /\ List.length
       (early_returns (all_decision_points (visit async_return init)))
     <> 1%nat
  /\ total_complexity (visit async_return init) = 1
  /\ metrics (visit async_return init) = []
  /\ all_decision_points (visit def_return init) = [mkPoint "return" 2]
  /\ map m_decision_points (metrics (visit def_return init))
     = [[mkPoint "return" 2]].
Proof. vm_compute. repeat split. discriminate. Qed.

End ComplexityFacts.

(** ** Properties of the hotspot and cluster analysis *)

Module ReportFacts.
Import Complexity Reports PyFacts.

Lemma tuple_leb_total (a b : Z * Z) :
  tuple_leb a b = true \/ tuple_leb b a = true.
Proof.
  unfold tuple_leb.
  destruct (Z.ltb_spec (fst a) (fst b)), (Z.ltb_spec (fst b) (fst a)),
    (Z.eqb_spec (fst a) (fst b)), (Z.eqb_spec (fst b) (fst a)),
    (Z.leb_spec (snd a) (snd b)), (Z.leb_spec (snd b) (snd a));
    simpl; auto; lia.
Qed.

Lemma tuple_leb_trans (a b c : Z * Z) :
  tuple_leb a b = true -> tuple_leb b c = true -> tuple_leb a c = true.
Proof.
  unfold tuple_leb.
  destruct (Z.ltb_spec (fst a) (fst b)), (Z.ltb_spec (fst b) (fst c)),
    (Z.ltb_spec (fst a) (fst c)),
    (Z.eqb_spec (fst a) (fst b)), (Z.eqb_spec (fst b) (fst c)),
    (Z.eqb_spec (fst a) (fst c)),
    (Z.leb_spec (snd a) (snd b)), (Z.leb_spec (snd b) (snd c)),
    (Z.leb_spec (snd a) (snd c));
    simpl; auto; lia.
Qed.

Lemma hotspot_leb_precedes (a b : Hotspot) :
  hotspot_leb a b = true -> precedes a b.
Proof.
  unfold hotspot_leb, tuple_leb, hotspot_key, precedes. simpl.
  destruct (Z.ltb_spec (- h_complexity a) (- h_complexity b)),
    (Z.eqb_spec (- h_complexity a) (- h_complexity b)),
    (Z.leb_spec (h_line_number a) (h_line_number b));
    simpl; intros; try discriminate; lia.
Qed.

(** Before the sort, the hotspots are the dicts of the metrics that pass
    the test, in the order of the metrics. *)
Lemma hotspots_unsorted self metrics :
  _identify_hotspots self metrics
  = sorted hotspot_leb
      (map (hotspot_of self) (filter (is_hotspot self) metrics)).
Proof.
  unfold _identify_hotspots. f_equal.
  exact (fold_left_append (is_hotspot self) (hotspot_of self) metrics []).
Qed.

(** Four metrics with the default thresholds: the one of complexity 3 is
    left out, 16 comes first, and of the two of complexity 12 the one on
    line 5. *)
Example hotspots_of_four_metrics :
  map (fun h => (h_name h, h_severity h))
    (_identify_hotspots default_analyzer
       [mkMetric "a" 12 10 "function" 1 [];
        mkMetric "b" 16 20 "function" 1 [];
        mkMetric "c" 12 5 "function" 1 [];
        mkMetric "d" 3 1 "function" 1 []])
  = [("b", "critical"); ("c", "warning"); ("a", "warning")].
Proof. reflexivity. Qed.

(** C4: the severity of a complexity is critical exactly from the critical
    threshold on, warning exactly from the warning threshold up to below
    the critical one, and normal otherwise; the hotspots are exactly the
    dicts of the metrics whose severity is not normal, ordered so that a
    higher complexity comes first and, at equal complexity, the smaller
    line number. *)
Theorem severity_and_hotspots (self : CyclomaticComplexityAnalyzer) :
  (forall complexity,
     (_determine_severity self complexity = "critical"
      <-> threshold_critical self <= complexity)
     /\ (_determine_severity self complexity = "warning"
         <-> threshold_warning self <= complexity < threshold_critical self)
     /\ (_determine_severity self complexity = "normal"
         <-> complexity < threshold_critical self
             /\ complexity < threshold_warning self))
  /\ (forall metrics,
        let hotspots := _identify_hotspots self metrics in
        Permutation hotspots
          (map (hotspot_of self) (filter (is_hotspot self) metrics))
        /\ (forall h,
              In h hotspots
              <-> exists m,
                    In m metrics
                    /\ _determine_severity self (m_complexity m) <> "normal"
                    /\ h = hotspot_of self m)
        /\ Forall (fun h => h_severity h = "critical"
                            \/ h_severity h = "warning") hotspots
        /\ StronglySorted precedes hotspots).
Proof.
  split.
  - intros complexity. unfold _determine_severity.
    rewrite !Z.geb_leb.
    destruct (Z.leb_spec (threshold_critical self) complexity),
      (Z.leb_spec (threshold_warning self) complexity);
      repeat split; intros; try discriminate; try lia.
  - intros metrics hotspots. subst hotspots. rewrite hotspots_unsorted.
    set (selected := map (hotspot_of self) (filter (is_hotspot self) metrics)).
    assert (Hperm : Permutation (sorted hotspot_leb selected) selected)
      by apply sorted_perm.
    assert (Hin : forall h,
              In h selected
              <-> exists m,
                    In m metrics
                    /\ _determine_severity self (m_complexity m) <> "normal"
                    /\ h = hotspot_of self m).
    { intros h. unfold selected. rewrite in_map_iff. split.
      - intros (m & <- & Hm). apply filter_In in Hm as [Hm Hs].
        exists m. repeat split; [exact Hm|].
        unfold is_hotspot in Hs. apply negb_true_iff in Hs.
        now apply String.eqb_neq in Hs.
      - intros (m & Hm & Hs & ->). exists m. split; [reflexivity|].
        apply filter_In. split; [exact Hm|].
        unfold is_hotspot. apply negb_true_iff. now apply String.eqb_neq. }
    repeat apply conj.
    + exact Hperm.
    + intros h. rewrite <- Hin. split; apply Permutation_in;
        [exact Hperm|now apply Permutation_sym].
    + apply Forall_forall. intros h Hh.
      apply (Permutation_in _ Hperm), Hin in Hh.
      destruct Hh as (m & _ & Hs & ->). simpl.
      unfold _determine_severity in *.
      destruct (m_complexity m >=? threshold_critical self); [now left|].
      destruct (m_complexity m >=? threshold_warning self); [now right|].
      congruence.
    + assert (Hs : StronglySorted (fun a b => hotspot_leb a b = true)
                     (sorted hotspot_leb selected)).
      { apply sorted_sorted.
        - intros a b. apply tuple_leb_total.
        - intros a b c. apply tuple_leb_trans. }
      eapply StronglySorted_impl; [|exact Hs].
      intros a b. apply hotspot_leb_precedes.
Qed.

(** C4, with the default thresholds: 15 is critical, 12 is a warning, 9 is
    normal. *)
Lemma severity_and_hotspots_witness :
  _determine_severity default_analyzer 15 = "critical"
  /\ _determine_severity default_analyzer 12 = "warning"
  /\ _determine_severity default_analyzer 9 = "normal".
Proof.
  destruct (severity_and_hotspots default_analyzer) as [H _].
  split; [|split].
  - apply (H 15). simpl. lia.
  - apply (H 12). simpl. lia.
  - apply (H 9). simpl. lia.
Defined.

(** *** Clusters *)

Lemma sorted_points_sorted (decision_points : list DecisionPoint) :
  StronglySorted le_line
    (sorted (fun x y => p_line x <=? p_line y) decision_points).
Proof.
  eapply StronglySorted_impl;
    [|apply (sorted_sorted (fun x y => p_line x <=? p_line y))].
  - intros a b H. now apply Z.leb_le in H.
  - intros a b. destruct (Z.leb_spec (p_line a) (p_line b)); [now left|].
    right. apply Z.leb_le. lia.
  - intros a b c H1 H2. apply Z.leb_le in H1, H2. apply Z.leb_le. lia.
Qed.

Lemma StronglySorted_app_r {A : Type} (R : A -> A -> Prop) (l1 l2 : list A) :
  StronglySorted R (l1 ++ l2) -> StronglySorted R l2.
Proof.
  induction l1 as [|x l1 IH]; simpl; [trivial|].
  intros H. apply StronglySorted_inv in H as [H _]. now apply IH.
Qed.

Lemma StronglySorted_app_pair {A : Type} (R : A -> A -> Prop)
    (l1 l2 : list A) (a b : A) :
  StronglySorted R (l1 ++ l2) -> In a l1 -> In b l2 -> R a b.
Proof.
  induction l1 as [|x l1 IH]; simpl; [contradiction|].
  intros H [->|Ha] Hb.
  - apply StronglySorted_inv in H as [_ H].
    rewrite Forall_forall in H. apply H, in_or_app. now right.
  - apply StronglySorted_inv in H as [H _]. now apply IH.
Qed.

Lemma StronglySorted_filter {A : Type} (R : A -> A -> Prop)
    (test : A -> bool) (l : list A) :
  StronglySorted R l -> StronglySorted R (filter test l).
Proof.
  induction 1 as [|x l _ IH Hx]; simpl; [constructor|].
  destruct (test x); [|exact IH].
  constructor; [exact IH|].
  rewrite Forall_forall in *. intros y Hy. apply Hx.
  now apply filter_In in Hy as [Hy _].
Qed.

Lemma StronglySorted_map {A B : Type} (R : B -> B -> Prop) (f : A -> B)
    (l : list A) :
  StronglySorted (fun a b => R (f a) (f b)) l -> StronglySorted R (map f l).
Proof.
  induction 1 as [|x l _ IH Hx]; simpl; constructor; [exact IH|].
  now apply Forall_map.
Qed.

Lemma last_cons {A : Type} (l : list A) (x y : A) :
  last (y :: l) x = last l y.
Proof.
  revert x y. induction l as [|z l IH]; intros x y; [reflexivity|].
  change (last (y :: z :: l) x) with (last (z :: l) x).
  now rewrite (IH x z), (IH y z).
Qed.

Lemma last_nonempty_In {A : Type} (l : list A) (d : A) :
  l <> [] -> In (last l d) l.
Proof.
  induction l as [|a l IH]; [congruence|]. intros _.
  destruct l as [|b l]; [now left|].
  right. apply IH. discriminate.
Qed.

Lemma last_In {A : Type} (l : list A) (x : A) : In (last l x) (x :: l).
Proof.
  destruct l as [|y l]; [now left|].
  right. apply last_nonempty_In. discriminate.
Qed.

(** [close_cluster] on the points of a run, and on no point. *)
Lemma close_cluster_run clusters x l :
  close_cluster clusters (x :: l)
  = Ok (clusters ++ map cluster_of (filter large [(x, l)])).
Proof.
  unfold close_cluster. cbn [filter]. unfold large.
  change (run_points (x, l)) with (x :: l).
  destruct (len (x :: l) >=? min_cluster_size); [reflexivity|].
  cbn [map]. now rewrite app_nil_r.
Qed.

Lemma close_cluster_nil clusters : close_cluster clusters [] = Ok clusters.
Proof. reflexivity. Qed.

(** The loop of [_find_decision_clusters], from a current cluster that is
    not empty, with the test that closes it: it emits the clusters of the
    large runs. *)
Lemma scan_runs rest : forall clusters x l,
  (st <- foldM cluster_step rest (clusters, x :: l) ;;
   let '(clusters, current_cluster) := st in
   close_cluster clusters current_cluster)
  = Ok (clusters ++ map cluster_of (filter large (runs_from x l rest))).
Proof.
  induction rest as [|p rest IH]; intros clusters x l.
  - cbn [foldM bind runs_from]. apply close_cluster_run.
  - cbn [foldM runs_from cluster_step extends_cluster].
    destruct (p_line p - p_line (last l x) <=? window_size).
    + cbn [bind]. change ((x :: l) ++ [p]) with (x :: (l ++ [p])).
      apply IH.
    + rewrite close_cluster_run. cbn [bind].
      rewrite IH. f_equal.
      change ((x, l) :: runs_from p [] rest)
        with ([(x, l)] ++ runs_from p [] rest).
      now rewrite filter_app, map_app, app_assoc.
Qed.

(** [_find_decision_clusters] gives the clusters of the large runs of the
    sorted points. *)
Lemma find_clusters_runs (decision_points : list DecisionPoint) :
  _find_decision_clusters decision_points
  = Ok (map cluster_of
          (filter large
             (runs (sorted (fun x y => p_line x <=? p_line y)
                      decision_points)))).
Proof.
  unfold _find_decision_clusters.
  destruct (sorted _ decision_points) as [|p rest].
  - reflexivity.
  - cbn [foldM cluster_step extends_cluster bind app runs].
    exact (scan_runs rest [] p []).
Qed.

Lemma runs_from_concat rest : forall x l,
  concat (map run_points (runs_from x l rest)) = x :: l ++ rest.
Proof.
  induction rest as [|p rest IH]; intros x l; cbn [runs_from].
  - cbn. now rewrite !app_nil_r.
  - destruct (p_line p - p_line (last l x) <=? window_size).
    + rewrite IH, <- app_assoc. reflexivity.
    + cbn [map concat run_points fst snd]. rewrite IH. reflexivity.
Qed.

Lemma runs_from_head rest : forall x l,
  exists l' rs, runs_from x l rest = (x, l') :: rs.
Proof.
  induction rest as [|p rest IH]; intros x l; cbn [runs_from].
  - now exists l, [].
  - destruct (p_line p - p_line (last l x) <=? window_size).
    + apply IH.
    + now exists l, (runs_from p [] rest).
Qed.

Lemma within_window_snoc l : forall x p,
  within_window (x :: l) ->
  0 <= p_line p - p_line (last l x) <= window_size ->
  within_window (x :: l ++ [p]).
Proof.
  induction l as [|y l IH]; intros x p Hw Hp.
  - cbn in *. tauto.
  - destruct Hw as [Hxy Hw]. split; [exact Hxy|].
    apply IH; [exact Hw|].
    now rewrite <- (last_cons l x y).
Qed.

Lemma runs_from_within rest : forall x l,
  StronglySorted le_line (x :: l ++ rest) ->
  within_window (x :: l) ->
  Forall (fun r => within_window (run_points r)) (runs_from x l rest).
Proof.
  induction rest as [|p rest IH]; intros x l Hs Hw; cbn [runs_from].
  - constructor; [exact Hw|constructor].
  - destruct (Z.leb_spec (p_line p - p_line (last l x)) window_size)
      as [Hle|Hgt].
    + apply IH.
      * now rewrite <- app_assoc.
      * apply within_window_snoc; [exact Hw|].
        assert (le_line (last l x) p).
        { apply (StronglySorted_app_pair le_line (x :: l) (p :: rest));
            [exact Hs|apply last_In|now left]. }
        unfold le_line in *. lia.
    + constructor; [exact Hw|].
      apply IH; [|exact I].
      apply (StronglySorted_app_r le_line (x :: l)). exact Hs.
Qed.

Lemma runs_from_separated rest : forall x l,
  separated (runs_from x l rest).
Proof.
  induction rest as [|p rest IH]; intros x l; cbn [runs_from].
  - exact I.
  - destruct (Z.leb_spec (p_line p - p_line (last l x)) window_size)
      as [Hle|Hgt].
    + apply IH.
    + specialize (IH p []).
      destruct (runs_from_head rest p []) as (l' & rs & E).
      rewrite E in *. split; [|exact IH].
      unfold run_start, run_end. cbn [fst snd]. exact Hgt.
Qed.

(** Separated runs of sorted points are in order, each one ending more than
    the window before every later one starts. *)
Lemma separated_ordered (rs : list run) :
  StronglySorted le_line (concat (map run_points rs)) ->
  separated rs ->
  StronglySorted (fun r1 r2 => run_end r1 + window_size < run_start r2) rs.
Proof.
  induction rs as [|r1 rs IH]; intros Hs Hsep; [constructor|].
  cbn [map concat] in Hs.
  assert (Hs' := StronglySorted_app_r le_line _ _ Hs).
  destruct rs as [|r2 rs].
  - constructor; constructor.
  - destruct Hsep as [Hgap Hsep].
    constructor; [now apply IH|].
    apply Forall_forall. intros r Hr.
    enough (run_start r2 <= run_start r) by lia.
    destruct Hr as [<-|Hr]; [lia|].
    cbn [map concat run_points] in Hs'.
    apply StronglySorted_inv in Hs' as [_ Hall].
    rewrite Forall_forall in Hall.
    apply (Hall (fst r)).
    apply in_or_app. right. apply in_concat.
    exists (run_points r). split; [now apply in_map|now left].
Qed.

(** Points on lines 1, 3, 2, 20, 21, 40, 46, 42 and 44: the first three and
    the last four make a cluster each. *)
Example clusters_of_nine_points :
  _find_decision_clusters
    (map (mkPoint "if") [1; 3; 2; 20; 21; 40; 46; 42; 44])
  = Ok [{| start_line := 1; end_line := 3; size := 3;
           types := ["if"; "if"; "if"] |};
        {| start_line := 40; end_line := 46; size := 4;
           types := ["if"; "if"; "if"; "if"] |}].
Proof. reflexivity. Qed.

(** C5: the clusters that [_find_decision_clusters] returns are the ones
    of the runs of at least three points, where the runs cut the points,
    sorted by line, into consecutive pieces: inside a run each point is at
    most five lines after the one before it, and each run after the first
    starts with a point more than five lines after the end of the run
    before it. So every cluster has size at least 3, and each cluster
    ends before the next one starts. *)
Theorem clusters_valid (decision_points : list DecisionPoint) :
  let sorted_points :=
    sorted (fun x y => p_line x <=? p_line y) decision_points in
  let all_runs := runs sorted_points in
  let clusters := map cluster_of (filter large all_runs) in
  _find_decision_clusters decision_points = Ok clusters
  /\ concat (map run_points all_runs) = sorted_points
  /\ Forall (fun r => within_window (run_points r)) all_runs
  /\ separated all_runs
  /\ Forall (fun c => min_cluster_size <= size c) clusters
  /\ StronglySorted (fun c1 c2 => end_line c1 < start_line c2) clusters.
Proof.
  intros sorted_points all_runs clusters.
  assert (Hsorted : StronglySorted le_line sorted_points)
    by apply sorted_points_sorted.
  assert (Hconcat : concat (map run_points all_runs) = sorted_points).
  { subst all_runs. destruct sorted_points as [|p rest]; [reflexivity|].
    apply (runs_from_concat rest p []). }
  assert (Hsep : separated all_runs).
  { subst all_runs. destruct sorted_points as [|p rest]; [exact I|].
    apply runs_from_separated. }
  repeat apply conj.
  - apply find_clusters_runs.
  - exact Hconcat.
  - subst all_runs. destruct sorted_points as [|p rest]; [constructor|].
    apply runs_from_within; [exact Hsorted|exact I].
  - exact Hsep.
  - subst clusters. apply Forall_map, Forall_forall. intros r Hr.
    apply filter_In in Hr as [_ Hr]. unfold large in Hr.
    rewrite Z.geb_leb in Hr. apply Z.leb_le in Hr. exact Hr.
  - subst clusters.
    apply StronglySorted_map, StronglySorted_filter.
    eapply StronglySorted_impl;
      [|apply separated_ordered; [rewrite Hconcat; exact Hsorted|exact Hsep]].
    intros r1 r2 H. cbn [cluster_of end_line start_line].
    unfold window_size in H. lia.
Qed.

End ReportFacts.

(** ** The complexity report as a whole *)

Module AnalyzerFacts.
Import Complexity Traversal Reports PyFacts ComplexityFacts ReportFacts.

Lemma truediv_ok (a b : Z) :
  b <> 0 -> truediv a b = Ok (Qmake a 1 / Qmake b 1)%Q.
Proof.
  intros H. unfold truediv. now destruct (Z.eqb_spec b 0).
Qed.

Lemma mapM_ok {A B : Type} (f : A -> result B) (l : list A) :
  (forall x, In x l -> exists y, f x = Ok y) ->
  exists ys, mapM f l = Ok ys /\ List.length ys = List.length l.
Proof.
  induction l as [|x l IH]; intros H.
  - now exists [].
  - destruct (H x (or_introl eq_refl)) as [y Hy].
    destruct IH as (ys & Hys & Hlen).
    { intros z Hz. apply H. now right. }
    exists (y :: ys). cbn [mapM]. rewrite Hy, Hys. cbn. now rewrite Hlen.
Qed.

Lemma foldM_ok {A S : Type} (f : S -> A -> result S) (l : list A) :
  (forall s x, exists s', f s x = Ok s') ->
  forall s, exists s', foldM f l s = Ok s'.
Proof.
  intros H. induction l as [|x l IH]; intros s.
  - now exists s.
  - destruct (H s x) as [s' Hs']. cbn [foldM]. rewrite Hs'. apply IH.
Qed.

(** [_calculate_average] never divides by zero. *)
Lemma calculate_average_ok (values : list Z) :
  exists q, _calculate_average values = Ok q.
Proof.
  destruct values as [|x l]; [now exists 0%Q|].
  unfold _calculate_average. rewrite truediv_ok; [eauto|].
  unfold len. cbn [List.length]. lia.
Qed.

(** [_generate_hotspot_recommendation] reads [decision_types[0]] only when
    the list is not empty. *)
Lemma hotspot_recommendation_ok (hotspot : Hotspot) :
  exists r, _generate_hotspot_recommendation hotspot = Ok r.
Proof.
  unfold _generate_hotspot_recommendation.
  destruct (map p_type (h_decision_points hotspot)) as [|t ts].
  - cbn. eauto.
  - destruct (len_set (t :: ts) =? 1); cbn [first bind]; eauto.
Qed.

Lemma generate_recommendations_ok self metrics hotspots :
  exists rs, _generate_recommendations self metrics hotspots = Ok rs.
Proof.
  unfold _generate_recommendations. apply foldM_ok.
  intros rs h. destruct (String.eqb (h_severity h) "critical"); [|eauto].
  destruct (hotspot_recommendation_ok h) as [r ->]. cbn. eauto.
Qed.

(** [_summarize_decision_points] never divides by zero: there is a type to
    give a percentage of only when there is a point. *)
Lemma summarize_ok (decision_points : list DecisionPoint) :
  exists summary,
    _summarize_decision_points decision_points = Ok summary
    /\ total_points summary = len decision_points
    /\ (decision_points = [] ->
        distributions summary = [] /\ clusters summary = []).
Proof.
  unfold _summarize_decision_points.
  set (type_counts := fold_left _ decision_points []).
  destruct (mapM_ok
              (fun tc : string * Z =>
                 let (t, c) := tc in
                 q <- truediv c (len decision_points) ;;
                 Ok (t, {| count := c;
                           percentage := (q * inject_Z 100)%Q |}))
              type_counts) as (ds & Hds & Hlen).
  { intros [t c] Hin. destruct decision_points as [|p ps].
    - destruct Hin.
    - rewrite truediv_ok; [cbn; eauto|].
      unfold len. cbn [List.length]. lia. }
  rewrite Hds, find_clusters_runs. cbn [bind].
  eexists. split; [reflexivity|]. cbn [total_points distributions clusters].
  split; [reflexivity|].
  intros ->. subst type_counts. cbn in Hlen.
  destruct ds; [|discriminate]. split; reflexivity.
Qed.

(** Once the traversal has completed, no division, index or key of the
    [try] block raises: [analyze_tree] returns a report, with the metrics
    of the visitor. *)
Lemma analyze_tree_ok (self : CyclomaticComplexityAnalyzer) (tree : node) :
  exists analysis,
    analyze_tree self tree = Ok analysis
    /\ overall_complexity (a_metrics analysis)
       = total_complexity (visit tree init)
    /\ total_decision_points (a_metrics analysis)
       = len (all_decision_points (visit tree init))
    /\ a_hotspots analysis
       = _identify_hotspots self (metrics (visit tree init))
    /\ a_details analysis
       = _generate_detailed_report self (metrics (visit tree init))
    /\ total_points (a_decision_point_summary analysis)
       = len (all_decision_points (visit tree init))
    /\ (all_decision_points (visit tree init) = [] ->
        distributions (a_decision_point_summary analysis) = []
        /\ clusters (a_decision_point_summary analysis) = [])
    /\ (metrics (visit tree init) = [] ->
        average_function_complexity (a_metrics analysis) = 0%Q
        /\ max_complexity (a_metrics analysis) = 0).
Proof.
  unfold analyze_tree.
  set (visitor := visit tree init).
  destruct (calculate_average_ok
              (map m_complexity
                 (filter (fun m => String.eqb (m_type m) "function")
                    (metrics visitor)))) as [average Haverage].
  assert (Hmax : exists maximum,
            match metrics visitor with
            | [] => Ok 0
            | _ :: _ => max (map m_complexity (metrics visitor))
            end = Ok maximum
            /\ (metrics visitor = [] -> maximum = 0)).
  { destruct (metrics visitor) as [|m ms]; [now exists 0|].
    cbn. eexists. split; [reflexivity|discriminate]. }
  destruct Hmax as (maximum & Hmax & Hmax0).
  rewrite Haverage, Hmax. cbn [bind].
  match goal with
  | |- context [_generate_recommendations self ?m ?h] =>
    destruct (generate_recommendations_ok self m h) as [rs ->]
  end.
  destruct (summarize_ok (all_decision_points visitor))
    as (summary & -> & Htotal & Hempty).
  cbn [bind]. eexists. split; [reflexivity|].
  cbn [a_metrics a_hotspots a_details a_decision_point_summary
       overall_complexity total_decision_points
       average_function_complexity max_complexity].
  repeat apply conj; try reflexivity; try assumption.
  intros Hnil. split; [|now apply Hmax0].
  rewrite Hnil in Haverage. cbn in Haverage. congruence.
Qed.

(** In the report, the overall complexity is one more than the number of
    decision points. *)
Lemma report_overall_complexity (self : CyclomaticComplexityAnalyzer)
    (tree : node) :
  exists analysis,
    analyze_tree self tree = Ok analysis
    /\ overall_complexity (a_metrics analysis)
       = 1 + total_decision_points (a_metrics analysis).
Proof.
  destruct (analyze_tree_ok self tree) as (analysis & Ha & Ho & Ht & _).
  exists analysis. split; [exact Ha|].
  rewrite Ho, Ht, visit_advance. reflexivity.
Qed.

(** A subtree without a function definition yields no metric. *)
Lemma no_function_no_metric n : forall depth b,
  has_function_def n = false -> function_metrics depth b n = [].
Proof.
  induction n as [k children IH] using Traversal.node_ind.
  intros depth b H. rewrite Forall_forall in IH.
  assert (Hc : existsb has_function_def children = false ->
               forall d, flat_map (function_metrics d b) children = []).
  { intros Hex d. apply flat_map_nil. intros c Hc. apply IH; [exact Hc|].
    destruct (has_function_def c) eqn:E; [|reflexivity].
    assert (existsb has_function_def children = true)
      by (apply existsb_exists; eauto).
    congruence. }
  destruct k; cbn in H |- *; try discriminate; now apply Hc.
Qed.

(** C10 (as the code has it): for a parseable input without a function
    definition, whose tree the visitor traverses within the interpreter's
    recursion limit, [analyze_code] returns a full report; the average
    function complexity is 0.0, the maximum complexity is 0, and there is
    neither a hotspot nor a detail entry. The summary is produced without a
    division by zero: [total_points] is the number of decision points of
    the unit (conditionals, loops, handlers and boolean operators at module
    level count), and it is 0, with empty distributions and no cluster,
    exactly when the unit has no such construct. When the tree is too deep
    for the recursion limit, [analyze_code] returns
    [{'error': 'Analysis failed'}] and no report. *)
Theorem report_without_functions (parse : string -> result node)
    (fits : node -> bool) (self : CyclomaticComplexityAnalyzer)
    (code : string) (tree : node) :
  parse code = Ok tree ->
  has_function_def tree = false ->
  (fits tree = true ->
   exists analysis,
     analyze_code parse fits self code = Report analysis
     /\ average_function_complexity (a_metrics analysis) = 0%Q
     /\ max_complexity (a_metrics analysis) = 0
     /\ a_hotspots analysis = []
     /\ a_details analysis = []
     /\ total_points (a_decision_point_summary analysis)
        = len (points false tree)
     /\ (points false tree = [] ->
         total_points (a_decision_point_summary analysis) = 0
         /\ distributions (a_decision_point_summary analysis) = []
         /\ clusters (a_decision_point_summary analysis) = [])
     /\ (points false tree <> [] ->
         0 < total_points (a_decision_point_summary analysis)))
  /\ (fits tree = false ->
      analyze_code parse fits self code = Error "Analysis failed").
Proof.
  intros Hparse Hdef.
  split;
    [intros Hfits
    |intros Hfits; unfold analyze_code; rewrite Hparse; cbn [bind];
     rewrite Hfits; reflexivity].
  destruct (analyze_tree_ok self tree)
    as (analysis & Ha & _ & _ & Hhot & Hdet & Htotal & Hempty & Hnone).
  assert (Hmetrics : metrics (visit tree init) = []).
  { rewrite visit_advance. cbn [advance metrics init app].
    now apply no_function_no_metric. }
  assert (Hpoints : all_decision_points (visit tree init)
                    = points false tree).
  { rewrite visit_advance. reflexivity. }
  exists analysis. unfold analyze_code. rewrite Hparse. cbn [bind].
  rewrite Hfits. cbn [within_recursion_limit bind].
  rewrite Ha. rewrite Hmetrics in *. rewrite Hpoints in *.
  destruct (Hnone eq_refl) as [Havg Hmax].
  repeat apply conj; try assumption; try reflexivity.
  - intros Hnil. rewrite Htotal, Hnil. split; [reflexivity|].
    now apply Hempty.
  - intros Hne. rewrite Htotal.
    destruct (points false tree); [congruence|].
    unfold len. cbn [List.length]. lia.
Qed.

(** C10: the unit [x = 1], the unit [if x: pass], and the unit
    [x.a.a...a] with 1000 attributes, for an interpreter with room for 400
    levels. *)
Lemma report_without_functions_witness :
  (exists analysis,
     analyze_code (fun _ => Ok assignment_only) (room_for 400)
       default_analyzer "x = 1"
     = Report analysis
     /\ average_function_complexity (a_metrics analysis) = 0%Q
     /\ max_complexity (a_metrics analysis) = 0
     /\ total_points (a_decision_point_summary analysis) = 0
     /\ distributions (a_decision_point_summary analysis) = [])
  /\ (exists analysis,
        analyze_code (fun _ => Ok module_level_if) (room_for 400)
          default_analyzer "if x: pass"
        = Report analysis
        /\ average_function_complexity (a_metrics analysis) = 0%Q
        /\ max_complexity (a_metrics analysis) = 0
        /\ 0 < total_points (a_decision_point_summary analysis))
  /\ analyze_code (fun _ => Ok (attribute_chain 1000)) (room_for 400)
       default_analyzer "x.a.a"
     = Error "Analysis failed".
Proof.
  split; [|split].
  - destruct (report_without_functions (fun _ => Ok assignment_only)
                (room_for 400) default_analyzer "x = 1" assignment_only
                eq_refl eq_refl) as [Hreport _].
    destruct (Hreport eq_refl)
      as (analysis & Ha & Havg & Hmax & _ & _ & _ & Hnil & _).
    destruct (Hnil eq_refl) as (Ht & Hd & _).
    exists analysis. repeat split; assumption.
  - destruct (report_without_functions (fun _ => Ok module_level_if)
                (room_for 400) default_analyzer "if x: pass"
                module_level_if eq_refl eq_refl) as [Hreport _].
    destruct (Hreport eq_refl)
      as (analysis & Ha & Havg & Hmax & _ & _ & _ & _ & Hsome).
    exists analysis. repeat split; try assumption.
    apply Hsome. discriminate.
  - apply (report_without_functions
             (fun _ => Ok (attribute_chain 1000)) (room_for 400)
             default_analyzer "x.a.a" (attribute_chain 1000) eq_refl).
    + vm_compute. reflexivity.
    + vm_compute. reflexivity.
Defined.

(** C10 as stated fails: the unit [if x: pass] has no function definition,
    and its summary has one point and a distribution for ['if']. *)
Lemma module_level_points_counterexample :
  has_function_def module_level_if = false
  /\ exists analysis,
       analyze_code (fun _ => Ok module_level_if) (room_for 400)
         default_analyzer "if x: pass"
       = Report analysis
       /\ total_points (a_decision_point_summary analysis) = 1
       /\ map fst (distributions (a_decision_point_summary analysis))
          = ["if"]
       /\ total_points (a_decision_point_summary analysis) <> 0
       /\ distributions (a_decision_point_summary analysis) <> [].
Proof.
  split; [reflexivity|].
  vm_compute. eexists. split; [reflexivity|].
  repeat split; discriminate.
Qed.

End AnalyzerFacts.

(** ** Properties of the pattern visitor *)

Module SafetyFacts.
Import Safety Detection.

Lemma nonempty_app (l1 l2 : list Z) :
  nonempty (l1 ++ l2) = nonempty l1 || nonempty l2.
Proof. destruct l1; reflexivity. Qed.

Lemma extend_nil self : extend self [] [] [] [] [] = self.
Proof.
  destruct self. unfold extend. cbn.
  now rewrite !orb_false_r, !app_nil_r.
Qed.

Lemma extend_extend self a b c d e a' b' c' d' e' :
  extend (extend self a b c d e) a' b' c' d' e'
  = extend self (a ++ a') (b ++ b') (c ++ c') (d ++ d') (e ++ e').
Proof.
  unfold extend. cbn. now rewrite !nonempty_app, !orb_assoc, !app_assoc.
Qed.

Ltac by_fields :=
  match goal with
  | self : CodeVisitor |- _ =>
    destruct self; unfold extend; cbn;
    rewrite ?orb_false_r, ?orb_true_r, ?app_nil_r; reflexivity
  end.

Lemma flag_credentials_extend lineno self :
  flag_credentials lineno self = extend self [lineno] [] [] [] [].
Proof. unfold flag_credentials. by_fields. Qed.

Lemma flag_deserialization_extend lineno self :
  flag_deserialization lineno self = extend self [] [lineno] [] [] [].
Proof. unfold flag_deserialization. by_fields. Qed.

Lemma flag_sql_extend lineno self :
  flag_sql lineno self = extend self [] [] [lineno] [] [].
Proof. unfold flag_sql. by_fields. Qed.

Lemma flag_debug_extend lineno self :
  flag_debug lineno self = extend self [] [] [] [lineno] [].
Proof. unfold flag_debug. by_fields. Qed.

Lemma flag_exception_extend lineno self :
  flag_exception lineno self = extend self [] [] [] [] [lineno].
Proof. unfold flag_exception. by_fields. Qed.

(** The checks that the methods make before [generic_visit]. *)
Lemma check_targets_extend lineno targets value self :
  check_targets lineno targets value self
  = extend self
      (map (fun _ => lineno) (filter (credential_target value) targets))
      [] [] [] [].
Proof.
  unfold check_targets. revert self.
  induction targets as [|target targets IH]; intros self; cbn [fold_left].
  - cbn. now rewrite extend_nil.
  - rewrite IH. cbn [filter]. unfold credential_target at 2.
    destruct target; cbn [andb]; try reflexivity.
    destruct (any _ _); cbn [andb]; [|reflexivity].
    destruct (isinstance_Str value || isinstance_Constant value);
      [|reflexivity].
    rewrite flag_credentials_extend, extend_extend. reflexivity.
Qed.

Lemma check_callee_extend lineno func args self :
  check_callee lineno func self
  = extend self [] (deserialization_hits (Call lineno func args)) []
      (debug_hits (Call lineno func args)) [].
Proof.
  unfold check_callee, deserialization_hits, debug_hits.
  destruct func; try (now rewrite extend_nil).
  destruct (in_list id ["pickle.loads"; "yaml.load"]),
    (in_list id ["print"; "logging.debug"]);
    rewrite ?flag_deserialization_extend, ?flag_debug_extend,
      ?extend_extend, ?extend_nil; reflexivity.
Qed.

Lemma check_binop_extend n self :
  check_binop n self = extend self [] [] (sql_hits n) [] [].
Proof.
  unfold check_binop, sql_hits.
  destruct n; try (now rewrite extend_nil).
  destruct op; [|now rewrite extend_nil].
  destruct (any isinstance_Str [n1; n2]); cbn [andb];
    [|now rewrite extend_nil].
  destruct (_is_sql_string _); [|now rewrite extend_nil].
  apply flag_sql_extend.
Qed.

Lemma check_handler_extend lineno type body self :
  check_handler lineno type self
  = extend self [] [] [] []
      (exception_hits (ExceptHandler lineno type body)).
Proof.
  unfold check_handler, exception_hits.
  destruct type as [t|]; [|apply flag_exception_extend].
  destruct t; try (now rewrite extend_nil).
  destruct (String.eqb id "Exception"); [apply flag_exception_extend|].
  now rewrite extend_nil.
Qed.

Lemma visit_all_follows children :
  Forall follows children ->
  forall self,
    fold_left (fun self c => visit c self) children self
    = extend self (flat_map (collect credential_hits) children)
        (flat_map (collect deserialization_hits) children)
        (flat_map (collect sql_hits) children)
        (flat_map (collect debug_hits) children)
        (flat_map (collect exception_hits) children).
Proof.
  induction 1 as [|c children Hc _ IH]; intros self; cbn [fold_left flat_map].
  - now rewrite extend_nil.
  - now rewrite Hc, IH, extend_extend.
Qed.

(** The whole effect of visiting a subtree. *)
Lemma visit_follows n : follows n.
Proof.
  induction n using node_ind; intros self.
  - (* Assign *)
    cbn [visit]. rewrite check_targets_extend.
    rewrite (visit_all_follows targets) by assumption.
    rewrite IHn, !extend_extend. reflexivity.
  - (* Call *)
    cbn [visit]. rewrite (check_callee_extend lineno n args).
    rewrite IHn. rewrite (visit_all_follows args) by assumption.
    rewrite !extend_extend. reflexivity.
  - (* BinOp *)
    cbn [visit]. rewrite check_binop_extend, IHn1, IHn2, !extend_extend.
    cbn [collect]. rewrite <- ?app_assoc. reflexivity.
  - (* ExceptHandler *)
    cbn [visit]. rewrite (check_handler_extend lineno type body).
    destruct type as [t|].
    + rewrite (H t eq_refl). rewrite (visit_all_follows body) by assumption.
      rewrite !extend_extend. reflexivity.
    + rewrite (visit_all_follows body) by assumption.
      rewrite !extend_extend. reflexivity.
  - cbn. now rewrite extend_nil.
  - cbn [visit]. rewrite IHn. reflexivity.
  - cbn. now rewrite extend_nil.
  - cbn [visit]. rewrite (visit_all_follows children) by assumption.
    reflexivity.
Qed.

Lemma visit_init (tree : node) :
  visit tree init
  = extend init (collect credential_hits tree)
      (collect deserialization_hits tree) (collect sql_hits tree)
      (collect debug_hits tree) (collect exception_hits tree).
Proof. apply visit_follows. Qed.

(** [_analyze_patterns] raises no [KeyError], and appends the findings of
    the flags that are set. *)
Lemma analyze_patterns_findings (visitor : CodeVisitor) :
  _analyze_patterns visitor [] = Ok (findings_of visitor).
Proof.
  unfold _analyze_patterns, findings_of, add_finding, found.
  destruct (has_hardcoded_credentials visitor),
    (has_unsafe_deserialization visitor), (has_sql_concatenation visitor),
    (has_unsafe_file_ops visitor), (has_debug_info visitor),
    (has_broad_exception_handling visitor); reflexivity.
Qed.

(** Once the traversals have completed, no key of the [try] block
    raises. *)
Lemma safety_analyze_tree_ok (tree : node) :
  analyze_tree tree
  = Ok {| findings := findings_of (visit tree init);
          metrics := _calculate_metrics tree;
          recommendations :=
            _generate_recommendations (findings_of (visit tree init))
              (_calculate_metrics tree) [] |}.
Proof.
  unfold analyze_tree. now rewrite analyze_patterns_findings.
Qed.

(** No method sets [has_unsafe_file_ops]. *)
Lemma file_ops_never_flagged (tree : node) :
  has_unsafe_file_ops (visit tree init) = false
  /\ file_op_locations (visit tree init) = [].
Proof. rewrite visit_init. split; reflexivity. Qed.

Lemma no_file_path_finding (tree : node) :
  Forall (fun f => pattern f <> file_path_manipulation)
    (findings_of (visit tree init)).
Proof.
  unfold findings_of.
  destruct (file_ops_never_flagged tree) as [-> _].
  repeat (apply Forall_app; split);
    unfold found;
    match goal with
    | |- Forall _ (if ?b then _ else _) =>
      destruct b; constructor; try constructor; cbn; discriminate
    | |- Forall _ [] => constructor
    end.
Qed.

(** C8 (as the code has it): for every tree the analysis returns its
    results, and no unsafe-file-path-handling finding is among them: the
    pattern is in the catalog and [_analyze_patterns] reports it when
    [has_unsafe_file_ops] is set, which no [visit_*] method does. *)
Theorem file_path_finding_never_produced (tree : node) :
  exists results,
    analyze_tree tree = Ok results
    /\ Forall (fun f => pattern f <> file_path_manipulation)
         (findings results)
    /\ has_unsafe_file_ops (visit tree init) = false.
Proof.
  eexists. split; [apply safety_analyze_tree_ok|]. cbn [findings]. split.
  - apply no_file_path_finding.
  - apply file_ops_never_flagged.
Qed.

(** C8 as stated fails: no input with a call that opens a concatenated
    path yields the finding; for the example of the source file,
    [open(user_input + ".txt", "r")], the findings are empty. *)
Lemma file_path_finding_counterexample :
  ~ (exists tree results,
       occurs opens_concatenated_path tree = true
       /\ analyze_tree tree = Ok results
       /\ Exists (fun f => pattern f = file_path_manipulation)
            (findings results))
  /\ occurs opens_concatenated_path open_concatenated = true
  /\ exists results,
       analyze_tree open_concatenated = Ok results
       /\ findings results = [].
Proof.
  split; [|split].
  - intros (tree & results & _ & Hr & Hex).
    rewrite safety_analyze_tree_ok in Hr. injection Hr as <-.
    cbn [findings] in Hex.
    apply Exists_exists in Hex as (f & Hf & Hp).
    pose proof (no_file_path_finding tree) as Hall.
    rewrite Forall_forall in Hall. exact (Hall f Hf Hp).
  - reflexivity.
  - eexists. split; [apply safety_analyze_tree_ok|]. reflexivity.
Qed.

(** The hits of a subtree are the hits of its nodes. *)
Lemma collect_walk hits n : collect hits n = flat_map hits (walk n).
Proof.
  assert (Hall : forall l,
            Forall (fun c => collect hits c = flat_map hits (walk c)) l ->
            flat_map (collect hits) l = flat_map hits (flat_map walk l)).
  { induction 1 as [|c l Hc _ IH]; [reflexivity|].
    cbn [flat_map]. now rewrite flat_map_app, Hc, IH. }
  induction n using node_ind; cbn [collect walk flat_map];
    rewrite ?flat_map_app, ?app_nil_r; f_equal.
  - now rewrite (Hall targets), IHn.
  - now rewrite (Hall args), IHn.
  - now rewrite IHn1, IHn2.
  - destruct type as [t|].
    + now rewrite (H t eq_refl), (Hall body).
    + now rewrite (Hall body).
  - exact IHn.
  - now apply Hall.
Qed.

(** On every tree, an assignment of a string literal to a name that, in
    lower case, contains one of the four words gives a
    hardcoded-credentials finding with the line of the assignment. *)
Lemma string_credentials_flagged tree lineno targets id s :
  In (Assign lineno targets (Constant (VStr s))) (walk tree) ->
  In (Name id) targets ->
  any (fun cred => contains cred (lower id))
    ["password"; "secret"; "key"; "token"] = true ->
  exists results f,
    analyze_tree tree = Ok results
    /\ In f (findings results)
    /\ pattern f = hardcoded_credentials
    /\ In lineno (locations f).
Proof.
  intros Hnode Htarget Hname.
  assert (Hin : In lineno (collect credential_hits tree)).
  { rewrite collect_walk. apply in_flat_map.
    exists (Assign lineno targets (Constant (VStr s))).
    split; [exact Hnode|]. cbn [credential_hits].
    apply in_map_iff. exists (Name id). split; [reflexivity|].
    apply filter_In. split; [exact Htarget|].
    cbn [credential_target]. now rewrite Hname. }
  eexists.
  exists {| pattern := hardcoded_credentials;
            locations := collect credential_hits tree |}.
  split; [apply safety_analyze_tree_ok|].
  cbn [findings]. rewrite visit_init. unfold findings_of.
  cbn [extend has_hardcoded_credentials credential_locations init orb app].
  destruct (collect credential_hits tree) as [|x l] eqn:E; [destruct Hin|].
  cbn [nonempty found app]. split; [left; reflexivity|].
  split; [reflexivity|exact Hin].
Qed.

(** A line is flagged only for an assignment whose value is an
    [ast.Constant], of any type. *)
Lemma flagged_credentials_are_constants tree lineno :
  In lineno (credential_locations (visit tree init)) ->
  exists targets value target,
    In (Assign lineno targets value) (walk tree)
    /\ In target targets
    /\ credential_target value target = true
    /\ isinstance_Constant value = true.
Proof.
  rewrite visit_init. cbn [extend credential_locations init app].
  rewrite collect_walk. intros H.
  apply in_flat_map in H as (n & Hn & H).
  destruct n; try destruct H.
  cbn [credential_hits] in H.
  apply in_map_iff in H as (target & <- & H).
  apply filter_In in H as [Ht Hc].
  exists targets, n, target. repeat split; try assumption.
  unfold credential_target in Hc. destruct target; try discriminate.
  apply andb_true_iff in Hc as [_ Hc].
  destruct n; try discriminate. reflexivity.
Qed.

(** The two names of the list of [visit_Call] have a dot, which no
    identifier has: a tree whose [Name] nodes hold identifiers gives no
    unsafe-deserialization hit. *)
Lemma identifier_callee_never_deserialization tree :
  occurs dotted_name tree = false ->
  deserialization_locations (visit tree init) = []
  /\ has_unsafe_deserialization (visit tree init) = false.
Proof.
  intros H.
  enough (E : collect deserialization_hits tree = []).
  { rewrite visit_init. cbn [extend deserialization_locations
      has_unsafe_deserialization init app orb]. now rewrite E. }
  revert H.
  assert (Hall : forall l,
            Forall (fun c => occurs dotted_name c = false ->
                             collect deserialization_hits c = []) l ->
            existsb (occurs dotted_name) l = false ->
            flat_map (collect deserialization_hits) l = []).
  { induction 1 as [|c l Hc _ IH]; [reflexivity|].
    cbn [existsb flat_map]. intros H.
    apply orb_false_iff in H as [H1 H2]. now rewrite Hc, IH. }
  induction tree using node_ind; cbn [occurs collect]; intros Hocc;
    repeat match goal with
           | H : _ || _ = false |- _ => apply orb_false_iff in H as [? ?]
           end.
  - rewrite (Hall targets), IHtree by assumption. reflexivity.
  - rewrite (Hall args), IHtree by assumption. rewrite !app_nil_r.
    destruct tree; try reflexivity.
    cbn [deserialization_hits].
    destruct (in_list id ["pickle.loads"; "yaml.load"]) eqn:E;
      [|reflexivity].
    exfalso. cbn [occurs dotted_name] in *.
    unfold in_list in E. cbn [existsb] in E.
    repeat match goal with
           | H : _ || _ = false |- _ => apply orb_false_iff in H as [? ?]
           end.
    destruct (String.eqb_spec id "pickle.loads") as [->|_];
      [discriminate|].
    destruct (String.eqb_spec id "yaml.load") as [->|_];
      [discriminate|].
    discriminate.
  - rewrite IHtree1, IHtree2 by assumption. reflexivity.
  - rewrite (Hall body) by assumption.
    destruct type as [t|].
    + rewrite (H t eq_refl) by assumption. reflexivity.
    + reflexivity.
  - reflexivity.
  - rewrite IHtree by assumption. reflexivity.
  - reflexivity.
  - rewrite (Hall children) by assumption. reflexivity.
Qed.

(** [api_key = "1234secret"] is reported on its line. *)
Example string_credential_found :
  exists results,
    analyze_tree string_credential = Ok results
    /\ findings results
       = [{| pattern := hardcoded_credentials; locations := [1] |}].
Proof. eexists. split; [apply safety_analyze_tree_ok|]. reflexivity. Qed.

(** C6 at [token = None]: the assignment is flagged, its value being an
    [ast.Constant]. *)
Theorem none_token_flagged :
  exists results,
    analyze_tree none_token = Ok results
    /\ findings results
       = [{| pattern := hardcoded_credentials; locations := [1] |}].
Proof. eexists. split; [apply safety_analyze_tree_ok|]. reflexivity. Qed.

(** The same happens at [api_key = 42]. *)
Lemma numeric_credential_flagged :
  exists results,
    analyze_tree numeric_credential = Ok results
    /\ findings results
       = [{| pattern := hardcoded_credentials; locations := [1] |}].
Proof. eexists. split; [apply safety_analyze_tree_ok|]. reflexivity. Qed.

(** C7 at [pickle.loads(data)] and at [yaml.load(text)]: the callee is an
    [ast.Attribute], not an [ast.Name], and nothing is found. *)
Theorem dotted_callee_not_found :
  (exists results,
     analyze_tree pickle_call = Ok results /\ findings results = [])
  /\ (exists results,
        analyze_tree yaml_call = Ok results /\ findings results = []).
Proof.
  split; (eexists; split; [apply safety_analyze_tree_ok|reflexivity]).
Qed.

End SafetyFacts.

(** ** The error results of both analyzers *)

Module ErrorFacts.

(** C3 (as the code has it): when [ast.parse] raises [SyntaxError] each
    analyzer returns exactly the dict [{'error': 'Invalid Python syntax'}];
    when it raises any other exception, and when it returns a tree that is
    too deep for the recursion limit, so that the traversal raises
    [RecursionError], each analyzer returns exactly
    [{'error': 'Analysis failed'}]. *)
Theorem error_results
    (parse_complexity : string -> result Complexity.node)
    (fits_complexity : Complexity.node -> bool)
    (parse_safety : string -> result Safety.node)
    (fits_safety : Safety.node -> bool)
    (self : Complexity.CyclomaticComplexityAnalyzer) (code : string) :
  (parse_complexity code = Raise SyntaxError ->
   Complexity.analyze_code parse_complexity fits_complexity self code
   = Complexity.Error "Invalid Python syntax")
  /\ (parse_safety code = Raise SyntaxError ->
      Safety.analyze_code parse_safety fits_safety code
      = Safety.Error "Invalid Python syntax")
  /\ (parse_complexity code = Raise OtherException ->
      Complexity.analyze_code parse_complexity fits_complexity self code
      = Complexity.Error "Analysis failed")
  /\ (parse_safety code = Raise OtherException ->
      Safety.analyze_code parse_safety fits_safety code
      = Safety.Error "Analysis failed")
  /\ (forall tree,
        parse_complexity code = Ok tree ->
        fits_complexity tree = false ->
        Complexity.analyze_code parse_complexity fits_complexity self code
        = Complexity.Error "Analysis failed")
  /\ (forall tree,
        parse_safety code = Ok tree ->
        fits_safety tree = false ->
        Safety.analyze_code parse_safety fits_safety code
        = Safety.Error "Analysis failed").
Proof.
  unfold Complexity.analyze_code, Safety.analyze_code.
  repeat apply conj.
  - intros ->. reflexivity.
  - intros ->. reflexivity.
  - intros ->. reflexivity.
  - intros ->. reflexivity.
  - intros tree -> Hfits. cbn [bind]. rewrite Hfits. reflexivity.
  - intros tree -> Hfits. cbn [bind]. rewrite Hfits. reflexivity.
Qed.

(** C3: a front end that rejects [def f(:], one that fails on it in
    another way, and the unit [x.a.a...a] with 1000 attributes for an
    interpreter with room for 400 levels. *)
Lemma error_results_witness :
  Complexity.analyze_code (fun _ => Raise SyntaxError)
    (Traversal.room_for 400) Complexity.default_analyzer "def f(:"
  = Complexity.Error "Invalid Python syntax"
  /\ Safety.analyze_code (fun _ => Raise SyntaxError)
       (Detection.room_for 400) "def f(:"
     = Safety.Error "Invalid Python syntax"
  /\ Complexity.analyze_code (fun _ => Raise OtherException)
       (Traversal.room_for 400) Complexity.default_analyzer "def f(:"
     = Complexity.Error "Analysis failed"
  /\ Safety.analyze_code (fun _ => Raise OtherException)
       (Detection.room_for 400) "def f(:"
     = Safety.Error "Analysis failed"
  /\ Complexity.analyze_code (fun _ => Ok (Traversal.attribute_chain 1000))
       (Traversal.room_for 400) Complexity.default_analyzer "x.a.a"
     = Complexity.Error "Analysis failed"
  /\ Safety.analyze_code (fun _ => Ok (Detection.attribute_chain 1000))
       (Detection.room_for 400) "x.a.a"
     = Safety.Error "Analysis failed".
Proof.
  destruct (error_results (fun _ => Raise SyntaxError)
              (Traversal.room_for 400) (fun _ => Raise SyntaxError)
              (Detection.room_for 400) Complexity.default_analyzer
              "def f(:") as (H1 & H2 & _).
  destruct (error_results (fun _ => Raise OtherException)
              (Traversal.room_for 400) (fun _ => Raise OtherException)
              (Detection.room_for 400) Complexity.default_analyzer
              "def f(:") as (_ & _ & H3 & H4 & _).
  destruct (error_results (fun _ => Ok (Traversal.attribute_chain 1000))
              (Traversal.room_for 400)
              (fun _ => Ok (Detection.attribute_chain 1000))
              (Detection.room_for 400) Complexity.default_analyzer
              "x.a.a") as (_ & _ & _ & _ & H5 & H6).
  repeat apply conj.
  - apply H1. reflexivity.
  - apply H2. reflexivity.
  - apply H3. reflexivity.
  - apply H4. reflexivity.
  - apply (H5 (Traversal.attribute_chain 1000) eq_refl).
    vm_compute. reflexivity.
  - apply (H6 (Detection.attribute_chain 1000) eq_refl).
    vm_compute. reflexivity.
Defined.

(** C3 as stated fails: on [def f(:] the message is not
    ['Invalid syntax']. *)
Lemma invalid_syntax_message_counterexample :
  Complexity.analyze_code (fun _ => Raise SyntaxError)
    (Traversal.room_for 400) Complexity.default_analyzer "def f(:"
  <> Complexity.Error "Invalid syntax"
  /\ Safety.analyze_code (fun _ => Raise SyntaxError)
       (Detection.room_for 400) "def f(:"
     <> Safety.Error "Invalid syntax".
Proof. split; discriminate. Qed.

End ErrorFacts.

(** ** Further properties of the complexity visitor *)

Module VisitorExtras.
Import Complexity Traversal Census ComplexityFacts.

(** X1: visiting any subtree from any state leaves the context as it found
    it: the current function, the current class and the nesting depth are
    restored, and the three lists only grow at their end. *)
Theorem visit_restores_context (n : node) (self : ComplexityVisitor) :
  current_function (visit n self) = current_function self
  /\ current_class (visit n self) = current_class self
  /\ nested_depth (visit n self) = nested_depth self
  /\ (exists ms, metrics (visit n self) = metrics self ++ ms)
  /\ (exists ps,
        all_decision_points (visit n self) = all_decision_points self ++ ps
        /\ total_complexity (visit n self) = total_complexity self + len ps)
  /\ (exists own,
        current_decision_points (visit n self)
        = current_decision_points self ++ own).
Proof.
  rewrite visit_advance. unfold advance.
  cbn [current_function current_class nested_depth metrics
       all_decision_points total_complexity current_decision_points].
  repeat split; eauto.
Qed.

Lemma len_flat_map_In {A B : Type} (f : A -> list B) (l : list A) (x : A) :
  In x l -> len (f x) <= len (flat_map f l).
Proof.
  induction l as [|y l IH]; [intros []|].
  cbn [flat_map]. rewrite len_app. intros [->|H].
  - pose proof (len_nonneg (flat_map f l)). lia.
  - pose proof (len_nonneg (f y)). specialize (IH H). lia.
Qed.

Lemma function_metrics_well_formed n : forall depth b,
  Forall (fun m => m_type m = "function"
                   /\ 1 <= m_complexity m
                   /\ depth + 1 <= m_nested_depth m
                   /\ m_complexity m <= 1 + len (points b n))
    (function_metrics depth b n).
Proof.
  induction n as [k children IH] using node_ind. intros depth b.
  rewrite Forall_forall in IH.
  assert (Hc : forall d b' extra,
            0 <= extra -> depth <= d ->
            Forall (fun m => m_type m = "function"
                             /\ 1 <= m_complexity m
                             /\ depth + 1 <= m_nested_depth m
                             /\ m_complexity m
                                <= 1 + (extra
                                        + len (flat_map (points b')
                                                 children)))
              (flat_map (function_metrics d b') children)).
  { intros d b' extra Hextra Hd. apply Forall_flat_map, Forall_forall.
    intros c Hin. eapply Forall_impl; [|apply (IH c Hin d b')].
    intros m (Ht & H1 & Hn & Hle).
    pose proof (len_flat_map_In (points b') children c Hin).
    repeat split; try assumption; lia. }
  destruct k; cbn [function_metrics points node_points inside];
    rewrite ?len_app;
    try (apply Hc; unfold len; cbn [List.length]; lia).
  (* FunctionDef *)
  apply Forall_app. split.
  - cbn [app]. eapply Forall_impl; [|apply (Hc (depth + 1) _ 0); lia].
    intros m (Ht & H1 & Hn & Hle). repeat split; try assumption; lia.
  - constructor; [|constructor].
    cbn [m_type m_complexity m_nested_depth app].
    pose proof (len_nonneg (flat_map (points (truthy_str name)) children)).
    change (len (@nil DecisionPoint)) with 0.
    repeat split; lia.
Qed.

Lemma metrics_invariants (tree : node) :
  Forall (fun m => m_type m = "function"
                   /\ 1 <= m_complexity m
                   /\ m_complexity m <= total_complexity (visit tree init)
                   /\ 1 <= m_nested_depth m)
    (metrics (visit tree init)).
Proof.
  rewrite visit_advance.
  cbn [advance metrics total_complexity init app in_function
       current_function nested_depth truthy].
  eapply Forall_impl; [|apply (function_metrics_well_formed tree 0 false)].
  intros m (Ht & H1 & Hn & Hle). repeat split; try assumption; lia.
Qed.

(** X2: every metric of a unit has type ['function'] (a class gets none),
    a complexity of at least 1 and at most the overall complexity, and a
    nesting depth of at least 1; the entries of the detailed report have
    the same bounds against the overall complexity of the report. *)
Theorem metrics_well_formed (self : CyclomaticComplexityAnalyzer)
    (tree : node) :
  Forall (fun m => m_type m = "function"
                   /\ 1 <= m_complexity m
                   /\ m_complexity m <= total_complexity (visit tree init)
                   /\ 1 <= m_nested_depth m)
    (metrics (visit tree init))
  /\ exists analysis,
       analyze_tree self tree = Ok analysis
       /\ Forall (fun d => d_type d = "function"
                           /\ 1 <= d_complexity d
                           /\ d_complexity d
                              <= overall_complexity (a_metrics analysis)
                           /\ 1 <= d_nested_depth d)
            (a_details analysis).
Proof.
  split; [apply metrics_invariants|].
  destruct (AnalyzerFacts.analyze_tree_ok self tree)
    as (analysis & Ha & Ho & _ & _ & Hd & _).
  exists analysis. split; [exact Ha|].
  rewrite Hd, Ho. unfold _generate_detailed_report.
  apply Forall_map. eapply Forall_impl; [|apply metrics_invariants].
  intros m H. exact H.
Qed.

Lemma map_flat_map_Forall {A B C : Type} (f : B -> C) (g : A -> list B)
    (h : A -> list C) (l : list A) :
  Forall (fun x => map f (g x) = h x) l ->
  map f (flat_map g l) = flat_map h l.
Proof.
  induction 1 as [|x l Hx _ IH]; [reflexivity|].
  cbn [flat_map]. now rewrite map_app, Hx, IH.
Qed.

Lemma function_metrics_names n : forall depth b,
  map m_name (function_metrics depth b n) = def_names n.
Proof.
  induction n as [k children IH] using node_ind. intros depth b.
  assert (Hc : forall d b',
            map m_name (flat_map (function_metrics d b') children)
            = flat_map def_names children).
  { intros d b'. apply map_flat_map_Forall.
    eapply Forall_impl; [|exact IH]. intros c Hc. apply Hc. }
  destruct k; cbn [function_metrics def_names];
    rewrite ?map_app, ?app_nil_r, Hc; reflexivity.
Qed.

Lemma metrics_names (tree : node) :
  map m_name (metrics (visit tree init)) = def_names tree.
Proof.
  rewrite visit_advance. cbn [advance metrics init app].
  apply function_metrics_names.
Qed.

(** X3: a unit has one metric for each [def] statement, that is for each
    node of class [ast.FunctionDef], the ones of the definitions nested in
    a function before the one of the function itself. A class definition
    gives none, and neither does a node of a class without a [visit_*]
    method, such as [async def] and [lambda]: the metrics of such a node
    are those of the [def] statements below it. *)
Theorem one_metric_per_function (tree : node) :
  map m_name (metrics (visit tree init)) = def_names tree
  /\ List.length (metrics (visit tree init))
     = List.length (def_names tree)
  /\ map m_name (metrics (visit (Node (ClassDef "C") [tree]) init))
     = def_names tree
  /\ (forall children,
        metrics (visit (Node Other children) init)
        = flat_map (fun child => metrics (visit child init)) children).
Proof.
  pose proof (metrics_names tree) as H.
  split; [exact H|]. split; [|split].
  - now rewrite <- H, length_map.
  - rewrite metrics_names. cbn [def_names flat_map].
    now rewrite !app_nil_r.
  - intros children. rewrite visit_advance.
    cbn [advance metrics init app in_function current_function
         nested_depth truthy function_metrics].
    apply flat_map_ext. intros child. now rewrite visit_advance.
Qed.

(** X4: the analysis of a sequence of statements is the one of its parts:
    the decision points of two bodies put one after the other are those of
    the first followed by those of the second, the metrics as well, and
    the complexities above 1 add up. *)
Theorem visit_sequence (body1 body2 : list node) :
  let whole := visit (Node Other (body1 ++ body2)) init in
  let part1 := visit (Node Other body1) init in
  let part2 := visit (Node Other body2) init in
  all_decision_points whole
  = all_decision_points part1 ++ all_decision_points part2
  /\ metrics whole = metrics part1 ++ metrics part2
  /\ total_complexity whole - 1
     = (total_complexity part1 - 1) + (total_complexity part2 - 1).
Proof.
  intros whole part1 part2. subst whole part1 part2.
  rewrite !visit_advance.
  cbn [advance all_decision_points metrics total_complexity init app
       in_function current_function nested_depth truthy
       points function_metrics node_points inside].
  rewrite !flat_map_app, len_app. repeat split. lia.
Qed.

Lemma points_known n : forall b,
  Forall (fun p => In (p_type p) known_types) (points b n).
Proof.
  induction n as [k children IH] using node_ind. intros b.
  cbn [points]. apply Forall_app. split.
  - assert (H1 : forall t lineno,
              In t known_types ->
              Forall (fun p => In (p_type p) known_types)
                [mkPoint t lineno]).
    { intros t lineno H. constructor; [exact H|constructor]. }
    destruct k; cbn [node_points]; try destruct b;
      try apply Forall_nil; apply H1; cbn; tauto.
  - apply Forall_flat_map. eapply Forall_impl; [|exact IH].
    intros c Hc. apply Hc.
Qed.

Lemma len_set_bound (l known : list string) :
  NoDup known -> Forall (fun t => In t known) l ->
  len_set l <= len known /\ len_set l <= len l.
Proof.
  intros Hnd Hall. unfold len_set, len. split.
  - apply inj_le, NoDup_incl_length; [apply NoDup_nodup|].
    intros t Ht. apply nodup_In in Ht.
    rewrite Forall_forall in Hall. now apply Hall.
  - apply inj_le. clear. induction l as [|x l IH]; [cbn; lia|].
    cbn [nodup]. destruct (in_dec string_dec x l); cbn [List.length]; lia.
Qed.

(** X5: every decision point of a unit has one of the five types, so the
    report counts at most five unique decision types, and no more than
    there are decision points. *)
Theorem decision_types_known (self : CyclomaticComplexityAnalyzer)
    (tree : node) :
  Forall (fun p => In (p_type p) known_types)
    (all_decision_points (visit tree init))
  /\ exists analysis,
       analyze_tree self tree = Ok analysis
       /\ unique_decision_types (a_metrics analysis) <= 5
       /\ unique_decision_types (a_metrics analysis)
          <= total_decision_points (a_metrics analysis).
Proof.
  assert (Hk : Forall (fun p => In (p_type p) known_types)
                 (all_decision_points (visit tree init))).
  { rewrite visit_advance. cbn [advance all_decision_points init app].
    apply points_known. }
  split; [exact Hk|].
  destruct (AnalyzerFacts.analyze_tree_ok self tree)
    as (analysis & Ha & _ & Ht & _).
  exists analysis. split; [exact Ha|].
  assert (Hu : unique_decision_types (a_metrics analysis)
               = len_set (map p_type (all_decision_points (visit tree init)))).
  { unfold analyze_tree in Ha.
    repeat match type of Ha with
           | bind ?m _ = Ok _ => destruct m; cbn [bind] in Ha;
                                 [|discriminate]
           end.
    injection Ha as <-. reflexivity. }
  rewrite Hu, Ht.
  destruct (len_set_bound
              (map p_type (all_decision_points (visit tree init)))
              known_types) as [H5 Hl].
  - repeat constructor; cbn; intuition discriminate.
  - apply Forall_map. exact Hk.
  - split; [exact H5|]. unfold len in *. now rewrite length_map in Hl.
Qed.

Lemma Zsum_app (l1 l2 : list Z) : Zsum (l1 ++ l2) = Zsum l1 + Zsum l2.
Proof.
  unfold Zsum. induction l1 as [|x l1 IH]; cbn [app fold_right]; lia.
Qed.

Lemma points_partition n : forall depth b,
  len (points b n)
  = len (own_points b n)
    + Zsum (map (fun m => len (m_decision_points m))
              (function_metrics depth b n)).
Proof.
  induction n as [k children IH] using node_ind. intros depth b.
  assert (Hc : forall d b',
            len (flat_map (points b') children)
            = len (flat_map (own_points b') children)
              + Zsum (map (fun m => len (m_decision_points m))
                        (flat_map (function_metrics d b') children))).
  { intros d b'. induction IH as [|c l Hc _ IHl].
    - reflexivity.
    - cbn [flat_map]. rewrite !len_app, map_app, Zsum_app, (Hc d b'), IHl.
      lia. }
  destruct k;
    cbn [points own_points function_metrics node_points inside];
    rewrite ?len_app, ?map_app, ?Zsum_app;
    try (rewrite (Hc depth b); lia).
  - (* FunctionDef *)
    rewrite (Hc (depth + 1) (truthy_str name)).
    cbn [map m_decision_points Zsum fold_right]. lia.
  - (* ClassDef *)
    rewrite (Hc (depth + 1) b). lia.
Qed.

(** X22: every decision point of a unit is recorded against exactly one
    context: the number of all the decision points is the number of those
    left in the list of the module level plus the numbers of decision
    points of all the metrics. *)
Theorem decision_points_partition (tree : node) :
  len (all_decision_points (visit tree init))
  = len (current_decision_points (visit tree init))
    + Zsum (map (fun m => len (m_decision_points m))
              (metrics (visit tree init))).
Proof.
  rewrite visit_advance.
  cbn [advance all_decision_points current_decision_points metrics init
       app].
  apply points_partition.
Qed.

End VisitorExtras.

(** ** Further properties of the complexity report *)

Module ReportExtras.
Import Complexity Traversal Reports Census PyFacts ComplexityFacts.
Import ReportFacts AnalyzerFacts VisitorExtras.

Lemma own_points_known n : forall b,
  Forall (fun p => In (p_type p) known_types) (own_points b n).
Proof.
  induction n as [k children IH] using node_ind. intros b.
  assert (Hc : Forall (fun p => In (p_type p) known_types)
                 (flat_map (own_points b) children)).
  { apply Forall_flat_map. eapply Forall_impl; [|exact IH].
    intros c Hc. apply Hc. }
  assert (Hk : Forall (fun p => In (p_type p) known_types)
                 (node_points b k)).
  { pose proof (points_known (Node k []) b) as H.
    cbn [points flat_map] in H. now rewrite app_nil_r in H. }
  destruct k; cbn [own_points]; try apply Forall_nil;
    apply Forall_app; split; assumption.
Qed.

Lemma function_metrics_points_known n : forall depth b,
  Forall (fun m => Forall (fun p => In (p_type p) known_types)
                     (m_decision_points m))
    (function_metrics depth b n).
Proof.
  induction n as [k children IH] using node_ind. intros depth b.
  assert (Hc : forall d b',
            Forall (fun m => Forall (fun p => In (p_type p) known_types)
                               (m_decision_points m))
              (flat_map (function_metrics d b') children)).
  { intros d b'. apply Forall_flat_map. eapply Forall_impl; [|exact IH].
    intros c Hc. apply Hc. }
  destruct k; cbn [function_metrics]; try apply Hc.
  apply Forall_app. split; [apply Hc|].
  constructor; [|constructor]. cbn [m_decision_points].
  apply Forall_flat_map, Forall_forall. intros c _. apply own_points_known.
Qed.

Lemma known_type_description (p : DecisionPoint) :
  In (p_type p) known_types ->
  In (_get_decision_description p) known_descriptions.
Proof.
  unfold _get_decision_description. destruct p as [t lineno]. cbn [p_type].
  intros [<-|[<-|[<-|[<-|[<-|[]]]]]]; cbn; tauto.
Qed.

(** X6: the detailed report has one entry for each function, in the order
    of the metrics, with its name, line and complexity, and every decision
    point in it has one of the five descriptions: the default, ['Unknown
    decision point'], never shows. *)
Theorem details_follow_metrics (self : CyclomaticComplexityAnalyzer)
    (tree : node) :
  exists analysis,
    analyze_tree self tree = Ok analysis
    /\ a_details analysis = map (detail_of self) (metrics (visit tree init))
    /\ map d_name (a_details analysis) = def_names tree
    /\ Forall (fun d =>
                 Forall (fun fp =>
                           In (f_description fp) known_descriptions
                           /\ f_description fp <> "Unknown decision point")
                   (d_decision_points d))
         (a_details analysis).
Proof.
  destruct (analyze_tree_ok self tree)
    as (analysis & Ha & _ & _ & _ & Hd & _).
  exists analysis. split; [exact Ha|].
  assert (Hmap : a_details analysis
                 = map (detail_of self) (metrics (visit tree init)))
    by exact Hd.
  split; [exact Hmap|]. rewrite Hmap. split.
  - rewrite map_map. cbn [detail_of d_name].
    apply metrics_names.
  - apply Forall_map.
    assert (Hk : Forall (fun m => Forall (fun p => In (p_type p) known_types)
                                    (m_decision_points m))
                   (metrics (visit tree init))).
    { rewrite visit_advance. cbn [advance metrics init app].
      apply function_metrics_points_known. }
    eapply Forall_impl; [|exact Hk]. intros m Hm.
    cbn [detail_of d_decision_points]. unfold _format_decision_points.
    apply Forall_map. eapply Forall_impl; [|exact Hm].
    intros p Hp. cbn [f_description].
    pose proof (known_type_description p Hp) as Hin.
    split; [exact Hin|].
    intros E. rewrite E in Hin. cbn in Hin.
    intuition discriminate.
Qed.

Lemma filter_map_comm {A B : Type} (f : A -> B) (test : B -> bool)
    (l : list A) :
  filter test (map f l) = map f (filter (fun x => test (f x)) l).
Proof.
  induction l as [|x l IH]; [reflexivity|].
  cbn [map filter]. destruct (test (f x)); cbn [map]; now rewrite IH.
Qed.

(** X7: the hotspots are as many as the entries of the detailed report
    whose severity is not ['normal'], and each hotspot is the dict of a
    metric whose detail entry has the same severity. *)
Theorem hotspots_match_details (self : CyclomaticComplexityAnalyzer)
    (tree : node) :
  exists analysis,
    analyze_tree self tree = Ok analysis
    /\ List.length (a_hotspots analysis)
       = List.length
           (filter (fun d => negb (String.eqb (d_severity d) "normal"))
              (a_details analysis))
    /\ forall h,
         In h (a_hotspots analysis) ->
         exists m,
           In m (metrics (visit tree init))
           /\ h = hotspot_of self m
           /\ In (detail_of self m) (a_details analysis)
           /\ d_severity (detail_of self m) = h_severity h
           /\ h_severity h <> "normal".
Proof.
  destruct (analyze_tree_ok self tree)
    as (analysis & Ha & _ & _ & Hh & Hd & _).
  exists analysis. split; [exact Ha|].
  assert (Hmap : a_details analysis
                 = map (detail_of self) (metrics (visit tree init)))
    by exact Hd.
  rewrite Hh, Hmap, hotspots_unsorted.
  set (ms := metrics (visit tree init)).
  assert (Hperm : Permutation
                    (sorted hotspot_leb
                       (map (hotspot_of self) (filter (is_hotspot self) ms)))
                    (map (hotspot_of self) (filter (is_hotspot self) ms)))
    by apply sorted_perm.
  split.
  - rewrite (Permutation_length Hperm), filter_map_comm, !length_map.
    reflexivity.
  - intros h Hin. apply (Permutation_in _ Hperm) in Hin.
    apply in_map_iff in Hin as (m & <- & Hm).
    apply filter_In in Hm as [Hm Hs].
    exists m. repeat split; try assumption.
    + now apply in_map.
    + unfold is_hotspot in Hs. apply negb_true_iff in Hs.
      now apply String.eqb_neq in Hs.
Qed.

Lemma nodup_all_equal (t : string) (l : list string) :
  Forall (fun x => x = t) l -> l <> [] -> nodup string_dec l = [t].
Proof.
  induction 1 as [|x l -> Hl IH]; [congruence|]. intros _.
  cbn [nodup]. destruct (in_dec string_dec t l) as [Hin|Hnin].
  - apply IH. intros ->. destruct Hin.
  - destruct l as [|y l]; [reflexivity|].
    exfalso. apply Hnin. left. now inversion Hl.
Qed.

Lemma len_set_two (a b : string) (l : list string) :
  In a l -> In b l -> a <> b -> 2 <= len_set l.
Proof.
  intros Ha Hb Hab. unfold len_set, len.
  change 2 with (Z.of_nat (List.length [a; b])).
  apply inj_le, NoDup_incl_length.
  - constructor; [|constructor; [intros []|constructor]].
    intros [E|[]]. congruence.
  - intros x [<-|[<-|[]]]; now apply nodup_In.
Qed.

(** X11: [_generate_hotspot_recommendation] never reads [decision_types[0]]
    of an empty list. Its recommendation is critical and located at the
    line of the hotspot; the suggestion is the one of the type when all
    the decision points of the hotspot have the same type, and the one
    for mixed types when two of them differ, and also when the hotspot has
    no decision point of its own. *)
Theorem hotspot_recommendation_suggestion (hotspot : Hotspot) :
  exists r,
    _generate_hotspot_recommendation hotspot = Ok r
    /\ r_type r = "critical"
    /\ r_location r
       = Some ("Line " ++ str_of_int (h_line_number hotspot))%string
    /\ (h_decision_points hotspot = [] -> r_suggestion r = mixed_suggestion)
    /\ (forall t,
          h_decision_points hotspot <> [] ->
          Forall (fun p => p_type p = t) (h_decision_points hotspot) ->
          r_suggestion r = single_type_suggestion t)
    /\ (forall p q,
          In p (h_decision_points hotspot) ->
          In q (h_decision_points hotspot) ->
          p_type p <> p_type q ->
          r_suggestion r = mixed_suggestion).
Proof.
  unfold _generate_hotspot_recommendation.
  set (decision_types := map p_type (h_decision_points hotspot)).
  destruct (len_set decision_types =? 1) eqn:E.
  - destruct decision_types as [|t ts] eqn:Et.
    { discriminate E. }
    cbn [first bind]. eexists. split; [reflexivity|].
    cbn [r_type r_location r_suggestion].
    repeat apply conj; try reflexivity.
    + intros Hnil. subst decision_types. rewrite Hnil in Et. discriminate.
    + intros t' _ Hall. subst decision_types.
      destruct (h_decision_points hotspot) as [|p ps]; [discriminate|].
      cbn [map] in Et. injection Et as <- _.
      now inversion Hall; subst.
    + intros p q Hp Hq Hpq. exfalso.
      apply Z.eqb_eq in E.
      pose proof (len_set_two (p_type p) (p_type q)
                    (map p_type (h_decision_points hotspot))
                    (in_map _ _ _ Hp) (in_map _ _ _ Hq) Hpq) as H2.
      subst decision_types. rewrite Et in H2. lia.
  - cbn [bind]. eexists. split; [reflexivity|].
    cbn [r_type r_location r_suggestion].
    repeat apply conj; try reflexivity.
    intros t Hne Hall. exfalso.
    apply Z.eqb_neq in E. apply E.
    unfold len_set. rewrite (nodup_all_equal t); [reflexivity| |].
    + subst decision_types. apply Forall_map. exact Hall.
    + subst decision_types. destruct (h_decision_points hotspot);
        [congruence|discriminate].
Qed.

(** X11: a hotspot with two conditionals, and one with a conditional and a
    loop. *)
Lemma hotspot_recommendation_suggestion_witness :
  (exists r,
     _generate_hotspot_recommendation
       (mkHotspot "f" 16 3 "function" "critical" 1
          [mkPoint "if" 4; mkPoint "if" 6])
     = Ok r
     /\ r_suggestion r = "Consider using strategy pattern or lookup tables")
  /\ (exists r,
        _generate_hotspot_recommendation
          (mkHotspot "g" 16 9 "function" "critical" 1
             [mkPoint "if" 10; mkPoint "loop" 11])
        = Ok r
        /\ r_suggestion r = mixed_suggestion)
  /\ (exists r,
        _generate_hotspot_recommendation
          (mkHotspot "h" 16 20 "function" "critical" 1 [])
        = Ok r
        /\ r_suggestion r = mixed_suggestion).
Proof.
  split; [|split].
  - destruct (hotspot_recommendation_suggestion
                (mkHotspot "f" 16 3 "function" "critical" 1
                   [mkPoint "if" 4; mkPoint "if" 6]))
      as (r & Hr & _ & _ & _ & Hsame & _).
    exists r. split; [exact Hr|].
    apply (Hsame "if"); [discriminate|].
    repeat constructor.
  - destruct (hotspot_recommendation_suggestion
                (mkHotspot "g" 16 9 "function" "critical" 1
                   [mkPoint "if" 10; mkPoint "loop" 11]))
      as (r & Hr & _ & _ & _ & _ & Hmixed).
    exists r. split; [exact Hr|].
    apply (Hmixed (mkPoint "if" 10) (mkPoint "loop" 11)).
    + now left.
    + right. now left.
    + discriminate.
  - destruct (hotspot_recommendation_suggestion
                (mkHotspot "h" 16 20 "function" "critical" 1 []))
      as (r & Hr & _ & _ & Hnone & _).
    exists r. split; [exact Hr|]. apply Hnone. reflexivity.
Defined.

Lemma hotspot_loop_ok (hotspots : list Hotspot) : forall acc,
  exists specific,
    foldM
      (fun recommendations hotspot =>
         if String.eqb (h_severity hotspot) "critical"
         then r <- _generate_hotspot_recommendation hotspot ;;
              Ok (recommendations ++ [r])
         else Ok recommendations)
      hotspots acc
    = Ok (acc ++ specific)
    /\ Forall2 (fun h r => _generate_hotspot_recommendation h = Ok r)
         (filter is_critical hotspots) specific.
Proof.
  induction hotspots as [|h hs IH]; intros acc.
  - exists []. cbn. rewrite app_nil_r. split; [reflexivity|constructor].
  - cbn [foldM filter]. unfold is_critical at 1.
    destruct (String.eqb (h_severity h) "critical").
    + destruct (hotspot_recommendation_ok h) as [r Hr].
      rewrite Hr. cbn [bind].
      destruct (IH (acc ++ [r])) as (specific & Hs & Hall).
      exists (r :: specific). rewrite Hs, <- app_assoc.
      split; [reflexivity|]. now constructor.
    + cbn [bind]. apply IH.
Qed.

(** X12: [_generate_recommendations] returns, in this order, the
    recommendation on the overall complexity when it is above twice the
    critical threshold, the one on the average when it is above the
    warning threshold, and one recommendation for each critical hotspot in
    the order of the hotspots; a hotspot that is only a warning gets
    none. *)
Theorem recommendations_structure (self : CyclomaticComplexityAnalyzer)
    (metrics : Metrics) (hotspots : list Hotspot) :
  exists specific,
    _generate_recommendations self metrics hotspots
    = Ok ((if overall_complexity metrics >? threshold_critical self * 2
           then [overall_recommendation] else [])
          ++ (if negb (Qle_bool (average_function_complexity metrics)
                         (inject_Z (threshold_warning self)))
              then [average_recommendation] else [])
          ++ specific)
    /\ Forall2 (fun h r => _generate_hotspot_recommendation h = Ok r)
         (filter is_critical hotspots) specific
    /\ List.length specific = List.length (filter is_critical hotspots).
Proof.
  unfold _generate_recommendations.
  match goal with
  | |- context [foldM _ hotspots ?acc] =>
    destruct (hotspot_loop_ok hotspots acc) as (specific & Hs & Hall)
  end.
  exists specific. rewrite Hs. split; [|split].
  - f_equal.
    destruct (overall_complexity metrics >? threshold_critical self * 2),
      (negb (Qle_bool (average_function_complexity metrics)
               (inject_Z (threshold_warning self)))); reflexivity.
  - exact Hall.
  - symmetry. exact (Forall2_length Hall).
Qed.

(** *** The summary of the decision points *)

Lemma dict_get_set {V : Type} (d : list (string * V)) (k k' : string)
    (v default : V) :
  dict_get (dict_set d k v) k' default
  = if String.eqb k k' then v else dict_get d k' default.
Proof.
  induction d as [|[k0 v0] d IH]; cbn [dict_set dict_get].
  - reflexivity.
  - destruct (String.eqb_spec k0 k) as [->|Hk]; cbn [dict_get].
    + destruct (String.eqb k k'); reflexivity.
    + rewrite IH. destruct (String.eqb_spec k0 k') as [->|Hk'];
        [|reflexivity].
      destruct (String.eqb_spec k k'); [congruence|reflexivity].
Qed.

Lemma dict_set_keys {V : Type} (d : list (string * V)) (k : string) (v : V) :
  forall k', In k' (map fst (dict_set d k v)) <-> k' = k \/ In k' (map fst d).
Proof.
  induction d as [|[k0 v0] d IH]; intros k'; cbn [dict_set map fst In].
  - intuition.
  - destruct (String.eqb_spec k0 k) as [->|Hk]; cbn [map fst In].
    + intuition.
    + rewrite IH. intuition.
Qed.

Lemma dict_set_NoDup {V : Type} (d : list (string * V)) (k : string) (v : V) :
  NoDup (map fst d) -> NoDup (map fst (dict_set d k v)).
Proof.
  induction d as [|[k0 v0] d IH]; cbn [dict_set map fst]; intros H.
  - constructor; [intros []|constructor].
  - destruct (String.eqb_spec k0 k) as [->|Hk]; cbn [map fst];
      [exact H|].
    inversion H as [|? ? Hnin Hd]; subst. constructor; [|now apply IH].
    rewrite dict_set_keys. intros [E|Hin]; [congruence|contradiction].
Qed.

Lemma dict_set_sum (d : list (string * Z)) (k : string) :
  Zsum (map snd (dict_set d k (dict_get d k 0 + 1)))
  = Zsum (map snd d) + 1.
Proof.
  induction d as [|[k0 v0] d IH]; cbn [dict_set dict_get map snd Zsum].
  - cbn. lia.
  - destruct (String.eqb_spec k0 k) as [->|Hk];
      cbn [map snd Zsum fold_right].
    + fold (Zsum (map snd d)). lia.
    + fold (Zsum (map snd (dict_set d k (dict_get d k 0 + 1)))).
      fold (Zsum (map snd d)). rewrite IH. lia.
Qed.

Lemma dict_get_In {V : Type} (d : list (string * V)) (k : string)
    (v default : V) :
  NoDup (map fst d) -> In (k, v) d -> dict_get d k default = v.
Proof.
  induction d as [|[k0 v0] d IH]; [intros _ []|].
  cbn [map fst dict_get]. intros Hnd [E|Hin].
  - injection E as -> ->. now rewrite String.eqb_refl.
  - inversion Hnd as [|? ? Hnin Hd]; subst.
    destruct (String.eqb_spec k0 k) as [->|Hk]; [|now apply IH].
    exfalso. apply Hnin. apply in_map_iff. now exists (k, v).
Qed.

Lemma count_type_cons t p ps :
  count_type t (p :: ps)
  = (if String.eqb (p_type p) t then 1 else 0) + count_type t ps.
Proof.
  unfold count_type, len. cbn [filter].
  destruct (String.eqb (p_type p) t); cbn [List.length]; lia.
Qed.

(** What the counting loop leaves in the dict. *)
Lemma count_types_spec ps : forall d,
  NoDup (map fst d) ->
  NoDup (map fst (count_types ps d))
  /\ (forall t, dict_get (count_types ps d) t 0
                = dict_get d t 0 + count_type t ps)
  /\ (forall t, In t (map fst (count_types ps d))
                <-> In t (map fst d) \/ exists p, In p ps /\ p_type p = t)
  /\ Zsum (map snd (count_types ps d)) = Zsum (map snd d) + len ps.
Proof.
  induction ps as [|p ps IH]; intros d Hd.
  - cbn [count_types fold_left]. repeat apply conj.
    + exact Hd.
    + intros t. unfold count_type, len. cbn. lia.
    + intros t. split; [now left|]. intros [H|(p & [] & _)]. exact H.
    + unfold len. cbn. lia.
  - unfold count_types. cbn [fold_left].
    fold (count_types ps
            (dict_set d (p_type p) (dict_get d (p_type p) 0 + 1))).
    destruct (IH (dict_set d (p_type p) (dict_get d (p_type p) 0 + 1)))
      as (Hnd & Hget & Hkeys & Hsum).
    { now apply dict_set_NoDup. }
    repeat apply conj.
    + exact Hnd.
    + intros t. rewrite Hget, dict_get_set, count_type_cons.
      destruct (String.eqb_spec (p_type p) t) as [->|]; lia.
    + intros t. rewrite Hkeys, dict_set_keys. split.
      * intros [[->|H]|(q & Hq & Ht)].
        -- right. exists p. split; [now left|reflexivity].
        -- now left.
        -- right. exists q. split; [now right|exact Ht].
      * intros [H|(q & [<-|Hq] & Ht)].
        -- left. now right.
        -- left. left. now symmetry.
        -- right. now exists q.
    + rewrite Hsum, dict_set_sum. unfold len. cbn [List.length]. lia.
Qed.

Lemma distributions_map (total : Z) (type_counts : list (string * Z)) :
  total <> 0 ->
  mapM (fun tc : string * Z =>
          let (t, c) := tc in
          q <- truediv c total ;;
          Ok (t, {| count := c; percentage := (q * inject_Z 100)%Q |}))
       type_counts
  = Ok (map (fun tc : string * Z =>
               (fst tc,
                {| count := snd tc;
                   percentage :=
                     (inject_Z (snd tc) / inject_Z total * inject_Z 100)%Q |}))
          type_counts).
Proof.
  intros Ht. induction type_counts as [|[t c] l IH]; [reflexivity|].
  cbn [mapM map fst snd]. rewrite truediv_ok by exact Ht. cbn [bind].
  rewrite IH. reflexivity.
Qed.

(** The summary, in terms of the counting loop. *)
Lemma summarize_spec (decision_points : list DecisionPoint) :
  decision_points <> [] ->
  exists cs,
    _summarize_decision_points decision_points
    = Ok {| total_points := len decision_points;
            distributions :=
              map (fun tc : string * Z =>
                     (fst tc,
                      {| count := snd tc;
                         percentage :=
                           (inject_Z (snd tc)
                            / inject_Z (len decision_points)
                            * inject_Z 100)%Q |}))
                  (count_types decision_points []);
            clusters := cs |}.
Proof.
  intros Hne. unfold _summarize_decision_points.
  fold (count_types decision_points []).
  rewrite distributions_map.
  - rewrite find_clusters_runs. cbn [bind]. eexists. reflexivity.
  - destruct decision_points; [congruence|].
    unfold len. cbn [List.length]. lia.
Qed.

Lemma count_type_nonneg t ps : 0 <= count_type t ps.
Proof. unfold count_type. apply len_nonneg. Qed.

Lemma count_type_pos p ps : In p ps -> 1 <= count_type (p_type p) ps.
Proof.
  induction ps as [|q ps IH]; [intros []|].
  rewrite count_type_cons. intros [->|H].
  - rewrite String.eqb_refl.
    pose proof (count_type_nonneg (p_type p) ps). lia.
  - specialize (IH H). destruct (String.eqb (p_type q) (p_type p)); lia.
Qed.

(** X8: in the summary every type of a decision point has one entry in
    [distributions], and only those have one; the count of an entry is the
    number of points of its type, and the counts add up to
    [total_points]. *)
Theorem summary_counts (decision_points : list DecisionPoint) :
  exists summary,
    _summarize_decision_points decision_points = Ok summary
    /\ total_points summary = len decision_points
    /\ NoDup (map fst (distributions summary))
    /\ (forall t,
          In t (map fst (distributions summary))
          <-> exists p, In p decision_points /\ p_type p = t)
    /\ (forall t d,
          In (t, d) (distributions summary) ->
          count d = count_type t decision_points /\ 1 <= count d)
    /\ Zsum (counts (distributions summary)) = total_points summary.
Proof.
  destruct decision_points as [|p0 ps0] eqn:E.
  { eexists. split; [reflexivity|]. cbn.
    repeat apply conj; try reflexivity; try constructor.
    - intros [].
    - intros (p & [] & _).
    - destruct H.
    - destruct H. }
  rewrite <- E.
  assert (Hne : decision_points <> []) by (rewrite E; discriminate).
  destruct (summarize_spec decision_points Hne) as (cs & Hs).
  destruct (count_types_spec decision_points [] (NoDup_nil _))
    as (Hnd & Hget & Hkeys & Hsum).
  eexists. split; [exact Hs|].
  cbn [total_points distributions].
  set (tcs := count_types decision_points []) in *.
  assert (Hfst : map fst
                   (map (fun tc : string * Z =>
                           (fst tc,
                            {| count := snd tc;
                               percentage :=
                                 (inject_Z (snd tc)
                                  / inject_Z (len decision_points)
                                  * inject_Z 100)%Q |})) tcs)
                 = map fst tcs).
  { rewrite map_map. reflexivity. }
  repeat apply conj.
  - reflexivity.
  - now rewrite Hfst.
  - intros t. rewrite Hfst, Hkeys. cbn [map In]. tauto.
  - intros t d Hin. apply in_map_iff in Hin as ([t' c] & Heq & Hin).
    cbn [fst snd] in Heq. injection Heq as -> <-. cbn [count].
    assert (Hc : c = count_type t decision_points).
    { rewrite <- (dict_get_In tcs t c 0 Hnd Hin), Hget. cbn. lia. }
    split; [exact Hc|]. rewrite Hc.
    assert (Hex : exists p, In p decision_points /\ p_type p = t).
    { assert (Hk : In t (map fst tcs)).
      { apply in_map_iff. now exists (t, c). }
      apply Hkeys in Hk as [[]|Hk]. exact Hk. }
    destruct Hex as (p & Hp & <-). now apply count_type_pos.
  - unfold counts. rewrite map_map. cbn [snd count].
    change (map (fun x : string * Z => snd x) tcs) with (map snd tcs).
    rewrite Hsum. cbn. lia.
Qed.

Lemma percentage_bounds (c total : Z) :
  1 <= c -> c <= total ->
  (0 < inject_Z c / inject_Z total * inject_Z 100
   /\ inject_Z c / inject_Z total * inject_Z 100 <= inject_Z 100)%Q.
Proof.
  intros Hc Ht.
  assert (H0 : (0 < inject_Z total)%Q) by (unfold Qlt; simpl; lia).
  assert (H100 : (0 < inject_Z 100)%Q) by reflexivity.
  split.
  - apply Qmult_lt_0_compat; [|exact H100].
    apply Qlt_shift_div_l; [exact H0|].
    rewrite Qmult_0_l. unfold Qlt; simpl; lia.
  - rewrite <- (Qmult_1_l (inject_Z 100)) at 2.
    apply Qmult_le_compat_r; [|now apply Qlt_le_weak].
    apply Qle_shift_div_r; [exact H0|].
    rewrite Qmult_1_l, <- Zle_Qle. exact Ht.
Qed.

Lemma count_type_le t ps : count_type t ps <= len ps.
Proof.
  unfold count_type, len. apply inj_le, filter_length_le.
Qed.

Lemma count_type_all t ps :
  Forall (fun p => p_type p = t) ps -> count_type t ps = len ps.
Proof.
  induction 1 as [|p ps Hp _ IH]; [reflexivity|].
  rewrite count_type_cons, Hp, String.eqb_refl, IH.
  unfold len. cbn [List.length]. lia.
Qed.

(** X9: when there is a decision point, the percentage of each entry of
    [distributions] is above 0 and at most 100, and it is 100 for the
    entry of a type that all the decision points have. The bounds are on
    the quotient before rounding; 0 and 100 are floats and rounding is
    monotone, so the float of the program is within them as well. *)
Theorem summary_percentages (decision_points : list DecisionPoint) :
  decision_points <> [] ->
  exists summary,
    _summarize_decision_points decision_points = Ok summary
    /\ (forall t d,
          In (t, d) (distributions summary) ->
          (0 < percentage d)%Q
          /\ (percentage d <= inject_Z 100)%Q
          /\ (Forall (fun p => p_type p = t) decision_points ->
              (percentage d == inject_Z 100)%Q)).
Proof.
  intros Hne.
  destruct (summarize_spec decision_points Hne) as (cs & Hs).
  destruct (count_types_spec decision_points [] (NoDup_nil _))
    as (Hnd & Hget & Hkeys & Hsum).
  assert (Htotal : len decision_points <> 0).
  { destruct decision_points; [congruence|].
    unfold len. cbn [List.length]. lia. }
  eexists. split; [exact Hs|].
  cbn [total_points distributions].
  set (tcs := count_types decision_points []) in *.
  intros t d Hin. apply in_map_iff in Hin as ([t' c] & Heq & Hin).
  cbn [fst snd] in Heq. injection Heq as -> <-.
  cbn [count percentage].
  assert (Hc : c = count_type t decision_points).
  { rewrite <- (dict_get_In tcs t c 0 Hnd Hin), Hget. cbn. lia. }
  assert (Hk : In t (map fst tcs)).
  { apply in_map_iff. now exists (t, c). }
  apply Hkeys in Hk as [[]|(p & Hp & <-)].
  assert (Hb := percentage_bounds c (len decision_points)).
  rewrite Hc in Hb |- *.
  destruct Hb as [Hlo Hhi];
    [now apply count_type_pos|apply count_type_le|].
  split; [exact Hlo|]. split; [exact Hhi|].
  intros Hall. rewrite (count_type_all _ _ Hall).
  field. unfold Qeq; simpl; lia.
Qed.

(** X9: two conditionals and a loop, and two conditionals. *)
Lemma summary_percentages_witness :
  (exists summary,
     _summarize_decision_points
       [mkPoint "if" 1; mkPoint "loop" 2; mkPoint "if" 3]
     = Ok summary
     /\ Forall (fun d => (0 < percentage d)%Q
                         /\ (percentage d <= inject_Z 100)%Q)
          (map snd (distributions summary))
     /\ map fst (distributions summary) = ["if"; "loop"])
  /\ (exists summary d,
        _summarize_decision_points [mkPoint "if" 1; mkPoint "if" 3]
        = Ok summary
        /\ distributions summary = [("if", d)]
        /\ (percentage d == inject_Z 100)%Q).
Proof.
  split.
  - assert (Hne : [mkPoint "if" 1; mkPoint "loop" 2; mkPoint "if" 3] <> [])
      by discriminate.
    destruct (summary_percentages
                [mkPoint "if" 1; mkPoint "loop" 2; mkPoint "if" 3] Hne)
      as (summary & Hs & Hbounds).
    exists summary. split; [exact Hs|]. split.
    + apply Forall_forall. intros d Hd.
      apply in_map_iff in Hd as ([t d'] & Heq & Hin).
      cbn [snd] in Heq. subst d'.
      destruct (Hbounds t d Hin) as (Hlo & Hhi & _). now split.
    + vm_compute in Hs. injection Hs as <-. reflexivity.
  - assert (Hne : [mkPoint "if" 1; mkPoint "if" 3] <> []) by discriminate.
    destruct (summary_percentages [mkPoint "if" 1; mkPoint "if" 3] Hne)
      as (summary & Hs & Hbounds).
    assert (Hv : _summarize_decision_points
                   [mkPoint "if" 1; mkPoint "if" 3] = Ok summary)
      by exact Hs.
    vm_compute in Hv. injection Hv as <-.
    eexists. eexists. split; [exact Hs|]. split; [reflexivity|].
    match goal with
    | |- (percentage ?d == _)%Q =>
      destruct (Hbounds "if" d (or_introl eq_refl)) as (_ & _ & H100)
    end.
    apply H100. repeat constructor.
Defined.

(** X8: two conditionals and a loop. *)
Lemma summary_counts_witness :
  exists summary d,
    _summarize_decision_points
      [mkPoint "if" 1; mkPoint "loop" 2; mkPoint "if" 3]
    = Ok summary
    /\ In ("if", d) (distributions summary)
    /\ count d = 2.
Proof.
  destruct (summary_counts
              [mkPoint "if" 1; mkPoint "loop" 2; mkPoint "if" 3])
    as (summary & Hs & _ & _ & Hkeys & Hcount & _).
  assert (Hin : In "if" (map fst (distributions summary))).
  { apply Hkeys. exists (mkPoint "if" 1). split; [now left|reflexivity]. }
  apply in_map_iff in Hin as ([t d] & Ht & Hin). cbn [fst] in Ht. subst t.
  exists summary, d. split; [exact Hs|]. split; [exact Hin|].
  destruct (Hcount "if" d Hin) as [Hc _]. rewrite Hc. reflexivity.
Defined.

(** *** More on the clusters *)

Lemma within_window_span l : forall x,
  within_window (x :: l) ->
  0 <= p_line (last l x) - p_line x <= window_size * len l.
Proof.
  induction l as [|y l IH]; intros x Hw.
  - cbn. unfold len, window_size. cbn. lia.
  - destruct Hw as [Hxy Hw]. specialize (IH y Hw).
    rewrite (last_cons l x y).
    unfold len in *. cbn [List.length]. unfold window_size in *. lia.
Qed.

Lemma len_concat {A : Type} (ls : list (list A)) :
  len (concat ls) = Zsum (map len ls).
Proof.
  induction ls as [|l ls IH]; [reflexivity|].
  cbn [concat map Zsum fold_right]. fold (Zsum (map len ls)).
  now rewrite len_app, IH.
Qed.

Lemma large_sizes (rs : list run) :
  Zsum (map size (map cluster_of (filter large rs)))
  <= Zsum (map len (map run_points rs))
  /\ min_cluster_size * len (filter large rs)
     <= Zsum (map len (map run_points rs)).
Proof.
  induction rs as [|r rs [IH1 IH2]].
  - cbn. unfold len. cbn. lia.
  - cbn [filter map Zsum fold_right].
    fold (Zsum (map len (map run_points rs))).
    pose proof (len_nonneg (run_points r)).
    destruct (large r) eqn:E.
    + cbn [map Zsum fold_right size cluster_of].
      fold (Zsum (map size (map cluster_of (filter large rs)))).
      unfold large in E. rewrite Z.geb_leb in E. apply Z.leb_le in E.
      unfold len, min_cluster_size in *. cbn [List.length]. split; lia.
    + fold (Zsum (map size (map cluster_of (filter large rs)))).
      split; lia.
Qed.

(** X10: each cluster has as many types as its size says, starts no
    later than it ends, and spans at most five lines for each point after
    its first; the sizes of the clusters add up to no more than the number
    of points, so that there are at most a third as many clusters as
    points, and none for fewer than three points. *)
Theorem clusters_bounds (decision_points : list DecisionPoint) :
  exists clusters,
    _find_decision_clusters decision_points = Ok clusters
    /\ Forall (fun c => size c = len (types c)
                        /\ start_line c <= end_line c
                        /\ end_line c - start_line c
                           <= window_size * (size c - 1))
         clusters
    /\ Zsum (map size clusters) <= len decision_points
    /\ min_cluster_size * len clusters <= len decision_points.
Proof.
  rewrite find_clusters_runs.
  set (sorted_points :=
         sorted (fun x y => p_line x <=? p_line y) decision_points).
  assert (Hsorted : StronglySorted le_line sorted_points)
    by apply sorted_points_sorted.
  assert (Hlen : len sorted_points = len decision_points).
  { unfold len. f_equal. apply Permutation_length, sorted_perm. }
  assert (Hconcat : concat (map run_points (runs sorted_points))
                    = sorted_points).
  { destruct sorted_points as [|p rest]; [reflexivity|].
    apply (runs_from_concat rest p []). }
  assert (Hwithin : Forall (fun r => within_window (run_points r))
                      (runs sorted_points)).
  { destruct sorted_points as [|p rest]; [constructor|].
    apply runs_from_within; [exact Hsorted|exact I]. }
  eexists. split; [reflexivity|].
  destruct (large_sizes (runs sorted_points)) as [Hsum Hcount].
  rewrite <- len_concat, Hconcat, Hlen in Hsum, Hcount.
  repeat apply conj.
  - apply Forall_map, Forall_forall. intros r Hr.
    apply filter_In in Hr as [Hr _].
    rewrite Forall_forall in Hwithin. specialize (Hwithin r Hr).
    destruct r as [x l].
    pose proof (within_window_span l x Hwithin) as Hspan.
    cbn [cluster_of size types start_line end_line].
    unfold run_start, run_end, run_points. cbn [fst snd].
    unfold len in *. rewrite length_map. cbn [List.length].
    unfold window_size in *. repeat split; lia.
  - exact Hsum.
  - unfold len in *. rewrite length_map. exact Hcount.
Qed.

(** *** The average and the maximum *)

Lemma fold_left_add (l : list Z) : forall a,
  fold_left Z.add l a = a + Zsum l.
Proof.
  induction l as [|x l IH]; intros a; cbn [fold_left Zsum fold_right].
  - lia.
  - fold (Zsum l). rewrite IH. lia.
Qed.

Lemma Zsum_bounds (lo hi : Z) (l : list Z) :
  Forall (fun v => lo <= v <= hi) l ->
  lo * len l <= Zsum l <= hi * len l.
Proof.
  induction 1 as [|x l Hx _ IH].
  - unfold len. cbn. lia.
  - cbn [Zsum fold_right]. fold (Zsum l).
    unfold len in *. cbn [List.length]. lia.
Qed.

Lemma fold_max_spec (l : list Z) : forall x,
  x <= fold_left Z.max l x
  /\ Forall (fun v => v <= fold_left Z.max l x) l
  /\ In (fold_left Z.max l x) (x :: l).
Proof.
  induction l as [|y l IH]; intros x; cbn [fold_left].
  - repeat split; [lia|constructor|now left].
  - destruct (IH (Z.max x y)) as (H1 & H2 & H3).
    repeat split.
    + lia.
    + constructor; [lia|exact H2].
    + destruct H3 as [H3|H3]; [|now right; right].
      rewrite <- H3. destruct (Z.max_spec x y) as [[_ ->]|[_ ->]];
        [right; now left|now left].
Qed.

Lemma filter_all {A : Type} (test : A -> bool) (l : list A) :
  Forall (fun x => test x = true) l -> filter test l = l.
Proof.
  induction 1 as [|x l Hx _ IH]; [reflexivity|].
  cbn [filter]. now rewrite Hx, IH.
Qed.

Lemma has_function_def_names n :
  has_function_def n = true -> def_names n <> [].
Proof.
  induction n as [k children IH] using node_ind.
  rewrite Forall_forall in IH.
  assert (Hc : existsb has_function_def children = true ->
               flat_map def_names children <> []).
  { intros H. apply existsb_exists in H as (c & Hin & Hc).
    specialize (IH c Hin Hc). intros E. apply IH.
    destruct (def_names c) as [|x l] eqn:Ec; [reflexivity|].
    assert (Hx : In x (flat_map def_names children)).
    { apply in_flat_map. exists c. split; [exact Hin|].
      rewrite Ec. now left. }
    rewrite E in Hx. destruct Hx. }
  destruct k; cbn [has_function_def def_names]; intros H;
    rewrite ?app_nil_r; try (now apply Hc).
  intros E. now apply app_eq_nil in E as [_ E].
Qed.

(** X13: for a unit with a [def] statement, that is a node of class
    [ast.FunctionDef] (an [async def] is none), the maximum complexity of
    the report is the complexity of one of the functions, at least 1 and
    at most the overall complexity, and the average function complexity is
    at least 1 and at most the maximum complexity. The bounds of the
    average are on the quotient before rounding; they are integers and
    rounding is monotone, so the float of the program is within them as
    well. *)
Theorem average_and_maximum (self : CyclomaticComplexityAnalyzer)
    (tree : node) :
  has_function_def tree = true ->
  exists analysis,
    analyze_tree self tree = Ok analysis
    /\ (1 <= average_function_complexity (a_metrics analysis))%Q
    /\ (average_function_complexity (a_metrics analysis)
        <= inject_Z (max_complexity (a_metrics analysis)))%Q
    /\ In (max_complexity (a_metrics analysis))
         (map m_complexity (metrics (visit tree init)))
    /\ 1 <= max_complexity (a_metrics analysis)
       <= overall_complexity (a_metrics analysis).
Proof.
  intros Hdef.
  pose proof (metrics_invariants tree) as Hwf.
  assert (Hcount : List.length (metrics (visit tree init))
                   = List.length (def_names tree))
    by (now rewrite <- (metrics_names tree), length_map).
  pose proof (has_function_def_names tree Hdef) as Hnames.
  unfold analyze_tree.
  set (visitor := visit tree init) in *.
  rewrite (filter_all (fun m => String.eqb (m_type m) "function")).
  2:{ eapply Forall_impl; [|exact Hwf]. intros m (Ht & _).
      rewrite Ht. reflexivity. }
  destruct (metrics visitor) as [|m ms] eqn:Em.
  { cbn in Hcount. destruct (def_names tree); [congruence|discriminate]. }
  unfold _calculate_average. cbn [map].
  rewrite truediv_ok by (unfold len; cbn [List.length]; lia).
  cbn [bind max].
  change (m_complexity m :: map m_complexity ms)
    with (map m_complexity (m :: ms)).
  set (values := map m_complexity (m :: ms)).
  match goal with
  | |- context [_generate_recommendations self ?x ?h] =>
    destruct (generate_recommendations_ok self x h) as [rs ->]
  end.
  destruct (summarize_ok (all_decision_points visitor))
    as (summary & -> & _).
  cbn [bind]. eexists. split; [reflexivity|].
  cbn [a_metrics average_function_complexity max_complexity
       overall_complexity].
  assert (Hvalues : Forall (fun v => 1 <= v <= total_complexity visitor)
                      values).
  { unfold values. apply Forall_map. eapply Forall_impl; [|exact Hwf].
    intros x (_ & H1 & H2 & _). lia. }
  destruct (fold_max_spec (map m_complexity ms) (m_complexity m))
    as (Hmx & Hmall & Hmin).
  set (maximum := fold_left Z.max (map m_complexity ms) (m_complexity m))
    in *.
  assert (Hmax_all : Forall (fun v => 1 <= v <= maximum) values).
  { unfold values. cbn [map]. constructor.
    - inversion Hvalues; subst. lia.
    - inversion Hvalues as [|? ? _ Hrest]; subst.
      rewrite Forall_forall in *. intros v Hv.
      specialize (Hrest v Hv). specialize (Hmall v Hv). lia. }
  pose proof (Zsum_bounds 1 maximum values Hmax_all) as Hsum.
  assert (Hsum_eq : sum values = Zsum values).
  { unfold sum. rewrite fold_left_add. lia. }
  assert (Hpos : (0 < inject_Z (len values))%Q).
  { unfold Qlt. simpl. pose proof (len_nonneg values). lia. }
  rewrite Hsum_eq.
  change (Zsum values # 1)%Q with (inject_Z (Zsum values)).
  change (len values # 1)%Q with (inject_Z (len values)).
  repeat apply conj.
  - apply Qle_shift_div_l; [exact Hpos|].
    rewrite Qmult_1_l, <- Zle_Qle. lia.
  - apply Qle_shift_div_r; [exact Hpos|].
    rewrite <- inject_Z_mult, <- Zle_Qle. lia.
  - exact Hmin.
  - rewrite Forall_forall in Hvalues.
    specialize (Hvalues maximum Hmin). lia.
  - rewrite Forall_forall in Hvalues.
    specialize (Hvalues maximum Hmin). lia.
Qed.

(** X13: the unit of [data_processor]. *)
Lemma average_and_maximum_witness :
  exists analysis,
    analyze_tree default_analyzer data_processor = Ok analysis
    /\ (1 <= average_function_complexity (a_metrics analysis))%Q
    /\ max_complexity (a_metrics analysis) = 6.
Proof.
  destruct (average_and_maximum default_analyzer data_processor eq_refl)
    as (analysis & Ha & Havg & _ & _ & _).
  exists analysis. split; [exact Ha|]. split; [exact Havg|].
  vm_compute in Ha. injection Ha as <-. reflexivity.
Defined.

(** X7: with thresholds 1 and 2, an empty function is a hotspot. *)
Lemma hotspots_match_details_witness :
  exists analysis h,
    analyze_tree (mkAnalyzer 1 2) (Node Other [Node (FunctionDef "f" 1) []])
    = Ok analysis
    /\ a_hotspots analysis = [h]
    /\ h_severity h = "warning"
    /\ map d_severity (a_details analysis) = ["warning"].
Proof.
  destruct (hotspots_match_details (mkAnalyzer 1 2)
              (Node Other [Node (FunctionDef "f" 1) []]))
    as (analysis & Ha & _ & Hin).
  assert (Hv : analyze_tree (mkAnalyzer 1 2)
                 (Node Other [Node (FunctionDef "f" 1) []])
               = Ok analysis) by exact Ha.
  vm_compute in Hv. injection Hv as <-.
  eexists. eexists. split; [exact Ha|]. split; [reflexivity|].
  split; [|reflexivity].
  match goal with
  | |- h_severity ?h = _ =>
    destruct (Hin h (or_introl eq_refl)) as (m & _ & _ & _ & _ & _)
  end.
  reflexivity.
Defined.

End ReportExtras.

(** ** Further properties of the pattern analyzer *)

Module SafetyExtras.
Import Safety Detection Survey SafetyFacts.

Lemma findings_of_extend (a b c d e : list Z) :
  findings_of (extend init a b c d e)
  = found (nonempty a) hardcoded_credentials a
    ++ found (nonempty b) unsafe_deserialization b
    ++ found (nonempty c) sql_concatenation c
    ++ found (nonempty d) debug_info d
    ++ found (nonempty e) error_suppression e.
Proof. reflexivity. Qed.



Lemma fold_left_snoc {A B : Type} (f : A -> B) (l : list A) :
  forall acc,
    fold_left (fun acc x => acc ++ [f x]) l acc = acc ++ map f l.
Proof.
  induction l as [|x l IH]; intros acc; cbn [fold_left map].
  - now rewrite app_nil_r.
  - now rewrite IH, <- app_assoc.
Qed.

(** X15: the recommendations of a unit are one for each finding, in the
    order of the findings, titled ['Address '] and the name of the pattern
    and with the risk level of the pattern as priority, followed by the
    recommendation to reduce the complexity when the cyclomatic complexity
    is above 10. *)
Theorem recommendations_follow_findings (tree : node) :
  exists results,
    analyze_tree tree = Ok results
    /\ recommendations results
       = map recommendation_of (findings results)
         ++ (if cyclomatic_complexity (metrics results) >? 10
             then [complexity_recommendation] else [])
    /\ map priority (map recommendation_of (findings results))
       = map (fun f => risk_level (pattern f)) (findings results).
Proof.
  eexists. split; [apply safety_analyze_tree_ok|].
  cbn [findings recommendations metrics]. split.
  - unfold _generate_recommendations.
    rewrite (fold_left_snoc recommendation_of). cbn [app].
    destruct (cyclomatic_complexity (_calculate_metrics tree) >? 10);
      [reflexivity|now rewrite app_nil_r].
  - rewrite map_map. reflexivity.
Qed.

Lemma complexity_visit_counts n : forall complexity,
  complexity_visit n complexity
  = complexity + len (filter counted (walk n)).
Proof.
  assert (Hall : forall l,
            Forall (fun c => forall complexity,
                      complexity_visit c complexity
                      = complexity + len (filter counted (walk c))) l ->
            forall complexity,
              fold_left (fun complexity c => complexity_visit c complexity)
                l complexity
              = complexity + len (filter counted (flat_map walk l))).
  { induction 1 as [|c l Hc _ IH]; intros complexity; cbn [fold_left].
    - cbn. unfold len. cbn. lia.
    - cbn [flat_map]. rewrite IH, Hc, filter_app.
      unfold len. rewrite length_app. lia. }
  induction n using node_ind; intros complexity;
    cbn [complexity_visit walk filter counted].
  - rewrite IHn, (Hall targets) by assumption.
    rewrite filter_app. unfold len. rewrite length_app. lia.
  - rewrite (Hall args), IHn by assumption.
    rewrite filter_app. unfold len. rewrite length_app. lia.
  - rewrite IHn2, IHn1. rewrite filter_app. unfold len.
    rewrite length_app. lia.
  - destruct type as [t|].
    + rewrite (Hall body), (H t eq_refl) by assumption.
      rewrite filter_app. unfold len. rewrite length_app. lia.
    + rewrite (Hall body) by assumption. cbn [app]. lia.
  - unfold len. cbn. lia.
  - apply IHn.
  - unfold len. cbn. lia.
  - rewrite (Hall children) by assumption.
    destruct k; unfold len; cbn [List.length]; lia.
Qed.

(** X16: the cyclomatic complexity of the safety report is one more than
    the number of [If], [While] and [For] nodes and of boolean operators of
    the tree (exception handlers and returns do not count); its
    [lines_of_code] and [comment_ratio] are always 0. *)
Theorem safety_metrics (tree : node) :
  exists results,
    analyze_tree tree = Ok results
    /\ cyclomatic_complexity (metrics results)
       = 1 + len (filter counted (walk tree))
    /\ 1 <= cyclomatic_complexity (metrics results)
    /\ 0 <= number_of_functions (metrics results)
    /\ 0 <= number_of_classes (metrics results)
    /\ lines_of_code (metrics results) = 0
    /\ comment_ratio (metrics results) = 0%Q.
Proof.
  eexists. split; [apply safety_analyze_tree_ok|].
  cbn [metrics _calculate_metrics cyclomatic_complexity number_of_functions
       number_of_classes lines_of_code comment_ratio].
  rewrite complexity_visit_counts.
  unfold len. repeat split; lia.
Qed.

(** *** Where the locations come from *)

Lemma walk_self (n : node) : In n (walk n).
Proof. destruct n; now left. Qed.

Lemma occurs_existsb (test : node -> bool) (n : node) :
  occurs test n = existsb test (walk n).
Proof.
  assert (Hall : forall l,
            Forall (fun c => occurs test c = existsb test (walk c)) l ->
            existsb (occurs test) l = existsb test (flat_map walk l)).
  { induction 1 as [|c l Hc _ IH]; [reflexivity|].
    cbn [existsb flat_map]. now rewrite existsb_app, Hc, IH. }
  induction n using node_ind; cbn [occurs walk existsb];
    rewrite ?existsb_app; f_equal.
  - now rewrite (Hall targets), IHn.
  - now rewrite (Hall args), IHn.
  - now rewrite IHn1, IHn2.
  - destruct type as [t|].
    + now rewrite (H t eq_refl), (Hall body).
    + now rewrite (Hall body).
  - exact IHn.
  - now apply Hall.
Qed.

Lemma occurs_false_walk (test : node -> bool) (tree n : node) :
  occurs test tree = false -> In n (walk tree) -> test n = false.
Proof.
  rewrite occurs_existsb. intros H Hin.
  destruct (test n) eqn:E; [|reflexivity].
  assert (existsb test (walk tree) = true)
    by (apply existsb_exists; eauto).
  congruence.
Qed.

(** The nodes of a node of the tree are nodes of the tree. *)
Lemma walk_trans (tree : node) : forall m x,
  In m (walk tree) -> In x (walk m) -> In x (walk tree).
Proof.
  assert (Hall : forall l,
            Forall (fun c => forall m x,
                      In m (walk c) -> In x (walk m) -> In x (walk c)) l ->
            forall m x,
              In m (flat_map walk l) -> In x (walk m) ->
              In x (flat_map walk l)).
  { intros l Hl m x Hm Hx. rewrite Forall_forall in Hl.
    apply in_flat_map in Hm as (c & Hc & Hm).
    apply in_flat_map. exists c. split; [exact Hc|].
    now apply (Hl c Hc m x). }
  induction tree using node_ind; intros m x Hm Hx;
    cbn [walk] in Hm; destruct Hm as [<-|Hm]; try exact Hx;
    cbn [walk]; right.
  - apply in_app_or in Hm as [Hm|Hm]; apply in_or_app.
    + left. now apply (Hall targets H m x).
    + right. now apply (IHtree m x).
  - apply in_app_or in Hm as [Hm|Hm]; apply in_or_app.
    + left. now apply (IHtree m x).
    + right. now apply (Hall args H m x).
  - apply in_app_or in Hm as [Hm|Hm]; apply in_or_app.
    + left. now apply (IHtree1 m x).
    + right. now apply (IHtree2 m x).
  - apply in_app_or in Hm as [Hm|Hm]; apply in_or_app.
    + left. destruct type as [t|]; [|destruct Hm].
      now apply (H t eq_refl m x).
    + right. now apply (Hall body H0 m x).
  - destruct Hm.
  - now apply (IHtree m x).
  - destruct Hm.
  - now apply (Hall children H m x).
Qed.

(** A hit of a kind gives the finding of its pattern, with the line. *)
Lemma debug_hit_found tree lineno :
  In lineno (collect debug_hits tree) ->
  exists results f,
    analyze_tree tree = Ok results
    /\ In f (findings results)
    /\ pattern f = debug_info
    /\ In lineno (locations f).
Proof.
  intros Hin. eexists.
  exists {| pattern := debug_info; locations := collect debug_hits tree |}.
  split; [apply safety_analyze_tree_ok|]. cbn [findings pattern locations].
  split; [|split; [reflexivity|exact Hin]].
  rewrite visit_init, findings_of_extend.
  do 3 (apply in_or_app; right). apply in_or_app. left.
  destruct (collect debug_hits tree); [destruct Hin|]. now left.
Qed.

Lemma exception_hit_found tree lineno :
  In lineno (collect exception_hits tree) ->
  exists results f,
    analyze_tree tree = Ok results
    /\ In f (findings results)
    /\ pattern f = error_suppression
    /\ In lineno (locations f).
Proof.
  intros Hin. eexists.
  exists {| pattern := error_suppression;
            locations := collect exception_hits tree |}.
  split; [apply safety_analyze_tree_ok|]. cbn [findings pattern locations].
  split; [|split; [reflexivity|exact Hin]].
  rewrite visit_init, findings_of_extend.
  do 4 (apply in_or_app; right).
  destruct (collect exception_hits tree); [destruct Hin|]. now left.
Qed.

Lemma sql_hit_found tree lineno :
  In lineno (collect sql_hits tree) ->
  exists results f,
    analyze_tree tree = Ok results
    /\ In f (findings results)
    /\ pattern f = sql_concatenation
    /\ In lineno (locations f).
Proof.
  intros Hin. eexists.
  exists {| pattern := sql_concatenation;
            locations := collect sql_hits tree |}.
  split; [apply safety_analyze_tree_ok|]. cbn [findings pattern locations].
  split; [|split; [reflexivity|exact Hin]].
  rewrite visit_init, findings_of_extend.
  do 2 (apply in_or_app; right). apply in_or_app. left.
  destruct (collect sql_hits tree); [destruct Hin|]. now left.
Qed.

Lemma in_list_two (x a b : string) :
  in_list x [a; b] = true -> x = a \/ x = b.
Proof.
  unfold in_list. cbn [existsb].
  destruct (String.eqb_spec x a); [now left|].
  destruct (String.eqb_spec x b); [now right|]. discriminate.
Qed.

(** X17: a call of the bare name [print] anywhere in the unit gives a
    debug-information finding with its line; and in a tree whose names are
    identifiers these calls are the only source of debug locations: the
    entry ['logging.debug'] of the list never matches. *)
Theorem print_calls_flagged (tree : node) :
  (forall lineno args,
     In (Call lineno (Name "print") args) (walk tree) ->
     exists results f,
       analyze_tree tree = Ok results
       /\ In f (findings results)
       /\ pattern f = debug_info
       /\ In lineno (locations f))
  /\ (occurs dotted_name tree = false ->
      forall lineno,
        In lineno (debug_locations (visit tree init))
        <-> exists args, In (Call lineno (Name "print") args) (walk tree)).
Proof.
  assert (Hhit : forall lineno args,
            In (Call lineno (Name "print") args) (walk tree) ->
            In lineno (collect debug_hits tree)).
  { intros lineno args H. rewrite collect_walk. apply in_flat_map.
    exists (Call lineno (Name "print") args). split; [exact H|now left]. }
  split.
  - intros lineno args H. apply debug_hit_found. now apply (Hhit _ args).
  - intros Hid lineno. rewrite visit_init.
    cbn [extend debug_locations init app]. split.
    + rewrite collect_walk. intros H.
      apply in_flat_map in H as (n & Hn & H).
      destruct n as [| l func args | | | | | |]; try destruct H.
      destruct func as [| | | |id| | |]; try destruct H.
      cbn [debug_hits] in H.
      destruct (in_list id ["print"; "logging.debug"]) eqn:E;
        [|destruct H].
      destruct H as [<-|[]].
      apply in_list_two in E as [->| ->]; [now exists args|].
      exfalso.
      assert (Hname : In (Name "logging.debug") (walk tree)).
      { apply (walk_trans tree _ _ Hn). right. now left. }
      pose proof (occurs_false_walk dotted_name tree _ Hid Hname) as Hd.
      discriminate Hd.
    + intros (args & H). now apply (Hhit _ args).
Qed.

(** X17: [print("x")] on line 4. *)
Lemma print_calls_flagged_witness :
  let tree := Generic Other
                [Generic Other
                   [Call 4 (Name "print") [Constant (VStr "x")]]] in
  occurs dotted_name tree = false
  /\ In 4 (debug_locations (visit tree init))
  /\ exists results f,
       analyze_tree tree = Ok results
       /\ In f (findings results)
       /\ pattern f = debug_info
       /\ In 4 (locations f).
Proof.
  intros tree.
  destruct (print_calls_flagged tree) as [Hfound Hiff].
  assert (Hcall : In (Call 4 (Name "print") [Constant (VStr "x")])
                    (walk tree)).
  { right. right. now left. }
  split; [reflexivity|]. split.
  - apply (Hiff eq_refl 4). now exists [Constant (VStr "x")].
  - exact (Hfound 4 _ Hcall).
Defined.

(** X18: the lines of the broad-exception locations are exactly the lines
    of the handlers without a type and of the handlers whose type is the
    bare name [Exception]; each one is in the finding of the pattern. A
    handler of any other type, a tuple of types or a dotted name included,
    gives none. *)
Theorem broad_handlers_flagged (tree : node) :
  (forall lineno,
     In lineno (exception_locations (visit tree init))
     <-> exists body,
           In (ExceptHandler lineno None body) (walk tree)
           \/ In (ExceptHandler lineno (Some (Name "Exception")) body)
                (walk tree))
  /\ (forall lineno,
        In lineno (exception_locations (visit tree init)) ->
        exists results f,
          analyze_tree tree = Ok results
          /\ In f (findings results)
          /\ pattern f = error_suppression
          /\ In lineno (locations f)).
Proof.
  assert (Hloc : exception_locations (visit tree init)
                 = collect exception_hits tree).
  { rewrite visit_init. reflexivity. }
  rewrite Hloc. split.
  - intros lineno. rewrite collect_walk. split.
    + intros H. apply in_flat_map in H as (n & Hn & H).
      destruct n as [| | | l type body | | | |]; try destruct H.
      destruct type as [t|].
      * destruct t as [| | | |id| | |]; try destruct H.
        cbn [exception_hits] in H.
        destruct (String.eqb_spec id "Exception") as [->|_];
          [|destruct H].
        destruct H as [<-|[]]. exists body. now right.
      * destruct H as [<-|[]]. exists body. now left.
    + intros (body & [H|H]); apply in_flat_map; eexists;
        (split; [exact H|now left]).
  - intros lineno. apply exception_hit_found.
Qed.

(** X18: [except:] on line 2 and [except ValueError:] on line 4. *)
Lemma broad_handlers_flagged_witness :
  let tree := Generic Other
                [Generic Other
                   [ExceptHandler 2 None [Generic Other []];
                    ExceptHandler 4 (Some (Name "ValueError"))
                      [Generic Other []]]] in
  exception_locations (visit tree init) = [2]
  /\ exists results f,
       analyze_tree tree = Ok results
       /\ In f (findings results)
       /\ pattern f = error_suppression
       /\ In 2 (locations f).
Proof.
  intros tree.
  destruct (broad_handlers_flagged tree) as [Hiff Hfound].
  split; [reflexivity|].
  apply Hfound, Hiff. exists [Generic Other []]. left.
  right. right. now left.
Defined.

(** *** Strings *)

Lemma lower_app (a b : string) :
  lower (a ++ b)%string = (lower a ++ lower b)%string.
Proof.
  induction a as [|c a IH]; [reflexivity|].
  cbn [String.append lower]. now rewrite IH.
Qed.

Lemma prefix_app (k : string) : forall a b,
  prefix k a = true -> prefix k (a ++ b)%string = true.
Proof.
  induction k as [|c k IH]; intros a b H.
  - destruct (a ++ b)%string; reflexivity.
  - destruct a as [|c' a]; [discriminate H|].
    cbn [String.append prefix] in H |- *.
    destruct (ascii_dec c c'); [|discriminate H]. now apply IH.
Qed.

Lemma contains_app_l (k a b : string) :
  contains k a = true -> contains k (a ++ b)%string = true.
Proof.
  induction a as [|c a IH]; intros H.
  - cbn [contains] in H. destruct (prefix k "") eqn:E; [|discriminate H].
    destruct k; [|discriminate E].
    destruct (""%string ++ b)%string; reflexivity.
  - cbn [contains] in H. cbn [String.append contains].
    destruct (prefix k (String c a)) eqn:E.
    + change (String c (a ++ b)) with (String c a ++ b)%string.
      now rewrite (prefix_app k (String c a) b E).
    + destruct (prefix k (String c (a ++ b))); [reflexivity|].
      now apply IH.
Qed.

Lemma contains_app_r (k a b : string) :
  contains k b = true -> contains k (a ++ b)%string = true.
Proof.
  intros H. induction a as [|c a IH]; [exact H|].
  cbn [String.append contains].
  destruct (prefix k (String c (a ++ b))); [reflexivity|exact IH].
Qed.

Lemma sql_literal_is_sql (lineno : Z) (left_ right_ : node) (op : operator) :
  sql_literal left_ = true \/ sql_literal right_ = true ->
  _is_sql_string (BinOp lineno left_ op right_) = true
  /\ any isinstance_Str [left_; right_] = true.
Proof.
  intros H. cbn [_is_sql_string]. unfold any.
  destruct H as [H|H].
  - destruct left_ as [| | | | | |v|]; try discriminate H.
    destruct v as [s| | | |]; try discriminate H.
    split; [|reflexivity].
    cbn [sql_literal] in H. unfold any in H.
    apply existsb_exists in H as (kw & Hkw & Hc).
    apply existsb_exists. exists kw. split; [exact Hkw|].
    cbn [get_string_value]. rewrite lower_app. now apply contains_app_l.
  - destruct right_ as [| | | | | |v|]; try discriminate H.
    destruct v as [s| | | |]; try discriminate H.
    split; [|cbn [existsb isinstance_Str]; now rewrite orb_true_r].
    cbn [sql_literal] in H. unfold any in H.
    apply existsb_exists in H as (kw & Hkw & Hc).
    apply existsb_exists. exists kw. split; [exact Hkw|].
    cbn [get_string_value]. rewrite !lower_app.
    now apply contains_app_r, contains_app_r.
Qed.

(** X19: a [+] with a string literal operand that contains an SQL keyword,
    in any letter case, gives an SQL-concatenation finding with its line,
    whatever the other operand is; and every SQL location is the line of a
    [+] one of whose two operands is a string literal, so a concatenation
    of names and calls only is never reported. *)
Theorem sql_concatenation_flagged (tree : node) :
  (forall lineno left_ right_,
     In (BinOp lineno left_ Add right_) (walk tree) ->
     sql_literal left_ = true \/ sql_literal right_ = true ->
     exists results f,
       analyze_tree tree = Ok results
       /\ In f (findings results)
       /\ pattern f = sql_concatenation
       /\ In lineno (locations f))
  /\ (forall lineno,
        In lineno (sql_locations (visit tree init)) ->
        exists left_ right_,
          In (BinOp lineno left_ Add right_) (walk tree)
          /\ (isinstance_Str left_ = true \/ isinstance_Str right_ = true)
          /\ _is_sql_string (BinOp lineno left_ Add right_) = true).
Proof.
  split.
  - intros lineno left_ right_ Hin Hlit. apply sql_hit_found.
    rewrite collect_walk. apply in_flat_map.
    exists (BinOp lineno left_ Add right_). split; [exact Hin|].
    destruct (sql_literal_is_sql lineno left_ right_ Add Hlit) as [Hs Ha].
    cbn [sql_hits]. rewrite Ha, Hs. now left.
  - intros lineno. rewrite visit_init.
    cbn [extend sql_locations init app]. rewrite collect_walk. intros H.
    apply in_flat_map in H as (n & Hn & H).
    destruct n as [| |l left_ op right_| | | | |]; try destruct H.
    destruct op; [|destruct H].
    cbn [sql_hits] in H.
    destruct (any isinstance_Str [left_; right_]) eqn:Ea;
      [|destruct H].
    destruct (_is_sql_string (BinOp l left_ Add right_)) eqn:Es;
      [|destruct H].
    destruct H as [<-|[]].
    exists left_, right_. split; [exact Hn|]. split; [|exact Es].
    unfold any in Ea. cbn [existsb] in Ea.
    rewrite orb_false_r in Ea. now apply orb_true_iff in Ea.
Qed.

(** X19: [query = "SELECT * FROM users WHERE id = " + user_input] on
    line 1. *)
Lemma sql_concatenation_flagged_witness :
  let tree :=
    Generic Other
      [Assign 1 [Name "query"]
         (BinOp 1 (Constant (VStr "SELECT * FROM users WHERE id = ")) Add
            (Name "user_input"))] in
  sql_locations (visit tree init) = [1]
  /\ exists results f,
       analyze_tree tree = Ok results
       /\ In f (findings results)
       /\ pattern f = sql_concatenation
       /\ In 1 (locations f).
Proof.
  intros tree. split; [reflexivity|].
  destruct (sql_concatenation_flagged tree) as [Hfound _].
  apply (Hfound 1 (Constant (VStr "SELECT * FROM users WHERE id = "))
           (Name "user_input")).
  - right. right. right. now left.
  - left. reflexivity.
Defined.

(** *** Credentials and deserialization *)

Lemma map_const_repeat {A B : Type} (x : B) (l : list A) :
  map (fun _ => x) l = repeat x (List.length l).
Proof.
  induction l as [|y l IH]; [reflexivity|]. cbn. now rewrite IH.
Qed.

(** X20: the credential locations of a unit are the lines of the
    assignments of a constant to a name that contains one of the four
    words; and an assignment with several such targets records its line
    once for each of them, so a line can be in the locations more than
    once. *)
Theorem credential_locations_sources (tree : node) :
  (forall lineno,
     In lineno (credential_locations (visit tree init))
     <-> exists targets value id,
           In (Assign lineno targets value) (walk tree)
           /\ In (Name id) targets
           /\ credential_name id = true
           /\ isinstance_Constant value = true)
  /\ (forall lineno targets v,
        Forall (fun t => is_Name t = true) targets ->
        credential_locations
          (visit (Assign lineno targets (Constant v)) init)
        = repeat lineno
            (List.length
               (filter (fun t => match t with
                                 | Name id => credential_name id
                                 | _ => false
                                 end) targets))).
Proof.
  split.
  - intros lineno. rewrite visit_init.
    cbn [extend credential_locations init app]. rewrite collect_walk.
    split.
    + intros H. apply in_flat_map in H as (n & Hn & H).
      destruct n as [l targets value| | | | | | |]; try destruct H.
      cbn [credential_hits] in H.
      apply in_map_iff in H as (target & <- & H).
      apply filter_In in H as [Ht Hc].
      unfold credential_target in Hc.
      destruct target as [| | | |id| | |]; try discriminate Hc.
      apply andb_true_iff in Hc as [Hname Hv].
      exists targets, value, id. repeat split; try assumption.
      destruct value; try discriminate Hv. reflexivity.
    + intros (targets & value & id & Hn & Ht & Hname & Hv).
      apply in_flat_map. exists (Assign lineno targets value).
      split; [exact Hn|]. cbn [credential_hits].
      apply in_map_iff. exists (Name id). split; [reflexivity|].
      apply filter_In. split; [exact Ht|].
      cbn [credential_target]. unfold credential_name in Hname.
      rewrite Hname, Hv. now rewrite orb_true_r.
  - intros lineno targets v Hnames. rewrite visit_init.
    cbn [extend credential_locations init app collect credential_hits].
    assert (Hc : flat_map (collect credential_hits) targets = []).
    { apply ComplexityFacts.flat_map_nil. intros t Ht.
      rewrite Forall_forall in Hnames. specialize (Hnames t Ht).
      destruct t; try discriminate Hnames. reflexivity. }
    rewrite Hc, !app_nil_r, map_const_repeat. f_equal.
    induction Hnames as [|t targets Ht _ IH]; [reflexivity|].
    cbn [filter]. destruct t; try discriminate Ht.
    cbn [credential_target isinstance_Str isinstance_Constant].
    unfold credential_name. rewrite orb_true_r, andb_true_r.
    destruct (any _ _); cbn [List.length]; now rewrite IH.
Qed.

(** X20: [key = token = "x"] on line 3 is recorded twice. *)
Lemma credential_locations_sources_witness :
  Forall (fun t => is_Name t = true) [Name "key"; Name "token"]
  /\ credential_locations (visit chained_credentials init) = [3; 3]
  /\ In 3 (credential_locations (visit chained_credentials init)).
Proof.
  destruct (credential_locations_sources chained_credentials)
    as [Hiff Hcount].
  assert (Hn : Forall (fun t => is_Name t = true)
                 [Name "key"; Name "token"]) by (repeat constructor).
  split; [exact Hn|]. split.
  - unfold chained_credentials.
    rewrite (Hcount 3 [Name "key"; Name "token"] (VStr "x") Hn).
    reflexivity.
  - apply Hiff.
    exists [Name "key"; Name "token"], (Constant (VStr "x")), "key".
    repeat split; try reflexivity; now left.
Defined.

(** X21: in a tree whose names are identifiers (no dot in a [Name]) the
    report never has an unsafe-deserialization finding: the two entries of
    the list of [visit_Call] are dotted names. *)
Theorem deserialization_never_reported (tree : node) :
  occurs dotted_name tree = false ->
  exists results,
    analyze_tree tree = Ok results
    /\ Forall (fun f => pattern f <> unsafe_deserialization)
         (findings results).
Proof.
  intros Hid.
  destruct (identifier_callee_never_deserialization tree Hid) as [Hl _].
  eexists. split; [apply safety_analyze_tree_ok|]. cbn [findings].
  rewrite visit_init in Hl |- *.
  cbn [extend deserialization_locations init app] in Hl.
  rewrite findings_of_extend, Hl. cbn [nonempty found app].
  repeat (apply Forall_app; split);
    match goal with
    | |- Forall _ (found (nonempty ?l) _ ?l) =>
      destruct l; cbn; constructor; try constructor; cbn; discriminate
    end.
Qed.

(** X21: [pickle.loads(data)] has no dotted [Name]. *)
Lemma deserialization_never_reported_witness :
  occurs dotted_name pickle_call = false
  /\ exists results,
       analyze_tree pickle_call = Ok results
       /\ Forall (fun f => pattern f <> unsafe_deserialization)
            (findings results).
Proof.
  split; [reflexivity|].
  apply (deserialization_never_reported pickle_call). reflexivity.
Defined.

End SafetyExtras.
